(** * cocs-bot: a Cloudflare Pages webhook relayed to Discord

    A shallow embedding of the worker's JavaScript sources
    ([cloudflare.js], [discord.js], [index.js]) together with the
    properties its specification states about them.

    - [JS]        : the fragment of the ECMAScript runtime the sources rely on
                    (values, truthiness, member access, coercions, completions).
    - [Cloudflare]: the payload normalizer and its helpers  ([cloudflare.js]).
    - [Runtime]   : requests, responses, [env] and outbound [fetch] calls.
    - [Discord]   : the embed renderer and the REST client  ([discord.js]).
    - [Worker]    : the webhook handler                      ([src/index.js]).
    - [WorkerCopy]: the second copy of the handler that the repository
                    also contains (it follows [cloudflare.js] in the same
                    source part); it differs in the secret check, the
                    repository defaults and the [catch] block.
    - [Spec]      : the wording of the specification as definitions, and
                    the predicates the statements use.
    - [Examples]  : sample payloads, requests and worlds.

    The statements follow, one section per component. *)

From Stdlib Require Import ZArith QArith Qround String Ascii List Bool Lia.
From Stdlib Require Import DecimalString Lqa Qabs Qpower.
Import ListNotations.
Local Open Scope string_scope.
Set Warnings "-register-all".

(* ================================================================== *)
(** * The ECMAScript fragment *)
(* ================================================================== *)

Module JS.

(** Numbers.  A finite Number is an IEEE 754 binary64 number, given by the
    rational [q] that is its exact value; [round64] below is the rounding
    that every inexact operation applies, and [is_binary64] tells the
    rationals that are such numbers.  The sign of zero is not modelled: the
    sources never divide by a Number, and [-0] prints, compares and converts
    as [0] does. *)
Inductive Number : Type :=
| NaN
| PosInf
| NegInf
| Fin (q : Q).

(** The values a JSON document can denote, plus [undefined], which member
    access produces for a missing key.  An object is the list of its own
    properties in the order the engine enumerates them; keys are unique in
    a well-formed object and [own] returns the first binding.  A string is
    the sequence of its code units, each an [ascii]; the status glyphs of
    [discord.js], which lie outside that range, are written by their UTF-8
    bytes (their length is never taken). *)
Inductive Value : Type :=
| JUndefined
| JNull
| JBool (b : bool)
| JNum (n : Number)
| JStr (s : string)
| JArr (items : list Value)
| JObj (props : list (string * Value)).

(** Thrown values: every exception of the program is an [Error] object, of
    which the sources read [message] only. *)
Record Error : Type := mkError { name : string; message : string }.

Inductive Completion (A : Type) : Type :=
| Normal (a : A)
| Throw (e : Error).

Arguments Normal {A} a.
Arguments Throw {A} e.

Definition bind {A B : Type} (c : Completion A) (k : A -> Completion B) : Completion B :=
  match c with
  | Normal a => k a
  | Throw e => Throw e
  end.

Definition num (z : Z) : Value := JNum (Fin (inject_Z z)).

(** [typeof v] *)
Definition typeof (v : Value) : string :=
  match v with
  | JUndefined => "undefined"
  | JNull => "object"
  | JBool _ => "boolean"
  | JNum _ => "number"
  | JStr _ => "string"
  | JArr _ => "object"
  | JObj _ => "object"
  end.

(** [ToBoolean]: the falsy values are [undefined], [null], [false], [0],
    [NaN] and the empty string. *)
Definition ToBoolean (v : Value) : bool :=
  match v with
  | JUndefined => false
  | JNull => false
  | JBool b => b
  | JNum NaN => false
  | JNum (Fin q) => negb (Qeq_bool q 0)
  | JNum _ => true
  | JStr s => negb (s =? "")
  | JArr _ => true
  | JObj _ => true
  end.

Definition is_nullish (v : Value) : bool :=
  match v with
  | JUndefined | JNull => true
  | _ => false
  end.

Fixpoint own (props : list (string * Value)) (k : string) : Value :=
  match props with
  | [] => JUndefined
  | (k', v) :: rest => if k' =? k then v else own rest k
  end.

(** [get v k] is the value of [v.k] on a base that is neither [undefined]
    nor [null], for the data keys the sources read: an own property of an
    object, [length] of a string or an array, and [undefined] otherwise
    (none of those keys is inherited from a prototype, and no index key is
    read). *)
Definition get (v : Value) (k : string) : Value :=
  match v with
  | JObj props => own props k
  | JStr s => if k =? "length" then num (Z.of_nat (String.length s)) else JUndefined
  | JArr items => if k =? "length" then num (Z.of_nat (List.length items)) else JUndefined
  | _ => JUndefined
  end.

Definition TypeError (msg : string) : Error := mkError "TypeError" msg.

Definition cannot_read (v : Value) (k : string) : Error :=
  TypeError ("Cannot read properties of "
             ++ (match v with JNull => "null" | _ => "undefined" end)
             ++ " (reading '" ++ k ++ "')").

(** [base.k]: throws a TypeError on [undefined] and [null]. *)
Definition member (base : Value) (k : string) : Completion Value :=
  if is_nullish base then Throw (cannot_read base k) else Normal (get base k).

(** [e?.k]: [undefined] when [e] evaluates to [undefined] or [null]. *)
Definition member_opt (e : Completion Value) (k : string) : Completion Value :=
  bind e (fun base => if is_nullish base then Normal JUndefined else Normal (get base k)).

(** [e1 || e2]: [e2] is evaluated only when [e1] is falsy. *)
Definition or_else (e1 e2 : Completion Value) : Completion Value :=
  bind e1 (fun v => if ToBoolean v then Normal v else e2).

(** [a || b] for operands whose evaluation cannot throw. *)
Definition or_value (a b : Value) : Value := if ToBoolean a then a else b.

(** A string literal as an expression. *)
Definition str (s : string) : Completion Value := Normal (JStr s).

(** [v === 'literal'] *)
Definition strict_eq_str (v : Value) (lit : string) : bool :=
  match v with
  | JStr s => s =? lit
  | _ => false
  end.

(** ** Numbers *)

(** [a < b] *)
Definition Number_lt (a b : Number) : bool :=
  match a, b with
  | NaN, _ => false
  | _, NaN => false
  | PosInf, _ => false
  | _, NegInf => false
  | NegInf, _ => true
  | Fin _, PosInf => true
  | Fin x, Fin y => negb (Qle_bool y x)
  end.

(** [a === b] on Numbers *)
Definition Number_eqb (a b : Number) : bool :=
  match a, b with
  | PosInf, PosInf => true
  | NegInf, NegInf => true
  | Fin x, Fin y => Qeq_bool x y
  | _, _ => false
  end.

(** ** Rounding to binary64 *)

(** [2 ^ z] and [10 ^ z] for an integer [z] of either sign. *)
Definition pow2 (z : Z) : Q := 2 ^ z.

Definition pow10 (z : Z) : Q := 10 ^ z.

(** [floor (log2 |q|)] for [q <> 0]. *)
Definition binade (q : Q) : Z :=
  let e := (Z.log2 (Z.abs (Qnum q)) - Z.log2 (Zpos (Qden q)))%Z in
  if Qle_bool (pow2 e) (Qabs q) then e else (e - 1)%Z.

(** The exponent of the last bit of the binary64 significand of a number
    of magnitude [|q|]: 52 below its binade, and never below the one of the
    subnormal numbers. *)
Definition quantum (q : Q) : Z := Z.max (binade q - 52) (-1074).

(** Round to the nearest integer, a tie to the even one. *)
Definition rne (y : Q) : Z :=
  let f := Qfloor y in
  match Qcompare (y - inject_Z f) (1 # 2) with
  | Lt => f
  | Gt => (f + 1)%Z
  | Eq => if Z.even f then f else (f + 1)%Z
  end.

(** The Number value of a real number: the nearest binary64 number, a tie
    to the one with the even significand; a magnitude that rounds to
    [2 ^ 1024] or more is infinite. *)
Definition round64 (q : Q) : Number :=
  if Qeq_bool q 0 then Fin 0
  else
    let c := quantum q in
    let v := Qred (inject_Z (rne (q / pow2 c)) * pow2 c) in
    if Qle_bool (pow2 1024) (Qabs v) then (if Qle_bool 0 q then PosInf else NegInf)
    else Fin v.

(** A rational that is a binary64 number: rounding leaves it as it is. *)
Definition is_binary64 (q : Q) : bool :=
  match round64 q with
  | Fin r => Qeq_bool r q
  | _ => false
  end.

(** [a / d] and [a % d] for a finite divisor [d > 0], the only forms the
    sources use ([/ 60] and [% 60]).  The quotient is rounded; the
    remainder, which takes the sign of the dividend (the quotient is
    truncated towards zero), is exact in binary64. *)
Definition Number_div (a : Number) (d : Q) : Number :=
  match a with
  | Fin q => round64 (q / d)
  | other => other
  end.

Definition Qtrunc (q : Q) : Z :=
  if Qle_bool 0 q then Qfloor q else Qceiling q.

Definition Number_rem (a : Number) (d : Q) : Number :=
  match a with
  | Fin q => Fin (q - d * inject_Z (Qtrunc (q / d)))
  | _ => NaN
  end.

(** [Math.floor] and [Math.round] (halves go up: [floor (x + 1/2)]). *)
Definition Math_floor (a : Number) : Number :=
  match a with
  | Fin q => Fin (inject_Z (Qfloor q))
  | other => other
  end.

Definition Math_round (a : Number) : Number :=
  match a with
  | Fin q => Fin (inject_Z (Qfloor (q + (1 # 2))))
  | other => other
  end.

(** ** Number to string *)

Definition decimal (z : Z) : string := NilZero.string_of_int (Z.to_int z).

(** The least [n] with [v < 10 ^ n], for [v > 0]. *)
Definition decade (v : Q) : Z :=
  let est := (binade v * 30103 / 100000)%Z in
  if Qle_bool (pow10 est) v then
    if Qle_bool (pow10 (est + 1)) v then
      if Qle_bool (pow10 (est + 2)) v then (est + 3)%Z else (est + 2)%Z
    else (est + 1)%Z
  else est.

(** Whether the real number [x] rounds to the binary64 number [v > 0]: it
    lies between the midpoints to the neighbours of [v], which count when
    the significand of [v] is even. *)
Definition rounds_to (v x : Q) : bool :=
  let c := quantum v in
  let m := Qfloor (v / pow2 c) in
  let below := if (m =? 2 ^ 52)%Z && (-1074 <? c)%Z then pow2 (c - 2) else pow2 (c - 1) in
  let above := pow2 (c - 1) in
  if Z.even m then Qle_bool (v - below) x && Qle_bool x (v + above)
  else negb (Qle_bool x (v - below)) && negb (Qle_bool (v + above) x).

(** Among the decimals [s * 10 ^ (n - k)] of [k] digits that round to [v],
    the one nearest to [v] (the even [s] of two), if there is any. *)
Definition digits_of_length (v : Q) (n : Z) (k : Z) : option Z :=
  let unit := pow10 (n - k) in
  let s1 := Qfloor (v / unit) in
  let s2 := (s1 + 1)%Z in
  match rounds_to v (inject_Z s1 * unit), rounds_to v (inject_Z s2 * unit) with
  | true, false => Some s1
  | false, true => Some s2
  | false, false => None
  | true, true =>
      match Qcompare (v - inject_Z s1 * unit) (inject_Z s2 * unit - v) with
      | Lt => Some s1
      | Gt => Some s2
      | Eq => Some (if Z.even s1 then s1 else s2)
      end
  end.

(** The digits of the shortest decimal that rounds to [v], tried from [k]
    digits up ([fuel] more lengths; 17 digits always suffice). *)
Fixpoint shortest_digits (v : Q) (n : Z) (k : Z) (fuel : nat) : Z * Z :=
  match fuel with
  | O => (Qfloor (v / pow10 (n - k)), k)
  | S fuel' =>
      match digits_of_length v n k with
      | Some s => (s, k)
      | None => shortest_digits v n (k + 1) fuel'
      end
  end.

Fixpoint strip_zeros (l : list ascii) : list ascii :=
  match l with
  | "0"%char :: rest => strip_zeros rest
  | _ => l
  end.

Fixpoint zeros (n : nat) : string :=
  match n with
  | O => ""
  | S n' => "0" ++ zeros n'
  end.

(** The text of [Number::toString] for the digits [d] and the decimal
    exponent [n] (the number is [0.d * 10 ^ n]): plain digits up to
    [10 ^ 21], a decimal fraction down to [10 ^ -6], and the exponent
    notation beyond. *)
Definition layout_digits (d : string) (n : Z) : string :=
  let k := Z.of_nat (String.length d) in
  if (k <=? n)%Z && (n <=? 21)%Z then d ++ zeros (Z.to_nat (n - k))
  else if (0 <? n)%Z && (n <=? 21)%Z then
    substring 0 (Z.to_nat n) d ++ "." ++ substring (Z.to_nat n) (String.length d) d
  else if (-6 <? n)%Z && (n <=? 0)%Z then "0." ++ zeros (Z.to_nat (- n)) ++ d
  else
    let e := (n - 1)%Z in
    let exponent := (if (e <? 0)%Z then "-" else "+") ++ decimal (Z.abs e) in
    if (k =? 1)%Z then d ++ "e" ++ exponent
    else substring 0 1 d ++ "." ++ substring 1 (String.length d) d ++ "e" ++ exponent.

Definition positive_toString (v : Q) : string :=
  let n := decade v in
  let '(s, k) := shortest_digits v n 1 17 in
  let all := list_ascii_of_string (decimal s) in
  let d := string_of_list_ascii (rev (strip_zeros (rev all))) in
  layout_digits d (n + Z.of_nat (List.length all) - k).

(** [Number::toString] of the binary64 number [q].  An integer below
    [2 ^ 53] prints as its decimal numeral: those are its shortest digits
    followed by its trailing zeros. *)
Definition Q_toString (q : Q) : string :=
  let z := Qfloor q in
  if Qeq_bool (inject_Z z) q && (Z.abs z <? 2 ^ 53)%Z then decimal z
  else if Qle_bool 0 q then positive_toString q
  else "-" ++ positive_toString (- q).

Definition Number_toString (a : Number) : string :=
  match a with
  | NaN => "NaN"
  | PosInf => "Infinity"
  | NegInf => "-Infinity"
  | Fin q => Q_toString q
  end.

(** ** [ToString], as applied by template literals

    A plain object is converted by [OrdinaryToPrimitive]: it calls the
    object's [toString] if that is callable, else its [valueOf].  A JSON
    value holds no function, so an own property named [toString] hides
    [Object.prototype.toString], and [Object.prototype.valueOf] returns the
    object itself: the conversion then throws a TypeError.  An array is
    converted by [Array.prototype.join], which converts each element that is
    neither [undefined] nor [null]. *)

Fixpoint has_own (props : list (string * Value)) (k : string) : bool :=
  match props with
  | [] => false
  | (k', _) :: rest => (k' =? k) || has_own rest k
  end.

Definition cannot_convert : Error :=
  TypeError "Cannot convert object to primitive value".

Fixpoint ToString (v : Value) : Completion string :=
  match v with
  | JUndefined => Normal "undefined"
  | JNull => Normal "null"
  | JBool true => Normal "true"
  | JBool false => Normal "false"
  | JNum n => Normal (Number_toString n)
  | JStr s => Normal s
  | JArr items =>
      (fix join (l : list Value) : Completion string :=
         match l with
         | [] => Normal ""
         | x :: rest =>
             bind (if is_nullish x then Normal "" else ToString x) (fun first =>
             match rest with
             | [] => Normal first
             | _ => bind (join rest) (fun tail => Normal (first ++ "," ++ tail))
             end)
         end) items
  | JObj props =>
      if has_own props "toString" then Throw cannot_convert
      else Normal "[object Object]"
  end.

(** A template literal: its literal chunks and substitutions, the latter
    converted from left to right. *)
Inductive Part : Type :=
| L (chunk : string)
| E (substitution : Value).

Fixpoint template (parts : list Part) : Completion string :=
  match parts with
  | [] => Normal ""
  | L chunk :: rest => bind (template rest) (fun tail => Normal (chunk ++ tail))
  | E v :: rest =>
      bind (ToString v) (fun s => bind (template rest) (fun tail => Normal (s ++ tail)))
  end.

(** ** String to number ([StringToNumber] of the standard): the literal's
    value, rounded to binary64 *)

Definition is_space (c : ascii) : bool :=
  let n := nat_of_ascii c in
  ((9 <=? n)%nat && (n <=? 13)%nat) || (n =? 32)%nat || (n =? 160)%nat.

Fixpoint ltrim (l : list ascii) : list ascii :=
  match l with
  | c :: rest => if is_space c then ltrim rest else l
  | [] => []
  end.

Definition trim (l : list ascii) : list ascii := rev (ltrim (rev (ltrim l))).

Definition digit_of (radix : Z) (c : ascii) : option Z :=
  let n := Z.of_nat (nat_of_ascii c) in
  let d := if (48 <=? n)%Z && (n <=? 57)%Z then Some (n - 48)%Z
           else if (97 <=? n)%Z && (n <=? 102)%Z then Some (n - 87)%Z
           else if (65 <=? n)%Z && (n <=? 70)%Z then Some (n - 55)%Z
           else None in
  match d with
  | Some v => if (v <? radix)%Z then Some v else None
  | None => None
  end.

(** Reads the longest prefix of digits: its value, its length, the rest. *)
Fixpoint digits (radix : Z) (l : list ascii) (acc : Z) (count : nat) : Z * nat * list ascii :=
  match l with
  | c :: rest =>
      match digit_of radix c with
      | Some d => digits radix rest (acc * radix + d)%Z (S count)
      | None => (acc, count, l)
      end
  | [] => (acc, count, [])
  end.

Definition sign_of (l : list ascii) : bool * list ascii :=
  match l with
  | "+"%char :: rest => (false, rest)
  | "-"%char :: rest => (true, rest)
  | _ => (false, l)
  end.

Definition is_char (c : ascii) (s : string) : bool := String c "" =? s.

Definition parse_exponent (l : list ascii) : option Z :=
  match l with
  | [] => Some 0%Z
  | c :: rest =>
      if is_char c "e" || is_char c "E" then
        let '(neg, rest') := sign_of rest in
        let '(v, n, tail) := digits 10 rest' 0 0 in
        match n, tail with
        | S _, [] => Some (if neg then - v else v)%Z
        | _, _ => None
        end
      else None
  end.

Definition parse_unsigned_decimal (l : list ascii) : option Q :=
  let '(ip, ni, r1) := digits 10 l 0 0 in
  let '(fp, nf, r2) :=
    match r1 with
    | "."%char :: rest => digits 10 rest 0 0
    | _ => (0%Z, 0%nat, r1)
    end in
  match (ni + nf)%nat with
  | O => None
  | S _ =>
      match parse_exponent r2 with
      | Some e =>
          Some ((inject_Z ip + inject_Z fp / inject_Z (10 ^ Z.of_nat nf)) * Qpower 10 e)
      | None => None
      end
  end.

Definition radix_prefix (l : list ascii) : option (Z * list ascii) :=
  match l with
  | "0"%char :: c :: rest =>
      if is_char c "x" || is_char c "X" then Some (16%Z, rest)
      else if is_char c "o" || is_char c "O" then Some (8%Z, rest)
      else if is_char c "b" || is_char c "B" then Some (2%Z, rest)
      else None
  | _ => None
  end.

Definition StringToNumber (s : string) : Number :=
  let l := trim (list_ascii_of_string s) in
  match l with
  | [] => Fin 0
  | _ =>
      match radix_prefix l with
      | Some (radix, rest) =>
          match digits radix rest 0 0 with
          | (v, S _, []) => round64 (inject_Z v)
          | _ => NaN
          end
      | None =>
          let '(neg, rest) := sign_of l in
          if string_of_list_ascii rest =? "Infinity" then (if neg then NegInf else PosInf)
          else
            match parse_unsigned_decimal rest with
            | Some q => round64 (if neg then - q else q)
            | None => NaN
            end
      end
  end.

(** [ToNumber]: an array or object is first converted to a string, as
    above (with the same TypeError), and a plain object's string denotes no
    number. *)
Definition ToNumber (v : Value) : Completion Number :=
  match v with
  | JUndefined => Normal NaN
  | JNull => Normal (Fin 0)
  | JBool true => Normal (Fin 1)
  | JBool false => Normal (Fin 0)
  | JNum n => Normal n
  | JStr s => Normal (StringToNumber s)
  | JArr _ => bind (ToString v) (fun s => Normal (StringToNumber s))
  | JObj _ => bind (ToString v) (fun s => Normal (StringToNumber s))
  end.

(** ** [JSON.stringify] *)

Definition dquote : string := String (ascii_of_nat 34) "".
Definition backslash : string := String (ascii_of_nat 92) "".

Definition hex_digit (n : nat) : string :=
  String (nth n (list_ascii_of_string "0123456789abcdef") "0"%char) "".

Definition quote_char (c : ascii) : string :=
  let n := nat_of_ascii c in
  if (n =? 8)%nat then backslash ++ "b"
  else if (n =? 9)%nat then backslash ++ "t"
  else if (n =? 10)%nat then backslash ++ "n"
  else if (n =? 12)%nat then backslash ++ "f"
  else if (n =? 13)%nat then backslash ++ "r"
  else if (n =? 34)%nat then backslash ++ dquote
  else if (n =? 92)%nat then backslash ++ backslash
  else if (n <? 32)%nat then backslash ++ "u00" ++ hex_digit (n / 16) ++ hex_digit (n mod 16)
  else String c "".

Fixpoint quote_chars (s : string) : string :=
  match s with
  | EmptyString => ""
  | String c rest => quote_char c ++ quote_chars rest
  end.

Definition quote (s : string) : string := dquote ++ quote_chars s ++ dquote.

Fixpoint join_with (sep : string) (l : list string) : string :=
  match l with
  | [] => ""
  | [x] => x
  | x :: rest => x ++ sep ++ join_with sep rest
  end.

(** [JSON.stringify(v)] without indentation; [None] stands for the result
    [undefined].  A property whose value is [undefined] is left out, an
    [undefined] array element is written [null], and so is a Number that is
    not finite. *)
Fixpoint JSON_stringify (v : Value) : option string :=
  match v with
  | JUndefined => None
  | JNull => Some "null"
  | JBool true => Some "true"
  | JBool false => Some "false"
  | JNum (Fin q) => Some (Q_toString q)
  | JNum _ => Some "null"
  | JStr s => Some (quote s)
  | JArr items =>
      let element x := match JSON_stringify x with Some t => t | None => "null" end in
      Some ("[" ++ join_with ","
              ((fix each (l : list Value) : list string :=
                  match l with
                  | [] => []
                  | x :: rest => element x :: each rest
                  end) items) ++ "]")
  | JObj props =>
      Some ("{" ++ join_with ","
              ((fix each (l : list (string * Value)) : list string :=
                  match l with
                  | [] => []
                  | (k, x) :: rest =>
                      match JSON_stringify x with
                      | Some t => (quote k ++ ":" ++ t) :: each rest
                      | None => each rest
                      end
                  end) props) ++ "}")
  end.

(** ** String methods *)

Definition not_a_function (callee : string) : Error :=
  TypeError (callee ++ " is not a function").

(** [v.substring(0, n)], where [expr] is the source text of [v]: only a
    string has the method (a JSON value holds no function). *)
Definition substring_0 (expr : string) (v : Value) (n : nat) : Completion string :=
  match v with
  | JStr s => Normal (substring 0 n s)
  | JUndefined | JNull => Throw (cannot_read v "substring")
  | _ => Throw (not_a_function (expr ++ ".substring"))
  end.

(** [a === b] for operands that are not both objects (an object is equal
    to itself only, and the sources never compare two objects). *)
Definition strict_eq (a b : Value) : bool :=
  match a, b with
  | JUndefined, JUndefined => true
  | JNull, JNull => true
  | JBool x, JBool y => Bool.eqb x y
  | JNum x, JNum y => Number_eqb x y
  | JStr x, JStr y => x =? y
  | _, _ => false
  end.

(** [s.charCodeAt(i)]; out of range the result is [NaN], which the bitwise
    operators read as 0. *)
Definition charCodeAt (s : string) (i : nat) : Z :=
  match String.get i s with
  | Some c => Z.of_nat (nat_of_ascii c)
  | None => 0
  end.

(** [ToInt32]: the bitwise operators work on 32-bit two's complement. *)
Definition int32 (z : Z) : Z := (z + 2 ^ 31) mod 2 ^ 32 - 2 ^ 31.

Definition bit_xor (x y : Z) : Z := int32 (Z.lxor (int32 x) (int32 y)).
Definition bit_or (x y : Z) : Z := int32 (Z.lor (int32 x) (int32 y)).

End JS.

Import JS.

Declare Scope js_scope.
Delimit Scope js_scope with js.
Notation "x <- c ;; k" := (bind c (fun x => k))
  (at level 61, c at next level, right associativity) : js_scope.
Notation "b .[ k ]" := (member b k) (at level 1, format "b .[ k ]") : js_scope.
Notation "e ?.[ k ]" := (member_opt e k) (at level 1, format "e ?.[ k ]") : js_scope.
Notation "e1 ||| e2" := (or_else e1 e2) (at level 50, left associativity) : js_scope.
Local Open Scope js_scope.

(* ================================================================== *)
(** * cloudflare.js *)
(* ================================================================== *)

Module Cloudflare.

(** The object literal returned by [parseDeploymentEvent]. *)
Record DeploymentInfo : Type := mkDeploymentInfo {
  id : Value;
  projectName : Value;
  environment : Value;
  status : Value;
  isSuccess : bool;
  isFailure : bool;
  branch : Value;
  commitHash : Value;
  commitMessage : Value;
  commitAuthor : Value;
  deploymentUrl : Value;
  buildLogsUrl : Value;
  commitUrl : Value;
  buildTime : Value;
  createdAt : Value;
  error : Value;
  errorMessage : Value;
  stages : Value;
  latestStage : Value;
  raw : Value
}.

(** [parseDeploymentEvent(payload)].  [now] is the text that
    [new Date().toISOString()] returns at the time of the call.  The
    properties are evaluated in the order of the object literal. *)
Definition parseDeploymentEvent (now : string) (payload : Value) : Completion DeploymentInfo :=
  deployment <- payload.["deployment"] ||| Normal payload ;;
  id <- deployment.["id"] ||| deployment.["deployment_id"] ;;
  projectName <- deployment.["project_name"] ||| payload.["project_name"] ||| str "tlc-survey" ;;
  environment <- deployment.["environment"] ||| str "production" ;;
  status <- (deployment.["latest_stage"])?.["status"] ||| deployment.["status"] ||| str "unknown" ;;
  isSuccess <- (deployment.["latest_stage"])?.["status"] ||| deployment.["status"] ;;
  isFailure <- (deployment.["latest_stage"])?.["status"] ||| deployment.["status"] ;;
  branch <- deployment.["branch"] ||| deployment.["git_branch"] ||| str "main" ;;
  commitHash <- deployment.["commit_hash"] ||| deployment.["git_commit_hash"] ||| str "" ;;
  commitMessage <- deployment.["commit_message"] ||| str "" ;;
  commitAuthor <- deployment.["commit_author"] ||| deployment.["author"] ||| str "" ;;
  deploymentUrl <- deployment.["url"] ||| deployment.["deployment_url"] ||| str "" ;;
  buildLogsUrl <- deployment.["build_logs_url"] ||| deployment.["logs_url"] ||| str "" ;;
  commitUrl <- deployment.["commit_url"] ||| str "" ;;
  buildTime <- deployment.["build_time"] ||| deployment.["duration"] ||| Normal JNull ;;
  createdAt <- deployment.["created_at"] ||| deployment.["created_on"] ||| Normal (JStr now) ;;
  error <- deployment.["error"] ||| deployment.["build_error"] ||| Normal JNull ;;
  errorMessage <- deployment.["error_message"] ||| deployment.["message"] ||| Normal JNull ;;
  stages <- deployment.["stages"] ||| Normal (JArr []) ;;
  latestStage <- deployment.["latest_stage"] ||| Normal JNull ;;
  Normal {|
    id := id;
    projectName := projectName;
    environment := environment;
    status := status;
    isSuccess := strict_eq_str isSuccess "success";
    isFailure := strict_eq_str isFailure "failure";
    branch := branch;
    commitHash := commitHash;
    commitMessage := commitMessage;
    commitAuthor := commitAuthor;
    deploymentUrl := deploymentUrl;
    buildLogsUrl := buildLogsUrl;
    commitUrl := commitUrl;
    buildTime := buildTime;
    createdAt := createdAt;
    error := error;
    errorMessage := errorMessage;
    stages := stages;
    latestStage := latestStage;
    raw := payload
  |}.

(** [isValidPayload(payload)] *)
Definition isValidPayload (payload : Value) : Completion bool :=
  if negb (ToBoolean payload) || negb (typeof payload =? "object") then Normal false
  else
    hasDeployment <- payload.["deployment"] ||| payload.["deployment_id"] ||| payload.["id"] ;;
    hasStatus <- payload.["status"] ||| (payload.["deployment"])?.["status"]
                 ||| (payload.["latest_stage"])?.["status"] ;;
    v <- Normal hasDeployment ||| Normal hasStatus ;;
    Normal (negb (negb (ToBoolean v))).

(** [getShortCommitHash(commitHash)] *)
Definition getShortCommitHash (commitHash : Value) : Completion string :=
  if negb (ToBoolean commitHash) then Normal "unknown"
  else substring_0 "commitHash" commitHash 7.

(** [formatBuildTime(seconds)] *)
Definition formatBuildTime (seconds : Value) : Completion string :=
  if negb (ToBoolean seconds) then Normal "N/A"
  else
    below <- (n <- ToNumber seconds ;; Normal (Number_lt n (Fin 60))) ;;
    if below then
      n <- ToNumber seconds ;;
      Normal (Number_toString (Math_round n) ++ "s")
    else
      minutes <- (n <- ToNumber seconds ;; Normal (Math_floor (Number_div n 60))) ;;
      remainingSeconds <- (n <- ToNumber seconds ;; Normal (Math_round (Number_rem n 60))) ;;
      if Number_eqb remainingSeconds (Fin 0) then
        Normal (Number_toString minutes ++ "m")
      else
        Normal (Number_toString minutes ++ "m " ++ Number_toString remainingSeconds ++ "s").

(** [getCommitUrl(repoOwner, repoName, commitHash)] *)
Definition getCommitUrl (repoOwner repoName commitHash : Value) : Completion string :=
  if negb (ToBoolean commitHash) then Normal ""
  else template [L "https://github.com/"; E repoOwner; L "/"; E repoName;
                 L "/commit/"; E commitHash].

End Cloudflare.

(* ================================================================== *)
(** * The Workers runtime: requests, responses and outbound [fetch] *)
(* ================================================================== *)

Module Runtime.

(** The arguments of one outbound [fetch(url, init)] call. *)
Record FetchCall : Type := mkFetchCall {
  url : string;
  method : string;
  headers : list (string * string);
  body : option string
}.

(** What the remote end answers: [json] is the outcome of
    [await response.json()], which throws when the body is not JSON. *)
Record Reply : Type := mkReply {
  status : Z;
  statusText : string;
  text : string;
  json : Completion Value
}.

(** [response.ok] *)
Definition ok (r : Reply) : bool := ((200 <=? status r) && (status r <=? 299))%Z.

(** The environment of one invocation: how the network answers each call
    ([fetch] rejects with an error when the call fails), and the text of
    [new Date().toISOString()]. *)
Record World : Type := mkWorld {
  remote : FetchCall -> Completion Reply;
  now : string
}.

(** An asynchronous computation: given the world it yields the outbound
    calls it performed, in order, and how it completed.  Console output is
    not part of the model. *)
Definition IO (A : Type) : Type := World -> list FetchCall * Completion A.

Definition ret {A : Type} (a : A) : IO A := fun _ => ([], Normal a).

Definition throw {A : Type} (e : Error) : IO A := fun _ => ([], Throw e).

Definition lift {A : Type} (c : Completion A) : IO A := fun _ => ([], c).

Definition await {A B : Type} (m : IO A) (k : A -> IO B) : IO B :=
  fun w =>
    match m w with
    | (calls, Normal a) => let '(calls', r) := k a w in ((calls ++ calls')%list, r)
    | (calls, Throw e) => (calls, Throw e)
    end.

(** [try { body } catch (error) { handler }] *)
Definition try_catch {A : Type} (body : IO A) (handler : Error -> IO A) : IO A :=
  fun w =>
    match body w with
    | (calls, Normal a) => (calls, Normal a)
    | (calls, Throw e) => let '(calls', r) := handler e w in ((calls ++ calls')%list, r)
    end.

Definition fetch (call : FetchCall) : IO Reply :=
  fun w => ([call], remote w call).

Definition clock : IO string := fun w => ([], Normal (now w)).

(** The inbound request: [header] is [request.headers.get], [json] the
    outcome of [await request.json()]. *)
Record Request : Type := mkRequest {
  header : string -> option string;
  request_json : Completion Value
}.

Definition headers_get (request : Request) (name : string) : Value :=
  match header request name with
  | Some v => JStr v
  | None => JNull
  end.

(** The [env] object: a binding that is not configured reads [undefined]. *)
Record Env : Type := mkEnv {
  DISCORD_BOT_TOKEN : Value;
  DISCORD_CHANNEL_ID : Value;
  WEBHOOK_SECRET : Value;
  GITHUB_REPO_OWNER : Value;
  GITHUB_REPO_NAME : Value
}.

(** A [Response]: [data] is the value whose [JSON.stringify(data, null, 2)]
    text is the body. *)
Record Response : Type := mkResponse {
  response_status : Z;
  data : Value;
  response_headers : list (string * string)
}.

End Runtime.

Import Runtime.

Notation "x <~ c ;; k" := (await c (fun x => k))
  (at level 61, c at next level, right associativity) : js_scope.

(* ================================================================== *)
(** * discord.js *)
(* ================================================================== *)

Module Discord.

Import Cloudflare.

Definition DISCORD_API_BASE : string := "https://discord.com/api/v10".

Record EmbedField : Type := mkField {
  name : string;
  value : Value;
  inline : bool
}.

Record Footer : Type := mkFooter { footer_text : string }.

Record Embed : Type := mkEmbed {
  title : string;
  description : string;
  color : Z;
  timestamp : Value;
  fields : list EmbedField;
  footer : Footer
}.

(** The module-private [formatBuildTime(seconds)] of [discord.js]. *)
Definition formatBuildTime (seconds : Value) : Completion string :=
  if negb (ToBoolean seconds) then Normal "N/A"
  else
    below <- (n <- ToNumber seconds ;; Normal (Number_lt n (Fin 60))) ;;
    if below then
      n <- ToNumber seconds ;;
      Normal (Number_toString (Math_round n) ++ "s")
    else
      minutes <- (n <- ToNumber seconds ;; Normal (Math_floor (Number_div n 60))) ;;
      remainingSeconds <- (n <- ToNumber seconds ;; Normal (Math_round (Number_rem n 60))) ;;
      if Number_eqb remainingSeconds (Fin 0) then
        Normal (Number_toString minutes ++ "m")
      else
        Normal (Number_toString minutes ++ "m " ++ Number_toString remainingSeconds ++ "s").

(** [fields.push(field)] *)
Definition push (fields : list EmbedField) (field : EmbedField) : list EmbedField :=
  (fields ++ [field])%list.

(** [x > 200] *)
Definition gt_200 (x : Value) : Completion bool :=
  n <- ToNumber x ;; Normal (Number_lt (Fin 200) n).

(** [createBuildEmbed(deploymentInfo)].  Each [fieldsN] is [embed.fields]
    after the N-th conditional [push]. *)
Definition createBuildEmbed (deploymentInfo : DeploymentInfo) : Completion Embed :=
  let projectName := projectName deploymentInfo in
  let status := Cloudflare.status deploymentInfo in
  let isSuccess := isSuccess deploymentInfo in
  let isFailure := isFailure deploymentInfo in
  let branch := branch deploymentInfo in
  let commitHash := commitHash deploymentInfo in
  let commitMessage := commitMessage deploymentInfo in
  let commitAuthor := commitAuthor deploymentInfo in
  let deploymentUrl := deploymentUrl deploymentInfo in
  let buildLogsUrl := buildLogsUrl deploymentInfo in
  let commitUrl := commitUrl deploymentInfo in
  let buildTime := buildTime deploymentInfo in
  let error := error deploymentInfo in
  let errorMessage := errorMessage deploymentInfo in
  let createdAt := createdAt deploymentInfo in
  let color := (if isSuccess then 65280 else if isFailure then 16711680 else 16776960)%Z in
  let statusEmoji := if isSuccess then "✅" else if isFailure then "❌" else "⚠️" in
  let statusText := if isSuccess then "Success" else if isFailure then "Failure" else "Unknown" in
  description <-
    (if isFailure && ToBoolean errorMessage then template [L "**Error:** "; E errorMessage]
     else if isSuccess then Normal "Build completed successfully"
     else template [L "Build status: "; E status]) ;;
  title <- template [L statusEmoji; L " Build "; L statusText; L " - "; E projectName] ;;
  footer_text <-
    template [L "Deployment ID: ";
              E (if ToBoolean (id deploymentInfo) then id deploymentInfo else JStr "unknown")] ;;
  let fields0 : list EmbedField := [] in
  fields1 <-
    (if ToBoolean branch then
       value <- template [L "`"; E branch; L "`"] ;;
       Normal (push fields0 {| name := "Branch"; value := JStr value; inline := true |})
     else Normal fields0) ;;
  fields2 <-
    (if ToBoolean commitHash then
       shortHash <- substring_0 "commitHash" commitHash 7 ;;
       commitText <-
         (if ToBoolean commitUrl then
            template [L "[`"; L shortHash; L "`]("; E commitUrl; L ")"]
          else template [L "`"; L shortHash; L "`"]) ;;
       Normal (push fields1 {| name := "Commit"; value := JStr commitText; inline := true |})
     else Normal fields1) ;;
  fields3 <-
    (if negb (strict_eq buildTime JNull) then
       value <- formatBuildTime buildTime ;;
       Normal (push fields2 {| name := "Build Time"; value := JStr value; inline := true |})
     else Normal fields2) ;;
  let fields4 :=
    if ToBoolean commitAuthor then
      push fields3 {| name := "Author"; value := commitAuthor; inline := true |}
    else fields3 in
  fields5 <-
    (if ToBoolean commitMessage then
       long <- gt_200 (get commitMessage "length") ;;
       truncatedMessage <-
         (if long then
            head <- substring_0 "commitMessage" commitMessage 197 ;;
            Normal (JStr (head ++ "..."))
          else Normal commitMessage) ;;
       Normal (push fields4
                 {| name := "Commit Message"; value := truncatedMessage; inline := false |})
     else Normal fields4) ;;
  fields6 <-
    (if ToBoolean deploymentUrl then
       value <- template [L "[View Deployment]("; E deploymentUrl; L ")"] ;;
       Normal (push fields5 {| name := "Deployment"; value := JStr value; inline := true |})
     else Normal fields5) ;;
  fields7 <-
    (if ToBoolean buildLogsUrl then
       value <- template [L "[View Logs]("; E buildLogsUrl; L ")"] ;;
       Normal (push fields6 {| name := "Build Logs"; value := JStr value; inline := true |})
     else Normal fields6) ;;
  fields8 <-
    (if isFailure && ToBoolean error then
       errorText <-
         (if typeof error =? "string" then substring_0 "error" error 1000
          else
            match JSON_stringify error with
            | Some text => substring_0 "JSON.stringify(...)" (JStr text) 1000
            | None => substring_0 "JSON.stringify(...)" JUndefined 1000
            end) ;;
       Normal (push fields7
                 {| name := "Error Details";
                    value := JStr ("```" ++ errorText ++ "```");
                    inline := false |})
     else Normal fields7) ;;
  Normal {|
    title := title;
    description := description;
    color := color;
    timestamp := createdAt;
    fields := fields8;
    footer := {| footer_text := footer_text |}
  |}.

(** The embed as the object the source builds (what [JSON.stringify] sees). *)
Definition field_value (f : EmbedField) : Value :=
  JObj [("name", JStr (name f)); ("value", value f); ("inline", JBool (inline f))].

Definition embed_value (e : Embed) : Value :=
  JObj [("title", JStr (title e));
        ("description", JStr (description e));
        ("color", num (color e));
        ("timestamp", timestamp e);
        ("fields", JArr (map field_value (fields e)));
        ("footer", JObj [("text", JStr (footer_text (footer e)))])].

(** [class DiscordBot] *)
Record DiscordBot : Type := mkDiscordBot {
  token : Value;
  apiBase : string
}.

(** [new DiscordBot(token)] *)
Definition new_DiscordBot (token : Value) : DiscordBot :=
  {| token := token; apiBase := DISCORD_API_BASE |}.

(** [getHeaders()] *)
Definition getHeaders (this : DiscordBot) : Completion (list (string * string)) :=
  authorization <- template [L "Bot "; E (token this)] ;;
  Normal [("Authorization", authorization);
          ("Content-Type", "application/json");
          ("User-Agent", "COCS-Bot/1.0")].

Definition new_Error (msg : string) : Error := mkError "Error" msg.

(** [sendMessage(channelId, messageData)] *)
Definition sendMessage (this : DiscordBot) (channelId : Value) (messageData : Value) : IO Value :=
  url <~ lift (template [L (apiBase this); L "/channels/"; E channelId; L "/messages"]) ;;
  headers <~ lift (getHeaders this) ;;
  response <~ fetch {| url := url;
                       method := "POST";
                       headers := headers;
                       body := JSON_stringify messageData |} ;;
  if negb (ok response) then
    let errorText := text response in
    throw (new_Error ("Discord API error: " ++ decimal (Runtime.status response) ++ " "
                      ++ statusText response ++ " - " ++ errorText))
  else
    lift (json response).

(** [sendBuildNotification(channelId, deploymentInfo)] *)
Definition sendBuildNotification (this : DiscordBot) (channelId : Value)
    (deploymentInfo : DeploymentInfo) : IO Value :=
  embed <~ lift (createBuildEmbed deploymentInfo) ;;
  sendMessage this channelId (JObj [("embeds", JArr [embed_value embed])]).

(** [getBotUser()]: the [init] of its [fetch] names no method, so the call
    is a GET, and it has no body. *)
Definition getBotUser (this : DiscordBot) : IO Value :=
  url <~ lift (template [L (apiBase this); L "/users/@me"]) ;;
  headers <~ lift (getHeaders this) ;;
  response <~ fetch {| url := url; method := "GET"; headers := headers; body := None |} ;;
  if negb (ok response) then
    throw (new_Error ("Failed to get bot user: " ++ decimal (Runtime.status response)))
  else
    lift (json response).

(** [getChannel(channelId)] *)
Definition getChannel (this : DiscordBot) (channelId : Value) : IO Value :=
  url <~ lift (template [L (apiBase this); L "/channels/"; E channelId]) ;;
  headers <~ lift (getHeaders this) ;;
  response <~ fetch {| url := url; method := "GET"; headers := headers; body := None |} ;;
  if negb (ok response) then
    throw (new_Error ("Failed to get channel: " ++ decimal (Runtime.status response)))
  else
    lift (json response).

End Discord.

(* ================================================================== *)
(** * src/index.js: the webhook handler *)
(* ================================================================== *)

Module Worker.

Import Cloudflare Discord.

(** [jsonResponse(data, status)] *)
Definition jsonResponse (data : Value) (status : Z) : Response :=
  {| response_status := status;
     data := data;
     response_headers := [("Content-Type", "application/json");
                          ("Access-Control-Allow-Origin", "*")] |}.

(** The [for] loop of [secureCompare]: [remaining] iterations are left to
    run from index [i].  [scanned] is a ghost record of the indices at which
    the body has read both strings; the body has no exit. *)
Fixpoint secureCompare_loop (a b : string) (remaining i : nat) (result : Z)
    (scanned : list nat) : Z * list nat :=
  match remaining with
  | O => (result, scanned)
  | S remaining' =>
      secureCompare_loop a b remaining' (S i)
        (bit_or result (bit_xor (charCodeAt a i) (charCodeAt b i)))
        (scanned ++ [i])%list
  end.

(** [secureCompare(a, b)] together with the indices its loop scanned. *)
Definition secureCompare_run (a b : Value) : bool * list nat :=
  if negb (typeof a =? "string") || negb (typeof b =? "string") then (false, [])
  else
    match a, b with
    | JStr a, JStr b =>
        if negb (String.length a =? String.length b)%nat then (false, [])
        else
          let '(result, scanned) := secureCompare_loop a b (String.length a) 0 0 [] in
          ((result =? 0)%Z, scanned)
    | _, _ => (false, [])
    end.

Definition secureCompare (a b : Value) : bool := fst (secureCompare_run a b).

(** [deploymentInfo.commitUrl = v] *)
Definition set_commitUrl (d : DeploymentInfo) (v : Value) : DeploymentInfo :=
  {| id := id d; projectName := projectName d; environment := environment d;
     status := Cloudflare.status d; isSuccess := isSuccess d; isFailure := isFailure d;
     branch := branch d; commitHash := commitHash d; commitMessage := commitMessage d;
     commitAuthor := commitAuthor d; deploymentUrl := deploymentUrl d;
     buildLogsUrl := buildLogsUrl d; commitUrl := v; buildTime := buildTime d;
     createdAt := createdAt d; error := error d; errorMessage := errorMessage d;
     stages := stages d; latestStage := latestStage d; raw := raw d |}.

(** The text logged for a rejected payload:
    [JSON.stringify(payload).substring(0, 200)]. *)
Definition payload_excerpt (payload : Value) : Completion string :=
  match JSON_stringify payload with
  | Some text => substring_0 "JSON.stringify(...)" (JStr text) 200
  | None => substring_0 "JSON.stringify(...)" JUndefined 200
  end.

(** The constants [repoOwner] and [repoName] of [handleWebhook].  The
    middle operands, [deploymentInfo.repoOwner] and
    [deploymentInfo.repoName], read properties that [parseDeploymentEvent]
    does not define. *)
Definition repoOwner (env : Env) (deploymentInfo : DeploymentInfo) : Value :=
  or_value (or_value (GITHUB_REPO_OWNER env) JUndefined) (JStr "TLC-Community-Survey").

Definition repoName (env : Env) (deploymentInfo : DeploymentInfo) : Value :=
  or_value (or_value (GITHUB_REPO_NAME env) JUndefined) (JStr "Survey").

(** The statements of [handleWebhook] that follow the validation of the
    payload.  [repoOwner] and [repoName] are the two constants computed
    from [env]. *)
Definition notify (env : Env) (repoOwner repoName : Value) (deploymentInfo : DeploymentInfo)
    : IO Response :=
  deploymentInfo <~
    (if ToBoolean (commitHash deploymentInfo) && negb (ToBoolean (commitUrl deploymentInfo)) then
       url <~ lift (getCommitUrl repoOwner repoName (commitHash deploymentInfo)) ;;
       ret (set_commitUrl deploymentInfo (JStr url))
     else ret deploymentInfo) ;;
  if negb (isSuccess deploymentInfo) && negb (isFailure deploymentInfo) then
    ret (jsonResponse
           (JObj [("message", JStr "Build still in progress, skipping notification")]) 200)
  else
    let bot := new_DiscordBot (DISCORD_BOT_TOKEN env) in
    _ <~ sendBuildNotification bot (DISCORD_CHANNEL_ID env) deploymentInfo ;;
    _ <~ lift (template [L "Build notification sent for deployment "; E (id deploymentInfo);
                         L ": "; E (Cloudflare.status deploymentInfo)]) ;;
    ret (jsonResponse
           (JObj [("success", JBool true);
                  ("deploymentId", id deploymentInfo);
                  ("status", Cloudflare.status deploymentInfo)]) 200).

(** The [try] block of [handleWebhook(request, env)]. *)
Definition handleWebhook_try (request : Request) (env : Env) : IO Response :=
    (if negb (ToBoolean (DISCORD_BOT_TOKEN env)) then
       ret (jsonResponse (JObj [("error", JStr "Bot token not configured")]) 500)
     else if negb (ToBoolean (DISCORD_CHANNEL_ID env)) then
       ret (jsonResponse (JObj [("error", JStr "Discord channel ID not configured")]) 500)
     else if ToBoolean (WEBHOOK_SECRET env)
             && negb (secureCompare (headers_get request "X-Webhook-Secret")
                                    (WEBHOOK_SECRET env)) then
       ret (jsonResponse (JObj [("error", JStr "Unauthorized")]) 401)
     else
       match request_json request with
       | Throw _ =>
           ret (jsonResponse (JObj [("error", JStr "Invalid JSON payload")]) 400)
       | Normal payload =>
           valid <~ lift (isValidPayload payload) ;;
           if negb valid then
             _ <~ lift (payload_excerpt payload) ;;
             ret (jsonResponse (JObj [("error", JStr "Invalid payload structure")]) 400)
           else
             now <~ clock ;;
             deploymentInfo <~ lift (parseDeploymentEvent now payload) ;;
             let repoOwner := repoOwner env deploymentInfo in
             let repoName := repoName env deploymentInfo in
             notify env repoOwner repoName deploymentInfo
       end).

(** [handleWebhook(request, env)] *)
Definition handleWebhook (request : Request) (env : Env) : IO Response :=
  try_catch
    (handleWebhook_try request env)
    (fun error =>
       ret (jsonResponse (JObj [("error", JStr "Internal server error")]) 500)).

(** What the worker sends back: a response built by [jsonResponse], or the
    response of the CORS preflight, [new Response(null, init)], which has no
    body. *)
Inductive Answer : Type :=
| Json (response : Response)
| NoBody (status : Z) (headers : list (string * string)).

Definition answer_status (a : Answer) : Z :=
  match a with
  | Json r => response_status r
  | NoBody status _ => status
  end.

(** The [fetch(request, env, ctx)] of the default export.  [method] is
    [request.method] and [pathname] is [new URL(request.url).pathname]. *)
Definition fetch (method pathname : string) (request : Request) (env : Env) : IO Answer :=
  if pathname =? "/health" then
    if negb (method =? "GET") && negb (method =? "HEAD") then
      ret (Json (jsonResponse (JObj [("error", JStr "Method not allowed")]) 405))
    else
      ret (Json (jsonResponse (JObj [("status", JStr "ok"); ("service", JStr "cocs-bot")]) 200))
  else if (pathname =? "/webhook") || (pathname =? "/") then
    if method =? "OPTIONS" then
      ret (NoBody 204
             [("Access-Control-Allow-Origin", "*");
              ("Access-Control-Allow-Methods", "POST, OPTIONS");
              ("Access-Control-Allow-Headers", "Content-Type, Authorization, X-Webhook-Secret")])
    else if negb (method =? "POST") then
      ret (Json (jsonResponse (JObj [("error", JStr "Method not allowed")]) 405))
    else
      response <~ handleWebhook request env ;;
      ret (Json response)
  else
    ret (Json (jsonResponse (JObj [("error", JStr "Not found")]) 404)).

End Worker.

(* ================================================================== *)
(** * The other copy of the handler

    The repository holds a second [handleWebhook], in the source part that
    also holds [cloudflare.js].  It compares the secret with [!==], takes
    other repository defaults and adds [error.message] to the body of its
    500 response. *)
(* ================================================================== *)

Module WorkerCopy.

Import Cloudflare Discord.

Definition jsonResponse := Worker.jsonResponse.

(** The secret test of this copy, [providedSecret !== env.WEBHOOK_SECRET],
    with the record of the indices at which the statements of the handler
    read the two strings, kept as [Worker.secureCompare_run] keeps it for
    the loop of [src/index.js].  This copy calls no [secureCompare] and has
    no loop: it reads no character itself, the comparison is the
    operator's, and the record stays empty. *)
Definition secret_differs_run (providedSecret secret : Value) : bool * list nat :=
  (negb (strict_eq providedSecret secret), []).

Definition secret_differs (providedSecret secret : Value) : bool :=
  fst (secret_differs_run providedSecret secret).

(** The [try] block of [handleWebhook(request, env)]. *)
Definition handleWebhook_try (request : Request) (env : Env) : IO Response :=
    (if negb (ToBoolean (DISCORD_BOT_TOKEN env)) then
       ret (jsonResponse (JObj [("error", JStr "Bot token not configured")]) 500)
     else if negb (ToBoolean (DISCORD_CHANNEL_ID env)) then
       ret (jsonResponse (JObj [("error", JStr "Discord channel ID not configured")]) 500)
     else if ToBoolean (WEBHOOK_SECRET env)
             && secret_differs (headers_get request "X-Webhook-Secret")
                               (WEBHOOK_SECRET env) then
       ret (jsonResponse (JObj [("error", JStr "Unauthorized")]) 401)
     else
       match request_json request with
       | Throw _ =>
           ret (jsonResponse (JObj [("error", JStr "Invalid JSON payload")]) 400)
       | Normal payload =>
           valid <~ lift (isValidPayload payload) ;;
           if negb valid then
             _ <~ lift (Worker.payload_excerpt payload) ;;
             ret (jsonResponse (JObj [("error", JStr "Invalid payload structure")]) 400)
           else
             now <~ clock ;;
             deploymentInfo <~ lift (parseDeploymentEvent now payload) ;;
             let repoOwner := or_value (GITHUB_REPO_OWNER env) (JStr "fringemonkey") in
             let repoName := or_value (GITHUB_REPO_NAME env) (JStr "cocs-bot") in
             Worker.notify env repoOwner repoName deploymentInfo
       end).

(** [handleWebhook(request, env)] *)
Definition handleWebhook (request : Request) (env : Env) : IO Response :=
  try_catch
    (handleWebhook_try request env)
    (fun error =>
       ret (jsonResponse (JObj [("error", JStr "Internal server error");
                                ("message", JStr (JS.message error))]) 500)).

(** The [fetch(request, env, ctx)] of this copy: the method is tested
    before the path. *)
Definition fetch (method pathname : string) (request : Request) (env : Env)
    : IO Worker.Answer :=
  if method =? "OPTIONS" then
    ret (Worker.NoBody 204
           [("Access-Control-Allow-Origin", "*");
            ("Access-Control-Allow-Methods", "POST, OPTIONS");
            ("Access-Control-Allow-Headers", "Content-Type, Authorization")])
  else if negb (method =? "POST") then
    ret (Worker.Json (jsonResponse (JObj [("error", JStr "Method not allowed")]) 405))
  else if (pathname =? "/webhook") || (pathname =? "/") then
    response <~ handleWebhook request env ;;
    ret (Worker.Json response)
  else if pathname =? "/health" then
    ret (Worker.Json
           (jsonResponse (JObj [("status", JStr "ok"); ("service", JStr "cocs-bot")]) 200))
  else
    ret (Worker.Json (jsonResponse (JObj [("error", JStr "Not found")]) 404)).

End WorkerCopy.

(* ================================================================== *)
(** * The specification's wording, and the predicates of the statements *)
(* ================================================================== *)

Module Spec.

Import Cloudflare.

(** Presence as the specification defines it: [undefined], [null] and the
    empty string are absent; every other value, [0] and [false] included,
    is present. *)
Definition present (v : Value) : bool :=
  match v with
  | JUndefined => false
  | JNull => false
  | JStr s => negb (s =? "")
  | _ => true
  end.

(** First-present-wins over an ordered list of candidates. *)
Fixpoint first_present (candidates : list Value) (default : Value) : Value :=
  match candidates with
  | [] => default
  | v :: rest => if present v then v else first_present rest default
  end.

(** First-truthy-wins: the first candidate that is truthy, and [last] when
    none is. *)
Fixpoint first_truthy (candidates : list Value) (last : Value) : Value :=
  match candidates with
  | [] => last
  | v :: rest => if ToBoolean v then v else first_truthy rest last
  end.

(** The status that a payload resolves to: the status of the latest stage
    of its event (the nested [deployment], else the payload itself), else
    the status of the event, else ["unknown"]. *)
Definition resolved_status (payload : Value) : Value :=
  let deployment := first_truthy [get payload "deployment"] payload in
  first_truthy [get (get deployment "latest_stage") "status"; get deployment "status"]
    (JStr "unknown").

(** The table of candidate keys of each attribute, in priority order, read
    with first-truthy-wins.  [deployment] is the nested event when the
    payload has one, else the payload itself. *)
Definition resolved (now : string) (payload : Value) : DeploymentInfo :=
  let deployment := first_truthy [get payload "deployment"] payload in
  let key k := get deployment k in
  let stage_status := get (key "latest_stage") "status" in
  {| id := first_truthy [key "id"] (key "deployment_id");
     projectName :=
       first_truthy [key "project_name"; get payload "project_name"] (JStr "tlc-survey");
     environment := first_truthy [key "environment"] (JStr "production");
     status := first_truthy [stage_status; key "status"] (JStr "unknown");
     isSuccess := strict_eq_str (first_truthy [stage_status] (key "status")) "success";
     isFailure := strict_eq_str (first_truthy [stage_status] (key "status")) "failure";
     branch := first_truthy [key "branch"; key "git_branch"] (JStr "main");
     commitHash := first_truthy [key "commit_hash"; key "git_commit_hash"] (JStr "");
     commitMessage := first_truthy [key "commit_message"] (JStr "");
     commitAuthor := first_truthy [key "commit_author"; key "author"] (JStr "");
     deploymentUrl := first_truthy [key "url"; key "deployment_url"] (JStr "");
     buildLogsUrl := first_truthy [key "build_logs_url"; key "logs_url"] (JStr "");
     commitUrl := first_truthy [key "commit_url"] (JStr "");
     buildTime := first_truthy [key "build_time"; key "duration"] JNull;
     createdAt := first_truthy [key "created_at"; key "created_on"] (JStr now);
     error := first_truthy [key "error"; key "build_error"] JNull;
     errorMessage := first_truthy [key "error_message"; key "message"] JNull;
     stages := first_truthy [key "stages"] (JArr []);
     latestStage := first_truthy [key "latest_stage"] JNull;
     raw := payload |}.

(** An input that is an object: not [null], and of type [object]. *)
Definition is_object (v : Value) : bool :=
  negb (is_nullish v) && (typeof v =? "object").

(** The validator as the specification words it, with [present] as the
    test of each field. *)
Definition isValid (payload : Value) : bool :=
  is_object payload
  && (present (get payload "deployment")
      || present (get payload "deployment_id")
      || present (get payload "id")
      || present (get payload "status")
      || present (get (get payload "deployment") "status")
      || present (get (get payload "latest_stage") "status")).

(** Three responses of the handler. *)
Definition unauthorized : Response :=
  Worker.jsonResponse (JObj [("error", JStr "Unauthorized")]) 401.


Definition internal_error : Response :=
  Worker.jsonResponse (JObj [("error", JStr "Internal server error")]) 500.

(** A value that is neither an array nor an object. *)
Definition is_primitive (v : Value) : bool :=
  match v with
  | JArr _ | JObj _ => false
  | _ => true
  end.

(** A string, or a falsy value. *)
Definition is_text_or_falsy (v : Value) : bool :=
  negb (ToBoolean v) || (typeof v =? "string").

(** A record as the data model describes it: the attributes that the
    renderer converts to text are primitives, and the commit hash is text
    when it is there. *)
Definition renderable (info : Cloudflare.DeploymentInfo) : bool :=
  is_primitive (Cloudflare.projectName info)
  && is_primitive (Cloudflare.status info)
  && is_primitive (Cloudflare.errorMessage info)
  && is_primitive (Cloudflare.id info)
  && is_primitive (Cloudflare.branch info)
  && is_text_or_falsy (Cloudflare.commitHash info)
  && is_primitive (Cloudflare.commitUrl info)
  && is_primitive (Cloudflare.buildTime info)
  && is_primitive (Cloudflare.commitMessage info)
  && is_primitive (Cloudflare.deploymentUrl info)
  && is_primitive (Cloudflare.buildLogsUrl info).

(** The required bindings are configured. *)
Definition configured (env : Env) : Prop :=
  ToBoolean (DISCORD_BOT_TOKEN env) = true /\ ToBoolean (DISCORD_CHANNEL_ID env) = true.


(** A field that is pushed under a condition. *)
Definition optional (condition : bool) (f : Discord.EmbedField) : list Discord.EmbedField :=
  if condition then [f] else [].

(** The names and layout flags of the fields the renderer emits for a
    record, in the order of its conditional pushes. *)
Definition field_plan (info : DeploymentInfo) : list (string * bool) :=
  ((if ToBoolean (branch info) then [("Branch", true)] else [])
   ++ (if ToBoolean (commitHash info) then [("Commit", true)] else [])
   ++ (if negb (strict_eq (buildTime info) JNull) then [("Build Time", true)] else [])
   ++ (if ToBoolean (commitAuthor info) then [("Author", true)] else [])
   ++ (if ToBoolean (commitMessage info) then [("Commit Message", false)] else [])
   ++ (if ToBoolean (deploymentUrl info) then [("Deployment", true)] else [])
   ++ (if ToBoolean (buildLogsUrl info) then [("Build Logs", true)] else [])
   ++ (if isFailure info && ToBoolean (error info) then [("Error Details", false)] else []))%list.

Definition layout (f : Discord.EmbedField) : string * bool :=
  (Discord.name f, Discord.inline f).

Definition named (n : string) (f : Discord.EmbedField) : bool := Discord.name f =? n.










(** What a read of the REST client does.  When the authorization header
    cannot be built it makes no call and throws that TypeError; otherwise
    it makes exactly one GET of [target], without a body, and it returns the
    parsed body of a reply in 200..299, throws an error that starts with
    [failure] and names the status of any other reply, and throws what the
    call or the reading of the body throws. *)
Definition read_call (authorization target : string) : FetchCall :=
  {| url := target;
     method := "GET";
     headers := [("Authorization", authorization);
                 ("Content-Type", "application/json");
                 ("User-Agent", "COCS-Bot/1.0")];
     body := None |}.

Definition read_outcome (w : World) (botToken : Value) (target failure : string)
    (calls : list FetchCall) (result : Completion Value) : Prop :=
  match template [L "Bot "; E botToken] with
  | Throw e => calls = [] /\ result = Throw e /\ JS.name e = "TypeError"
  | Normal authorization =>
      calls = [read_call authorization target]
      /\ result = match remote w (read_call authorization target) with
                  | Throw e => Throw e
                  | Normal reply =>
                      if ok reply then json reply
                      else Throw (Discord.new_Error
                                    (failure ++ decimal (Runtime.status reply)))
                  end
  end.

(** The call of [sendMessage] for a channel and an authorization header
    already converted to text. *)
Definition message_call (authorization channel : string) (messageData : Value) : FetchCall :=
  {| url := "https://discord.com/api/v10/channels/" ++ channel ++ "/messages";
     method := "POST";
     headers := [("Authorization", authorization);
                 ("Content-Type", "application/json");
                 ("User-Agent", "COCS-Bot/1.0")];
     body := JSON_stringify messageData |}.

(** The test that selects the Commit Message field of an embed. *)
Definition is_commit_message (f : Discord.EmbedField) : bool :=
  Discord.name f =? "Commit Message".

(** The decimal numeral of the integer [n]. *)
Definition integer_text (n : Z) : string := decimal n.

(** [info] with [raw] replaced: two normalized events that differ in
    nothing but the payload they keep. *)
Definition with_raw (info : DeploymentInfo) (payload : Value) : DeploymentInfo :=
  {| id := id info; projectName := projectName info; environment := environment info;
     status := status info; isSuccess := isSuccess info; isFailure := isFailure info;
     branch := branch info; commitHash := commitHash info;
     commitMessage := commitMessage info; commitAuthor := commitAuthor info;
     deploymentUrl := deploymentUrl info; buildLogsUrl := buildLogsUrl info;
     commitUrl := commitUrl info; buildTime := buildTime info;
     createdAt := createdAt info; error := error info; errorMessage := errorMessage info;
     stages := stages info; latestStage := latestStage info; raw := payload |}.

(** A value is [null] or truthy / the empty string or truthy. *)
Definition null_or_truthy (v : Value) : Prop := v = JNull \/ ToBoolean v = true.

Definition empty_or_truthy (v : Value) : Prop := v = JStr "" \/ ToBoolean v = true.

(** The nearest integer, halves going up. *)
Definition nearest (q : Q) : Z := Qfloor (q + (1 # 2)).

(** [q mod 60] for a duration: what is left after the whole minutes. *)
Definition seconds_mod_60 (q : Q) : Q := q - 60 * inject_Z (Qfloor (q / 60)).

End Spec.

(* ================================================================== *)
(** * Sample inputs *)
(* ================================================================== *)

Module Examples.

Definition t0 : string := "2024-01-01T00:00:00.000Z".

(** A nested event whose latest stage succeeded. *)
Definition staged_success : Value :=
  JObj [("deployment",
         JObj [("id", JStr "d1");
               ("latest_stage", JObj [("name", JStr "deploy"); ("status", JStr "success")]);
               ("status", JStr "active");
               ("branch", JStr "main")])].

(** The event of the README's local test. *)
Definition readme_event : Value :=
  JObj [("deployment",
         JObj [("id", JStr "test"); ("status", JStr "success"); ("branch", JStr "main")])].

Fixpoint repeat_text (n : nat) (s : string) : string :=
  match n with
  | O => ""
  | S n' => s ++ repeat_text n' s
  end.

(** A commit message of 250 characters. *)
Definition long_message : string := repeat_text 25 "0123456789".

Definition long_message_event : Value :=
  JObj [("deployment",
         JObj [("id", JStr "d2"); ("status", JStr "success");
               ("commit_hash", JStr "abcdef1234");
               ("commit_message", JStr long_message)])].

(** A worker with both required bindings and a shared secret. *)
Definition env : Env :=
  {| DISCORD_BOT_TOKEN := JStr "bot-token";
     DISCORD_CHANNEL_ID := JStr "1234567890";
     WEBHOOK_SECRET := JStr "s3cret";
     GITHUB_REPO_OWNER := JUndefined;
     GITHUB_REPO_NAME := JUndefined |}.

(** A POST that carries [secret] in [X-Webhook-Secret] (or no such header)
    and whose body parses to [payload]. *)
Definition post (secret : option string) (payload : Value) : Request :=
  {| header := fun name => if name =? "X-Webhook-Secret" then secret else None;
     request_json := Normal payload |}.

(** Discord refuses the message: 403 Forbidden. *)
Definition discord_403 : World :=
  {| remote := fun _ =>
       Normal {| Runtime.status := 403;
                 statusText := "Forbidden";
                 text := "Missing Access";
                 json := Normal JNull |};
     now := t0 |}.

(** Discord accepts the message. *)
Definition discord_200 : World :=
  {| remote := fun _ =>
       Normal {| Runtime.status := 200;
                 statusText := "OK";
                 text := "{}";
                 json := Normal (JObj [("id", JStr "1")]) |};
     now := t0 |}.


End Examples.

(* ================================================================== *)
(** * Properties of the runtime fragment *)
(* ================================================================== *)

Section RuntimeFacts.

Lemma truthy_not_nullish (v : Value) : ToBoolean v = true -> is_nullish v = false.
Proof. destruct v; simpl; congruence. Qed.

Lemma member_defined (v : Value) (k : string) :
  is_nullish v = false -> member v k = Normal (get v k).
Proof. intros H. unfold member. now rewrite H. Qed.

Lemma member_opt_Normal (v : Value) (k : string) :
  member_opt (Normal v) k = Normal (get v k).
Proof. destruct v; reflexivity. Qed.

Lemma or_else_values (a b : Value) :
  or_else (Normal a) (Normal b) = Normal (or_value a b).
Proof. unfold or_else, or_value. simpl. now destruct (ToBoolean a). Qed.

Lemma or_value_nullish (a b : Value) :
  is_nullish b = false -> is_nullish (or_value a b) = false.
Proof.
  intros Hb. unfold or_value.
  destruct (ToBoolean a) eqn:Ha; [now apply truthy_not_nullish | exact Hb].
Qed.

Lemma ToBoolean_or_value (a b : Value) :
  ToBoolean (or_value a b) = ToBoolean a || ToBoolean b.
Proof. unfold or_value. destruct (ToBoolean a) eqn:Ha; [exact Ha | reflexivity]. Qed.

(** A primitive converts to a string without an error. *)
Lemma ToString_primitive (v : Value) :
  Spec.is_primitive v = true -> exists s, ToString v = Normal s.
Proof.
  destruct v as [ | | [|] | n | s | items | props]; simpl; intros H;
    try discriminate; eauto.
Qed.

Lemma ToNumber_primitive (v : Value) :
  Spec.is_primitive v = true -> exists n, ToNumber v = Normal n.
Proof.
  destruct v as [ | | [|] | n | s | items | props]; simpl; intros H;
    try discriminate; eauto.
Qed.

Lemma JSON_stringify_defined (v : Value) :
  ToBoolean v = true -> exists text, JSON_stringify v = Some text.
Proof.
  destruct v as [ | | [|] | [ | | | q] | s | items | props]; simpl; intros H;
    try discriminate; eauto.
Qed.

Lemma first_truthy_1 (a c : Value) : or_value a c = Spec.first_truthy [a] c.
Proof. reflexivity. Qed.

Lemma first_truthy_2 (a b c : Value) :
  or_value (or_value a b) c = Spec.first_truthy [a; b] c.
Proof.
  unfold or_value. simpl.
  destruct (ToBoolean a) eqn:Ha; [now rewrite Ha | reflexivity].
Qed.

End RuntimeFacts.

(* ================================================================== *)
(** * The payload normalizer *)
(* ================================================================== *)

Section Normalizer.

Import Cloudflare.

Ltac step_bind :=
  rewrite ?member_defined by assumption;
  rewrite ?member_opt_Normal;
  unfold str;
  rewrite ?or_else_values;
  cbn [bind].

(** On every payload that is neither [undefined] nor [null] the normalizer
    returns, and what it returns is the table [Spec.resolved]. *)
Lemma parseDeploymentEvent_resolved (now : string) (payload : Value) :
  is_nullish payload = false ->
  parseDeploymentEvent now payload = Normal (Spec.resolved now payload).
Proof.
  intros Hp. unfold parseDeploymentEvent, Spec.resolved.
  step_bind.
  rewrite (first_truthy_1 (get payload "deployment") payload).
  assert (Hd : is_nullish (Spec.first_truthy [get payload "deployment"] payload) = false)
    by (rewrite <- first_truthy_1; now apply or_value_nullish).
  revert Hd. generalize (Spec.first_truthy [get payload "deployment"] payload) as d.
  intros d Hd.
  do 20 step_bind.
  rewrite ?first_truthy_2. reflexivity.
Qed.

(** The falsy values, one by one. *)
Lemma falsy_iff (v : Value) :
  ToBoolean v = false <->
  v = JUndefined \/ v = JNull \/ v = JBool false \/ v = JNum NaN \/ v = JStr ""
  \/ exists q, v = JNum (Fin q) /\ q == 0.
Proof.
  split.
  - destruct v as [ | | b | n | s | items | props]; simpl; intros H; try discriminate; auto.
    + destruct b; [discriminate | auto].
    + destruct n as [ | | | q]; try discriminate; auto.
      do 5 right. exists q. split; [reflexivity |].
      apply Qeq_bool_iff. now destruct (Qeq_bool q 0).
    + destruct s; [auto 6 | discriminate].
  - intros [-> | [-> | [-> | [-> | [-> | [q [-> Hq]]]]]]]; try reflexivity.
    simpl. apply Qeq_bool_iff in Hq. now rewrite Hq.
Qed.

(** C1 (as the code has it): every attribute is resolved by its ordered
    list of candidate keys with first-TRUTHY-wins, where a candidate is
    skipped exactly when it is falsy ([undefined], [null], [false], [0],
    [NaN] or the empty string) and the last operand of the chain is taken
    when every candidate is skipped.  A first-priority key that holds [0]
    or [false] is therefore skipped, not resolved. *)
Theorem parseDeploymentEvent_first_truthy_wins (now : string) (payload : Value) :
  is_nullish payload = false ->
  parseDeploymentEvent now payload = Normal (Spec.resolved now payload)
  /\ (forall v rest last,
        ToBoolean v = true -> Spec.first_truthy (v :: rest) last = v)
  /\ (forall v rest last,
        ToBoolean v = false -> Spec.first_truthy (v :: rest) last = Spec.first_truthy rest last)
  /\ (forall v,
        ToBoolean v = false <->
        v = JUndefined \/ v = JNull \/ v = JBool false \/ v = JNum NaN \/ v = JStr ""
        \/ exists q, v = JNum (Fin q) /\ q == 0)
  /\ (forall rest last,
        Spec.first_truthy (num 0 :: rest) last = Spec.first_truthy rest last
        /\ Spec.first_truthy (JBool false :: rest) last = Spec.first_truthy rest last).
Proof.
  intros Hp. split; [now apply parseDeploymentEvent_resolved |].
  split; [intros v rest last H; simpl; now rewrite H |].
  split; [intros v rest last H; simpl; now rewrite H |].
  split; [exact falsy_iff |].
  intros rest last. split; reflexivity.
Qed.

Lemma parseDeploymentEvent_first_truthy_wins_witness :
  parseDeploymentEvent "2024-01-01T00:00:00.000Z"
    (JObj [("deployment", JObj [("id", JStr "d1"); ("build_time", num 0); ("duration", num 5)])])
  = Normal (Spec.resolved "2024-01-01T00:00:00.000Z"
    (JObj [("deployment", JObj [("id", JStr "d1"); ("build_time", num 0); ("duration", num 5)])]))
  /\ buildTime (Spec.resolved "2024-01-01T00:00:00.000Z"
    (JObj [("deployment", JObj [("id", JStr "d1"); ("build_time", num 0); ("duration", num 5)])]))
     = num 5.
Proof.
  split; [| reflexivity].
  exact (proj1 (parseDeploymentEvent_first_truthy_wins "2024-01-01T00:00:00.000Z"
    (JObj [("deployment", JObj [("id", JStr "d1"); ("build_time", num 0); ("duration", num 5)])])
    eq_refl)).
Defined.

(** C1, as stated, fails: with [build_time] holding [0] and [branch]
    holding [false], first-present-wins would resolve them to [0] and
    [false]; the code resolves them to the later candidates. *)
Lemma parseDeploymentEvent_skips_zero_and_false :
  exists info,
    parseDeploymentEvent "2024-01-01T00:00:00.000Z"
      (JObj [("build_time", num 0); ("duration", num 5);
             ("branch", JBool false); ("git_branch", JStr "dev")]) = Normal info
    /\ Spec.first_present [num 0; num 5] JNull = num 0
    /\ buildTime info = num 5
    /\ buildTime info <> Spec.first_present [num 0; num 5] JNull
    /\ Spec.first_present [JBool false; JStr "dev"] (JStr "main") = JBool false
    /\ branch info = JStr "dev"
    /\ branch info <> Spec.first_present [JBool false; JStr "dev"] (JStr "main").
Proof.
  eexists. split; [reflexivity |].
  repeat split; try reflexivity; simpl; discriminate.
Qed.

(** The status value that the two classifications compare. *)
Lemma classification_of_status (a b : Value) (lit : string) :
  lit <> "" -> lit <> "unknown" ->
  strict_eq_str (Spec.first_truthy [a] b) lit = true
  <-> Spec.first_truthy [a; b] (JStr "unknown") = JStr lit.
Proof.
  intros Hne Hunk. simpl.
  destruct (ToBoolean a) eqn:Ha.
  - destruct a; simpl; try (split; [discriminate | intros H; discriminate H]).
    rewrite String.eqb_eq. split; [now intros -> | now intros [= ->]].
  - destruct (ToBoolean b) eqn:Hb.
    + destruct b; simpl; try (split; [discriminate | intros H; discriminate H]).
      rewrite String.eqb_eq. split; [now intros -> | now intros [= ->]].
    + split.
      * destruct b; simpl in *; try discriminate.
        rewrite String.eqb_eq. intros ->.
        destruct lit; [now elim Hne | discriminate Hb].
      * intros [= H]. now elim Hunk.
Qed.

(** C2: the status of the record is the status the payload resolves to
    (the status of the latest stage, else the status of the event, else
    ["unknown"]); [isSuccess] holds iff that status is exactly ["success"],
    [isFailure] iff it is exactly ["failure"], by a comparison of strings
    that is sensitive to case; other spellings, and a status that is not a
    string, give neither, and the two never hold together.  A nested event
    whose latest stage has the status ["success"] is a success and not a
    failure; a flat payload without a stage status is classified by its own
    [status]. *)
Theorem parseDeploymentEvent_classification (now : string) (payload : Value)
    (info : DeploymentInfo) :
  parseDeploymentEvent now payload = Normal info ->
  status info = Spec.resolved_status payload
  /\ (isSuccess info = true <-> Spec.resolved_status payload = JStr "success")
  /\ (isFailure info = true <-> Spec.resolved_status payload = JStr "failure")
  /\ (forall s, Spec.resolved_status payload = JStr s ->
      isSuccess info = (s =? "success") /\ isFailure info = (s =? "failure"))
  /\ ((forall s, Spec.resolved_status payload <> JStr s) ->
      isSuccess info = false /\ isFailure info = false)
  /\ (Spec.resolved_status payload = JStr "succeeded"
      \/ Spec.resolved_status payload = JStr "SUCCESS" ->
      isSuccess info = false /\ isFailure info = false)
  /\ ~ (isSuccess info = true /\ isFailure info = true)
  /\ (ToBoolean (get payload "deployment") = true ->
      get (get (get payload "deployment") "latest_stage") "status" = JStr "success" ->
      isSuccess info = true /\ isFailure info = false)
  /\ (ToBoolean (get payload "deployment") = false ->
      ToBoolean (get (get payload "latest_stage") "status") = false ->
      forall s, s <> "" -> get payload "status" = JStr s ->
      Spec.resolved_status payload = JStr s
      /\ isSuccess info = (s =? "success") /\ isFailure info = (s =? "failure")).
Proof.
  intros Hparse.
  assert (Hp : is_nullish payload = false).
  { destruct payload; try reflexivity; discriminate Hparse. }
  rewrite (parseDeploymentEvent_resolved now payload Hp) in Hparse.
  injection Hparse as <-.
  assert (Hstatus : status (Spec.resolved now payload) = Spec.resolved_status payload)
    by reflexivity.
  assert (Hs : isSuccess (Spec.resolved now payload) = true
               <-> Spec.resolved_status payload = JStr "success").
  { rewrite <- Hstatus. apply classification_of_status; discriminate. }
  assert (Hf : isFailure (Spec.resolved now payload) = true
               <-> Spec.resolved_status payload = JStr "failure").
  { rewrite <- Hstatus. apply classification_of_status; discriminate. }
  assert (Hstring : forall s, Spec.resolved_status payload = JStr s ->
            isSuccess (Spec.resolved now payload) = (s =? "success")
            /\ isFailure (Spec.resolved now payload) = (s =? "failure")).
  { intros s E. rewrite E in Hs, Hf. split.
    - destruct (String.eqb_spec s "success") as [-> | Hne].
      + now apply Hs.
      + apply not_true_is_false. intros Es.
        apply Hs in Es. injection Es as ->. now elim Hne.
    - destruct (String.eqb_spec s "failure") as [-> | Hne].
      + now apply Hf.
      + apply not_true_is_false. intros Ef.
        apply Hf in Ef. injection Ef as ->. now elim Hne. }
  split; [exact Hstatus |]. split; [exact Hs |]. split; [exact Hf |].
  split; [exact Hstring |].
  split.
  { intros Hother. split.
    - apply not_true_is_false. intros Es. apply Hs in Es. elim (Hother _ Es).
    - apply not_true_is_false. intros Ef. apply Hf in Ef. elim (Hother _ Ef). }
  split.
  { intros [H | H]; exact (Hstring _ H). }
  split.
  { intros [H1 H2]. apply Hs in H1. apply Hf in H2. congruence. }
  split.
  { intros Hd Hstage. unfold Spec.resolved. cbn [isSuccess isFailure Spec.first_truthy].
    rewrite Hd, Hstage. split; reflexivity. }
  intros Hd Hstage s Hne Hflat.
  assert (E : Spec.resolved_status payload = JStr s).
  { unfold Spec.resolved_status. cbn [Spec.first_truthy]. rewrite Hd, Hstage, Hflat.
    destruct s; [now elim Hne | reflexivity]. }
  split; [exact E | exact (Hstring s E)].
Qed.

Lemma parseDeploymentEvent_classification_witness :
  status (Spec.resolved Examples.t0 Examples.staged_success) = JStr "success"
  /\ Spec.resolved_status Examples.staged_success = JStr "success"
  /\ isSuccess (Spec.resolved Examples.t0 Examples.staged_success) = true
  /\ isFailure (Spec.resolved Examples.t0 Examples.staged_success) = false.
Proof.
  pose (claim := parseDeploymentEvent_classification Examples.t0 Examples.staged_success
                   (Spec.resolved Examples.t0 Examples.staged_success) eq_refl).
  split; [exact (proj1 claim) |]. split; [reflexivity |].
  exact (proj1 (proj2 (proj2 (proj2 (proj2 (proj2 (proj2 (proj2 claim)))))))
           eq_refl eq_refl).
Defined.

End Normalizer.

(* ================================================================== *)
(** * The validator *)
(* ================================================================== *)

Section Validator.

Import Cloudflare.

(** The validator never throws; on an object it is the disjunction of the
    truthiness of its six fields. *)
Lemma isValidPayload_eq (payload : Value) :
  isValidPayload payload =
  Normal (Spec.is_object payload
          && (ToBoolean (get payload "deployment")
              || ToBoolean (get payload "deployment_id")
              || ToBoolean (get payload "id")
              || ToBoolean (get payload "status")
              || ToBoolean (get (get payload "deployment") "status")
              || ToBoolean (get (get payload "latest_stage") "status"))).
Proof.
  unfold isValidPayload, Spec.is_object.
  destruct (ToBoolean payload) eqn:Ht; cbn [negb orb andb].
  2:{ destruct payload as [ | | b | n | s | items | props]; simpl in *;
        try reflexivity; discriminate. }
  assert (Hp : is_nullish payload = false) by now apply truthy_not_nullish.
  rewrite Hp.
  destruct (typeof payload =? "object") eqn:Hobj; cbn [negb orb andb]; [| reflexivity].
  rewrite !member_defined by assumption.
  rewrite !member_opt_Normal. rewrite !or_else_values. cbn [bind].
  rewrite or_else_values. cbn [bind].
  rewrite negb_involutive, !ToBoolean_or_value, !orb_assoc. reflexivity.
Qed.

(** C3 (as the code has it): [null] and every input that is not an object
    is rejected; an object is accepted iff one of [deployment],
    [deployment_id], [id], [status], [deployment.status] and
    [latest_stage.status] holds a TRUTHY value (the value of [deployment]
    need not be an object).  An object that carries only a non-empty
    [status] string is accepted; an object that lacks all six is rejected. *)
Theorem isValidPayload_accepts_truthy_fields (payload : Value) :
  (Spec.is_object payload = false -> isValidPayload payload = Normal false)
  /\ (Spec.is_object payload = true ->
      isValidPayload payload =
      Normal (ToBoolean (get payload "deployment")
              || ToBoolean (get payload "deployment_id")
              || ToBoolean (get payload "id")
              || ToBoolean (get payload "status")
              || ToBoolean (get (get payload "deployment") "status")
              || ToBoolean (get (get payload "latest_stage") "status")))
  /\ (forall s, s <> "" -> isValidPayload (JObj [("status", JStr s)]) = Normal true)
  /\ (Spec.is_object payload = true ->
      get payload "deployment" = JUndefined ->
      get payload "deployment_id" = JUndefined ->
      get payload "id" = JUndefined ->
      get payload "status" = JUndefined ->
      get payload "latest_stage" = JUndefined ->
      isValidPayload payload = Normal false).
Proof.
  split; [intros H; rewrite isValidPayload_eq, H; reflexivity |].
  split; [intros H; rewrite isValidPayload_eq, H; reflexivity |].
  split.
  - intros s Hs. rewrite isValidPayload_eq. simpl.
    destruct s; [now elim Hs | reflexivity].
  - intros H H1 H2 H3 H4 H5.
    rewrite isValidPayload_eq, H, H1, H2, H3, H4, H5. reflexivity.
Qed.

Lemma isValidPayload_accepts_truthy_fields_witness :
  isValidPayload (JObj [("deployment", num 5)]) = Normal true
  /\ isValidPayload (JObj [("status", JStr "building")]) = Normal true
  /\ isValidPayload (JObj [("project_name", JStr "tlc-survey")]) = Normal false
  /\ isValidPayload (JStr "status") = Normal false.
Proof.
  split.
  - exact (proj1 (proj2 (isValidPayload_accepts_truthy_fields (JObj [("deployment", num 5)])))
             eq_refl).
  - split.
    + apply (proj1 (proj2 (proj2 (isValidPayload_accepts_truthy_fields JNull)))).
      discriminate.
    + split.
      * exact (proj2 (proj2 (proj2
                 (isValidPayload_accepts_truthy_fields (JObj [("project_name", JStr "tlc-survey")]))))
                 eq_refl eq_refl eq_refl eq_refl eq_refl eq_refl).
      * exact (proj1 (isValidPayload_accepts_truthy_fields (JStr "status")) eq_refl).
Defined.

(** C3, as stated, fails: the top-level [id] of this object is present
    (it holds [0]), and so is the [status] of the second (it holds
    [false]); the validator rejects both. *)
Lemma isValidPayload_rejects_present_falsy_fields :
  Spec.present (get (JObj [("id", num 0)]) "id") = true
  /\ Spec.isValid (JObj [("id", num 0)]) = true
  /\ isValidPayload (JObj [("id", num 0)]) = Normal false
  /\ Spec.present (get (JObj [("status", JBool false)]) "status") = true
  /\ Spec.isValid (JObj [("status", JBool false)]) = true
  /\ isValidPayload (JObj [("status", JBool false)]) = Normal false.
Proof. repeat split. Qed.

(** C9: every input the validator accepts is normalized without an error,
    into a record that holds every canonical field; this includes an
    object whose [deployment] is not an object, and an object that has
    none of the git, URL, timing and error keys, whose attributes then
    take their defaults. *)
Theorem parseDeploymentEvent_total_on_valid (now : string) (payload : Value) :
  isValidPayload payload = Normal true ->
  (exists info, parseDeploymentEvent now payload = Normal info /\ raw info = payload)
  /\ (forall v, ToBoolean v = true -> typeof v <> "object" ->
      isValidPayload (JObj [("deployment", v)]) = Normal true
      /\ parseDeploymentEvent now (JObj [("deployment", v)]) =
         Normal {| id := JUndefined;
                   projectName := JStr "tlc-survey";
                   environment := JStr "production";
                   status := JStr "unknown";
                   isSuccess := false;
                   isFailure := false;
                   branch := JStr "main";
                   commitHash := JStr "";
                   commitMessage := JStr "";
                   commitAuthor := JStr "";
                   deploymentUrl := JStr "";
                   buildLogsUrl := JStr "";
                   commitUrl := JStr "";
                   buildTime := JNull;
                   createdAt := JStr now;
                   error := JNull;
                   errorMessage := JNull;
                   stages := JArr [];
                   latestStage := JNull;
                   raw := JObj [("deployment", v)] |}).
Proof.
  intros Hvalid. split.
  - assert (Hp : is_nullish payload = false).
    { rewrite isValidPayload_eq in Hvalid. injection Hvalid as Hv.
      apply andb_true_iff in Hv. destruct Hv as [Hobj _].
      unfold Spec.is_object in Hobj. apply andb_true_iff in Hobj.
      destruct Hobj as [Hn _]. now destruct (is_nullish payload). }
    exists (Spec.resolved now payload). split; [| reflexivity].
    now apply parseDeploymentEvent_resolved.
  - intros v Hv Hprim. split.
    + rewrite isValidPayload_eq. simpl. now rewrite Hv.
    + rewrite parseDeploymentEvent_resolved by reflexivity.
      unfold Spec.resolved. simpl. rewrite Hv.
      destruct v as [ | | b | n | s | items | props]; simpl in *;
        try discriminate; try reflexivity; now elim Hprim.
Qed.

Lemma parseDeploymentEvent_total_on_valid_witness :
  exists info,
    parseDeploymentEvent Examples.t0 Examples.readme_event = Normal info
    /\ raw info = Examples.readme_event.
Proof.
  exact (proj1 (parseDeploymentEvent_total_on_valid Examples.t0 Examples.readme_event eq_refl)).
Defined.

End Validator.

(* ================================================================== *)
(** * Binary64 arithmetic *)
(* ================================================================== *)

Section Binary64.

Lemma pow2_pos (z : Z) : 0 < pow2 z.
Proof. apply Qpower_0_lt. reflexivity. Qed.

Lemma pow2_add (a b : Z) : pow2 (a + b) == pow2 a * pow2 b.
Proof. apply Qpower_plus. discriminate. Qed.

Lemma pow2_le (a b : Z) : (a <= b)%Z -> pow2 a <= pow2 b.
Proof. intros H. apply Qpower_le_compat_l; [exact H | discriminate]. Qed.

Lemma pow2_lt_inv (a b : Z) : pow2 a < pow2 b -> (a < b)%Z.
Proof. intros H. apply (Qpower_lt_compat_l_inv 2); [exact H | reflexivity]. Qed.

Lemma pow2_Z (z : Z) : (0 <= z)%Z -> pow2 z == inject_Z (2 ^ z).
Proof. intros H. unfold pow2. now rewrite Zpower_Qpower. Qed.

Lemma pow2_opp (z : Z) : pow2 z * pow2 (- z) == 1.
Proof. rewrite <- pow2_add. now rewrite Z.add_opp_diag_r. Qed.

(** [binade q] is the exponent of the power of two at or below [q]. *)
Lemma binade_spec (q : Q) : 0 < q -> pow2 (binade q) <= q /\ q < pow2 (binade q + 1).
Proof.
  intros Hq. destruct q as [a b]. unfold binade. cbn [Qnum Qden].
  assert (Ha : (0 < a)%Z) by (unfold Qlt in Hq; simpl in Hq; lia).
  rewrite (Z.abs_eq a) by lia. rewrite (Qabs_pos (a # b)) by (apply Qlt_le_weak; exact Hq).
  set (la := Z.log2 a). set (lb := Z.log2 (Z.pos b)).
  destruct (Z.log2_spec a Ha) as [Ha1 Ha2]. fold la in Ha1, Ha2.
  destruct (Z.log2_spec (Z.pos b) eq_refl) as [Hb1 Hb2]. fold lb in Hb1, Hb2.
  assert (Hla : (0 <= la)%Z) by apply Z.log2_nonneg.
  assert (Hlb : (0 <= lb)%Z) by apply Z.log2_nonneg.
  assert (QA1 : pow2 la <= inject_Z a).
  { rewrite pow2_Z by lia. now rewrite <- Zle_Qle. }
  assert (QA2 : inject_Z a < pow2 (la + 1)).
  { rewrite pow2_Z by lia. rewrite <- Zlt_Qlt. now rewrite <- Z.add_1_r in Ha2. }
  assert (QB1 : pow2 lb <= inject_Z (Z.pos b)).
  { rewrite pow2_Z by lia. now rewrite <- Zle_Qle. }
  assert (QB2 : inject_Z (Z.pos b) < pow2 (lb + 1)).
  { rewrite pow2_Z by lia. rewrite <- Zlt_Qlt. now rewrite <- Z.add_1_r in Hb2. }
  assert (HB : 0 < inject_Z (Z.pos b)) by reflexivity.
  assert (Hq' : a # b == inject_Z a / inject_Z (Z.pos b)) by apply Qmake_Qdiv.
  assert (Hmul : (a # b) * inject_Z (Z.pos b) == inject_Z a).
  { rewrite Hq'. field. intros H. rewrite H in HB. discriminate HB. }
  assert (Hup : a # b < pow2 (la - lb + 1)).
  { assert (E : pow2 (la + 1) == pow2 (la - lb + 1) * pow2 lb).
    { rewrite <- pow2_add. now replace (la - lb + 1 + lb)%Z with (la + 1)%Z by lia. }
    pose proof (pow2_pos (la - lb + 1)) as P.
    apply Qnot_le_lt. intros Hc.
    assert (pow2 (la - lb + 1) * pow2 lb <= (a # b) * inject_Z (Z.pos b)).
    { apply Qle_trans with (pow2 (la - lb + 1) * inject_Z (Z.pos b)).
      - apply Qmult_le_l; assumption.
      - apply Qmult_le_r; assumption. }
    rewrite Hmul, <- E in H. apply Qle_not_lt in H. contradiction. }
  assert (Hlow : pow2 (la - lb - 1) <= a # b).
  { assert (E : pow2 la == pow2 (la - lb - 1) * pow2 (lb + 1)).
    { rewrite <- pow2_add. now replace (la - lb - 1 + (lb + 1))%Z with la by lia. }
    pose proof (pow2_pos (la - lb - 1)) as P.
    apply Qnot_lt_le. intros Hc.
    assert ((a # b) * inject_Z (Z.pos b) < pow2 (la - lb - 1) * pow2 (lb + 1)).
    { apply Qlt_trans with (pow2 (la - lb - 1) * inject_Z (Z.pos b)).
      - apply Qmult_lt_r; assumption.
      - apply Qmult_lt_l; assumption. }
    rewrite Hmul, <- E in H. apply Qlt_not_le in H. contradiction. }
  destruct (Qle_bool (pow2 (la - lb)) (a # b)) eqn:T.
  - split; [now apply Qle_bool_iff | exact Hup].
  - split; [exact Hlow |].
    replace (la - lb - 1 + 1)%Z with (la - lb)%Z by lia.
    apply Qnot_le_lt. intros Hc. apply Qle_bool_iff in Hc. congruence.
Qed.

Lemma rne_floor (y : Q) : (Qfloor y <= rne y <= Qfloor y + 1)%Z.
Proof.
  unfold rne. destruct (Qcompare _ _); [destruct (Z.even _) | |]; lia.
Qed.

Lemma rne_lower (y : Q) (N : Z) : inject_Z N <= y -> (N <= rne y)%Z.
Proof.
  intros H. pose proof (rne_floor y) as [Hf _].
  apply Qfloor_resp_le in H. rewrite Qfloor_Z in H. lia.
Qed.

Lemma rne_upper (y : Q) (N : Z) : y < inject_Z N - (1 # 2) -> (rne y <= N - 1)%Z.
Proof.
  intros H. unfold rne.
  pose proof (Qfloor_le y) as Hfl.
  assert (Hf : (Qfloor y <= N - 1)%Z).
  { assert (inject_Z (Qfloor y) < inject_Z N) by lra.
    rewrite <- Zlt_Qlt in H0. lia. }
  destruct (Z.eq_dec (Qfloor y) (N - 1)) as [E | E].
  - assert (Hc : Qcompare (y - inject_Z (Qfloor y)) (1 # 2) = Lt).
    { rewrite <- Qlt_alt. rewrite E.
      assert (EN : inject_Z (N - 1) == inject_Z N - 1)
        by (unfold Z.sub; rewrite inject_Z_plus; reflexivity).
      rewrite EN. lra. }
    rewrite Hc. lia.
  - destruct (Qcompare _ _); [destruct (Z.even _) | |]; lia.
Qed.

(** A positive binary64 number is a multiple of the last bit of its
    significand. *)
Lemma is_binary64_form (q : Q) :
  is_binary64 q = true -> 0 < q -> exists m : Z, q == inject_Z m * pow2 (quantum q).
Proof.
  unfold is_binary64, round64. intros H Hq.
  destruct (Qeq_bool q 0) eqn:Z0. { apply Qeq_bool_iff in Z0. lra. }
  destruct (Qle_bool (pow2 1024) _); [destruct (Qle_bool 0 q); discriminate |].
  apply Qeq_bool_iff in H. rewrite Qred_correct in H. eexists. symmetry. exact H.
Qed.

Lemma div_pow2 (x : Q) (c : Z) : x / pow2 c == x * pow2 (- c).
Proof.
  pose proof (pow2_pos c) as P. pose proof (pow2_opp c) as O.
  assert (E : pow2 (- c) == / pow2 c).
  { apply (Qmult_inj_l _ _ (pow2 c)); [lra |]. rewrite O. field. lra. }
  rewrite E. reflexivity.
Qed.

Lemma inject_Z_scaled (k z : Z) : (0 <= z)%Z -> inject_Z (k * 2 ^ z) == inject_Z k * pow2 z.
Proof. intros H. rewrite inject_Z_mult. now rewrite pow2_Z. Qed.

(** The rounding of [/ 60] does not cross an integer: for a binary64
    number [q] from 60 up to [2 ^ 53], the quotient that [q / 60] rounds to
    has the integer part of the exact quotient.  ([q] lies at least one
    last bit below the next multiple of 60, which is more than 30 last bits
    of the quotient.) *)
Lemma divide_by_60 (q : Q) :
  is_binary64 q = true -> 60 <= q -> q < pow2 53 ->
  exists r, round64 (q / 60) = Fin r /\ Qfloor r = Qfloor (q / 60).
Proof.
  intros Hdouble Hlo Hhi.
  assert (P5 : pow2 5 == 32) by reflexivity.
  assert (P0 : pow2 0 == 1) by reflexivity.
  destruct (binade_spec q ltac:(lra)) as [HE1 HE2].
  set (E := binade q) in *.
  assert (HE : (5 <= E <= 52)%Z).
  { split.
    - assert (H : pow2 5 < pow2 (E + 1)) by lra. apply pow2_lt_inv in H. lia.
    - assert (H : pow2 E < pow2 53) by lra. apply pow2_lt_inv in H. lia. }
  destruct (is_binary64_form q Hdouble ltac:(lra)) as [mq Hmq].
  assert (Hcq : quantum q = (E - 52)%Z) by (unfold quantum; fold E; lia).
  rewrite Hcq in Hmq.
  set (x := q / 60) in *.
  assert (Hx : q == x * 60) by (unfold x; field).
  assert (Hx1 : 1 <= x) by lra.
  destruct (binade_spec x ltac:(lra)) as [He1 He2].
  set (e := binade x) in *.
  assert (He : (0 <= e <= E - 5)%Z).
  { split.
    - assert (H : pow2 0 < pow2 (e + 1)) by lra. apply pow2_lt_inv in H. lia.
    - assert (H : pow2 e < pow2 (E - 4)).
      { assert (S : pow2 (E + 1) == pow2 (E - 4) * pow2 5).
        { rewrite <- pow2_add. now replace (E - 4 + 5)%Z with (E + 1)%Z by lia. }
        rewrite P5 in S. pose proof (pow2_pos (E - 4)). lra. }
      apply pow2_lt_inv in H. lia. }
  assert (Hc : quantum x = (e - 52)%Z) by (unfold quantum; fold e; lia).
  set (c := (e - 52)%Z) in *.
  pose proof (pow2_pos c) as Pc. pose proof (pow2_pos (- c)) as Pnc.
  pose proof (pow2_opp c) as Oc.
  set (k := (Qfloor x + 1)%Z).
  assert (Hk1 : inject_Z (k - 1) <= x).
  { unfold k. replace (Qfloor x + 1 - 1)%Z with (Qfloor x) by lia. apply Qfloor_le. }
  assert (Hk2 : x < inject_Z k) by (unfold k; apply Qlt_floor).
  assert (Hk0 : (1 <= k - 1)%Z).
  { unfold k. assert (H := Qfloor_resp_le 1 x Hx1). change (Qfloor 1) with 1%Z in H. lia. }
  set (y := x / pow2 c).
  assert (Hy : y == x * pow2 (- c)) by apply div_pow2.
  assert (Hlow : ((k - 1) * 2 ^ (- c) <= rne y)%Z).
  { apply rne_lower. rewrite inject_Z_scaled by lia. rewrite Hy.
    apply Qmult_le_r; assumption. }
  pose proof (pow2_pos (E - 52)) as Pq. pose proof (pow2_pos (- (E - 52))) as Pnq.
  pose proof (pow2_opp (E - 52)) as Oq.
  assert (Hstep : q <= 60 * inject_Z k - pow2 (E - 52)).
  { assert (Hm : (mq <= 60 * k * 2 ^ (- (E - 52)) - 1)%Z).
    { assert (H : inject_Z mq < inject_Z (60 * k * 2 ^ (- (E - 52)))).
      { rewrite inject_Z_scaled by lia. rewrite inject_Z_mult.
        assert (M : inject_Z mq == q * pow2 (- (E - 52))).
        { rewrite Hmq. rewrite <- Qmult_assoc, Oq. ring. }
        rewrite M. apply Qmult_lt_r; [assumption |].
        change (inject_Z 60) with 60. lra. }
      rewrite <- Zlt_Qlt in H. lia. }
    rewrite Zle_Qle in Hm. unfold Z.sub in Hm at 1.
    rewrite inject_Z_plus, inject_Z_scaled, inject_Z_mult in Hm by lia.
    change (inject_Z 60) with 60 in Hm. change (inject_Z (- (1))) with (- (1)) in Hm.
    rewrite Hmq.
    apply Qle_trans with ((60 * inject_Z k * pow2 (- (E - 52)) + - (1)) * pow2 (E - 52)).
    - apply Qmult_le_r; assumption.
    - assert (R : (60 * inject_Z k * pow2 (- (E - 52)) + - (1)) * pow2 (E - 52)
                  == 60 * inject_Z k * (pow2 (E - 52) * pow2 (- (E - 52))) - pow2 (E - 52))
        by ring.
      rewrite R, Oq. lra. }
  assert (Hgap : 32 * pow2 c <= pow2 (E - 52)).
  { assert (S : pow2 (E - 52) == pow2 (E - e) * pow2 c).
    { rewrite <- pow2_add. unfold c. now replace (E - e + (e - 52))%Z with (E - 52)%Z by lia. }
    rewrite S. apply Qmult_le_r; [assumption |]. rewrite <- P5. apply pow2_le. lia. }
  assert (Hup : (rne y <= k * 2 ^ (- c) - 1)%Z).
  { apply rne_upper. rewrite inject_Z_scaled by lia. rewrite Hy.
    assert (H : x <= inject_Z k - (32 # 60) * pow2 c) by lra.
    assert (H' : x * pow2 (- c) <= (inject_Z k - (32 # 60) * pow2 c) * pow2 (- c))
      by (apply Qmult_le_r; assumption).
    assert (R : (inject_Z k - (32 # 60) * pow2 c) * pow2 (- c)
                == inject_Z k * pow2 (- c) - (32 # 60) * (pow2 c * pow2 (- c))) by ring.
    rewrite R, Oc in H'. lra. }
  set (v := inject_Z (rne y) * pow2 c).
  assert (Hv1 : inject_Z (k - 1) <= v).
  { unfold v. rewrite Zle_Qle in Hlow. rewrite inject_Z_scaled in Hlow by lia.
    assert (H : inject_Z (k - 1) * pow2 (- c) * pow2 c <= inject_Z (rne y) * pow2 c)
      by (apply Qmult_le_r; assumption).
    rewrite <- Qmult_assoc in H. rewrite (Qmult_comm (pow2 (- c))), Oc in H. lra. }
  assert (Hv2 : v < inject_Z k).
  { unfold v. rewrite Zle_Qle in Hup. unfold Z.sub in Hup.
    rewrite inject_Z_plus, inject_Z_scaled in Hup by lia.
    change (inject_Z (- (1))) with (- (1)) in Hup.
    assert (H : inject_Z (rne y) * pow2 c <= (inject_Z k * pow2 (- c) + - (1)) * pow2 c)
      by (apply Qmult_le_r; assumption).
    assert (R : (inject_Z k * pow2 (- c) + - (1)) * pow2 c
                == inject_Z k * (pow2 c * pow2 (- c)) - pow2 c) by ring.
    rewrite R, Oc in H. lra. }
  exists (Qred v). split.
  - unfold round64.
    assert (Z0 : Qeq_bool x 0 = false).
    { destruct (Qeq_bool x 0) eqn:T; [| reflexivity]. apply Qeq_bool_iff in T. lra. }
    rewrite Z0. cbv zeta. rewrite Hc. fold y. fold v.
    assert (O : Qle_bool (pow2 1024) (Qabs (Qred v)) = false).
    { destruct (Qle_bool _ _) eqn:T; [| reflexivity]. apply Qle_bool_iff in T.
      rewrite Qred_correct in T.
      assert (V0 : 0 <= v).
      { apply Qle_trans with (inject_Z (k - 1)); [| exact Hv1].
        change 0 with (inject_Z 0). rewrite <- Zle_Qle. lia. }
      rewrite Qabs_pos in T by exact V0.
      assert (B : pow2 53 <= pow2 1024) by (apply pow2_le; lia).
      assert (K : inject_Z k <= x + 1).
      { unfold k. rewrite inject_Z_plus. pose proof (Qfloor_le x).
        change (inject_Z 1) with 1. lra. }
      lra. }
    now rewrite O.
  - assert (F1 : (k - 1 <= Qfloor (Qred v))%Z).
    { assert (H : inject_Z (k - 1) <= Qred v) by (rewrite Qred_correct; exact Hv1).
      apply Qfloor_resp_le in H. now rewrite Qfloor_Z in H. }
    assert (F2 : (Qfloor (Qred v) < k)%Z).
    { rewrite Zlt_Qlt. apply Qle_lt_trans with (Qred v); [apply Qfloor_le |].
      rewrite Qred_correct. exact Hv2. }
    unfold k in *. lia.
Qed.

End Binary64.

(* ================================================================== *)
(** * The duration formatter *)
(* ================================================================== *)

Section Duration.

Import Cloudflare.

Lemma nearest_is_nearest (q : Q) :
  q - (1 # 2) < inject_Z (Spec.nearest q) /\ inject_Z (Spec.nearest q) <= q + (1 # 2).
Proof.
  unfold Spec.nearest. split.
  - pose proof (Qlt_floor (q + (1 # 2))) as H.
    rewrite inject_Z_plus in H. change (inject_Z 1) with 1 in H. lra.
  - apply Qfloor_le.
Qed.

Lemma append_empty_r (s : string) : s ++ "" = s.
Proof. induction s as [| c s IH]; simpl; [reflexivity | now rewrite IH]. Qed.

(** An integer below [2 ^ 53] prints as its decimal numeral. *)
Lemma Q_toString_integer (n : Z) :
  (Z.abs n < 2 ^ 53)%Z -> Q_toString (inject_Z n) = decimal n.
Proof.
  intros Hn. unfold Q_toString. rewrite Qfloor_Z.
  assert (E : Qeq_bool (inject_Z n) (inject_Z n) = true) by (apply Qeq_bool_iff; reflexivity).
  rewrite E. apply Z.ltb_lt in Hn. now rewrite Hn.
Qed.

Lemma Qeq_bool_inject_Z (n : Z) : Qeq_bool (inject_Z n) 0 = (n =? 0)%Z.
Proof. unfold Qeq_bool, inject_Z. simpl. now rewrite Z.mul_1_r. Qed.

Lemma positive_is_truthy (q : Q) : 0 < q -> ToBoolean (JNum (Fin q)) = true.
Proof.
  intros Hq. simpl. destruct (Qeq_bool q 0) eqn:E; [| reflexivity].
  apply Qeq_bool_iff in E. lra.
Qed.

Lemma below_60 (q : Q) : q < 60 -> Number_lt (Fin q) (Fin 60) = true.
Proof.
  intros Hq. simpl. destruct (Qle_bool 60 q) eqn:E; [| reflexivity].
  apply Qle_bool_iff in E. lra.
Qed.

Lemma not_below_60 (q : Q) : 60 <= q -> Number_lt (Fin q) (Fin 60) = false.
Proof.
  intros Hq. simpl. apply Qle_bool_iff in Hq. now rewrite Hq.
Qed.

Lemma rem_60 (q : Q) : 0 <= q -> Number_rem (Fin q) 60 = Fin (Spec.seconds_mod_60 q).
Proof.
  intros Hq. unfold Number_rem, Spec.seconds_mod_60, Qtrunc.
  assert (H : Qle_bool 0 (q / 60) = true).
  { apply Qle_bool_iff. assert (q == 60 * (q / 60)) by field. lra. }
  now rewrite H.
Qed.

(** The seconds that are left after the whole minutes round to 0 .. 60. *)
Lemma seconds_range (q : Q) :
  (0 <= Spec.nearest (Spec.seconds_mod_60 q) <= 60)%Z.
Proof.
  unfold Spec.nearest, Spec.seconds_mod_60.
  pose proof (Qfloor_le (q / 60)) as Hlo.
  pose proof (Qlt_floor (q / 60)) as Hhi.
  rewrite inject_Z_plus in Hhi. change (inject_Z 1) with 1 in Hhi.
  assert (H : q == 60 * (q / 60)) by field.
  split.
  - assert (H0 : 0 <= q - 60 * inject_Z (Qfloor (q / 60)) + (1 # 2)) by lra.
    exact (Qfloor_resp_le 0 _ H0).
  - assert (H1 : q - 60 * inject_Z (Qfloor (q / 60)) + (1 # 2) <= 121 # 2) by lra.
    exact (Qfloor_resp_le _ (121 # 2) H1).
Qed.

(** The formatter on a binary64 number from 60 up to [2 ^ 53]. *)
Lemma formatBuildTime_minutes (q : Q) :
  is_binary64 q = true -> 60 <= q -> q < inject_Z (2 ^ 53) ->
  formatBuildTime (JNum (Fin q)) =
  Normal (let m := Qfloor (q / 60) in
          let s := Spec.nearest (Spec.seconds_mod_60 q) in
          if (s =? 0)%Z then Spec.integer_text m ++ "m"
          else Spec.integer_text m ++ "m " ++ Spec.integer_text s ++ "s").
Proof.
  intros Hdouble Hq Hmax.
  assert (Hmax' : q < pow2 53) by (rewrite pow2_Z by lia; exact Hmax).
  destruct (divide_by_60 q Hdouble Hq Hmax') as (r & Hr & Hfloor).
  assert (Hm : (Z.abs (Qfloor (q / 60)) < 2 ^ 53)%Z).
  { assert (H0 : 0 <= q / 60) by (assert (q == 60 * (q / 60)) by field; lra).
    assert (H1 : q / 60 <= inject_Z (2 ^ 53))
      by (assert (q == 60 * (q / 60)) by field; lra).
    apply Qfloor_resp_le in H0. apply Qfloor_resp_le in H1.
    rewrite Qfloor_Z in H1. change (Qfloor 0) with 0%Z in H0.
    assert (H2 : Qfloor (q / 60) <> (2 ^ 53)%Z).
    { intros E. pose proof (Qfloor_le (q / 60)) as L. rewrite E in L.
      assert (q == 60 * (q / 60)) by field. lra. }
    lia. }
  pose proof (seconds_range q) as Hs.
  unfold formatBuildTime.
  rewrite positive_is_truthy by lra. cbn [negb ToNumber bind].
  rewrite (not_below_60 q Hq). rewrite rem_60 by lra.
  cbn [Number_div]. rewrite Hr.
  cbn [Math_floor Math_round Number_eqb Number_toString].
  fold (Spec.nearest (Spec.seconds_mod_60 q)).
  rewrite Hfloor, Qeq_bool_inject_Z. cbv zeta. unfold Spec.integer_text.
  rewrite !Q_toString_integer by lia.
  now destruct (Spec.nearest (Spec.seconds_mod_60 q) =? 0)%Z.
Qed.

(** C7: the duration formatter maps [null], [0] and every falsy input to
    ["N/A"]; a positive Number below 60 to ["{n}s"], [n] the nearest
    integer; a Number from 60 up to [2 ^ 53] to ["{m}m"] when the rounded
    remainder is zero and to ["{m}m {s}s"] otherwise, with
    [m = floor (seconds / 60)] and [s = round (seconds mod 60)].  So 5.7
    gives ["6s"], 65 gives ["1m 5s"] and 120 gives ["2m"].  The formatter of
    [discord.js] is the same function. *)
Theorem formatBuildTime_spec :
  (forall v, Discord.formatBuildTime v = formatBuildTime v)
  /\ (forall v, ToBoolean v = false -> formatBuildTime v = Normal "N/A")
  /\ formatBuildTime JNull = Normal "N/A"
  /\ formatBuildTime (num 0) = Normal "N/A"
  /\ (forall q, is_binary64 q = true -> 0 < q -> q < 60 ->
      formatBuildTime (JNum (Fin q)) = Normal (Spec.integer_text (Spec.nearest q) ++ "s"))
  /\ (forall q, is_binary64 q = true -> 60 <= q -> q < inject_Z (2 ^ 53) ->
      formatBuildTime (JNum (Fin q)) =
      Normal (let m := Qfloor (q / 60) in
              let s := Spec.nearest (Spec.seconds_mod_60 q) in
              if (s =? 0)%Z then Spec.integer_text m ++ "m"
              else Spec.integer_text m ++ "m " ++ Spec.integer_text s ++ "s"))
  /\ (forall q, q - (1 # 2) < inject_Z (Spec.nearest q)
                /\ inject_Z (Spec.nearest q) <= q + (1 # 2))
  /\ formatBuildTime (JNum (round64 5.7)) = Normal "6s"
  /\ formatBuildTime (JNum (Fin 65)) = Normal "1m 5s"
  /\ formatBuildTime (JNum (Fin 120)) = Normal "2m".
Proof.
  split; [reflexivity |].
  split; [intros v Hv; unfold formatBuildTime; now rewrite Hv |].
  split; [reflexivity |]. split; [reflexivity |].
  split.
  { intros q _ Hpos Hlt. unfold formatBuildTime.
    rewrite (positive_is_truthy q Hpos). cbn [negb ToNumber bind].
    rewrite (below_60 q Hlt).
    cbn [Math_round Number_toString]. fold (Spec.nearest q).
    unfold Spec.integer_text. rewrite Q_toString_integer; [reflexivity |].
    pose proof (nearest_is_nearest q) as [Hlo Hhi].
    assert (H0 : (0 <= Spec.nearest q)%Z).
    { assert (H : 0 <= q + (1 # 2)) by lra. exact (Qfloor_resp_le 0 _ H). }
    assert (H1 : (Spec.nearest q <= 60)%Z).
    { assert (H : q + (1 # 2) <= 121 # 2) by lra. exact (Qfloor_resp_le _ (121 # 2) H). }
    lia. }
  split; [exact formatBuildTime_minutes |].
  split; [exact nearest_is_nearest |].
  split; [vm_compute; reflexivity |].
  split; vm_compute; reflexivity.
Qed.

Lemma formatBuildTime_spec_witness :
  formatBuildTime (JBool false) = Normal "N/A"
  /\ formatBuildTime (JNum (Fin 42.5)) = Normal "43s"
  /\ formatBuildTime (JNum (Fin 125.5)) = Normal "2m 6s".
Proof.
  destruct formatBuildTime_spec as [_ [Hfalsy [_ [_ [Hshort [Hlong _]]]]]].
  split; [exact (Hfalsy (JBool false) eq_refl) |].
  split.
  - apply (Hshort 42.5); reflexivity.
  - apply (Hlong 125.5); [reflexivity | discriminate | reflexivity].
Defined.

(** C7, as stated for every Number of 60 or more, fails: the quotient
    [seconds / 60] is rounded to a binary64 number before [Math.floor] sees
    it, and its floor is printed as a Number is.  At [1e21] the floor of the
    quotient is 16666666666666666666 and the remainder is 40, and the
    formatter prints 16666666666666666000 minutes. *)
Lemma formatBuildTime_rounds_large_quotients :
  is_binary64 (inject_Z (10 ^ 21)) = true
  /\ Qfloor (inject_Z (10 ^ 21) / 60) = 16666666666666666666%Z
  /\ Spec.nearest (Spec.seconds_mod_60 (inject_Z (10 ^ 21))) = 40%Z
  /\ formatBuildTime (JNum (Fin (inject_Z (10 ^ 21)))) = Normal "16666666666666666000m 40s"
  /\ formatBuildTime (JNum (Fin (inject_Z (10 ^ 21))))
     <> Normal (Spec.integer_text (Qfloor (inject_Z (10 ^ 21) / 60)) ++ "m "
                ++ Spec.integer_text (Spec.nearest (Spec.seconds_mod_60 (inject_Z (10 ^ 21))))
                ++ "s").
Proof.
  split; [vm_compute; reflexivity |].
  split; [vm_compute; reflexivity |].
  split; [vm_compute; reflexivity |].
  split; [vm_compute; reflexivity |].
  vm_compute. discriminate.
Qed.
End Duration.

(* ================================================================== *)
(** * The notification renderer *)
(* ================================================================== *)

Section Renderer.

Import Cloudflare Discord.

Lemma length_append (s t : string) :
  String.length (s ++ t) = (String.length s + String.length t)%nat.
Proof. induction s as [| c s IH]; simpl; [reflexivity | now rewrite IH]. Qed.

Lemma length_substring_0 (n : nat) (s : string) :
  String.length (substring 0 n s) = Nat.min n (String.length s).
Proof.
  revert s. induction n as [| n IH]; intros [| c s]; simpl; try reflexivity.
  now rewrite IH.
Qed.

Lemma Qle_bool_inject_Z (a b : Z) : Qle_bool (inject_Z a) (inject_Z b) = (a <=? b)%Z.
Proof. unfold Qle_bool, inject_Z. simpl. now rewrite !Z.mul_1_r. Qed.

(** [commitMessage.length > 200] on a string *)
Lemma gt_200_length (s : string) :
  gt_200 (get (JStr s) "length") = Normal (200 <? String.length s)%nat.
Proof.
  unfold gt_200. cbn [get String.eqb Ascii.eqb Bool.eqb num ToNumber bind Number_lt].
  simpl. change (200%Q) with (inject_Z 200). rewrite Qle_bool_inject_Z.
  f_equal.
  destruct (200 <? String.length s)%nat eqn:E.
  - apply Nat.ltb_lt in E. apply negb_true_iff. apply Z.leb_gt. lia.
  - apply Nat.ltb_ge in E. apply negb_false_iff. apply Z.leb_le. lia.
Qed.

Lemma filter_push (p : EmbedField -> bool) (l : list EmbedField) (f : EmbedField) :
  filter p (push l f) = (filter p l ++ (if p f then [f] else []))%list.
Proof. unfold push. rewrite filter_app. reflexivity. Qed.

Ltac peel H :=
  match type of H with
  | bind ?c _ = Normal _ =>
      let E := fresh "E" in
      destruct c eqn:E; cbn [bind] in H; [| discriminate H]
  end.

(** A conditional [push] of a field with another name leaves the fields
    named [Commit Message] as they were. *)
Ltac unchanged H :=
  match type of H with
  | (if ?c then _ else _) = Normal _ =>
      destruct c; [repeat peel H |]; injection H as <-;
      rewrite ?filter_push;
      cbn [Spec.is_commit_message name String.eqb Ascii.eqb Bool.eqb app];
      rewrite ?app_nil_r; reflexivity
  end.

Lemma formatBuildTime_primitive (v : Value) :
  Spec.is_primitive v = true -> exists s, formatBuildTime v = Normal s.
Proof.
  intros Hv. destruct (ToNumber_primitive v Hv) as [n Hn].
  unfold formatBuildTime. rewrite Hn. cbn [bind].
  destruct (negb (ToBoolean v)); [eauto |].
  destruct (Number_lt n (Fin 60)); [eauto |].
  destruct (Number_eqb _ _); eauto.
Qed.

Ltac settle :=
  match goal with
  | |- exists e, bind ?c _ = Normal e =>
      let H := fresh "H" in
      assert (H : exists x, c = Normal x);
      [| destruct H as [? ->]; cbn [bind]]
  end.

(** The renderer returns a document for every record of the data model. *)
Lemma createBuildEmbed_returns (info : DeploymentInfo) :
  Spec.renderable info = true -> exists embed, createBuildEmbed info = Normal embed.
Proof.
  unfold Spec.renderable. rewrite !andb_true_iff.
  intros [[[[[[[[[[Hproject Hstatus] HerrorMessage] Hid] Hbranch] Hhash] Hurl] Htime]
             Hmessage] Hdeployment] Hlogs].
  destruct (ToString_primitive _ Hproject) as [? Eproject].
  destruct (ToString_primitive _ Hstatus) as [? Estatus].
  destruct (ToString_primitive _ HerrorMessage) as [? EerrorMessage].
  destruct (ToString_primitive _ Hid) as [? Eid].
  destruct (ToString_primitive _ Hbranch) as [? Ebranch].
  destruct (ToString_primitive _ Hurl) as [? Eurl].
  destruct (ToString_primitive _ Hdeployment) as [? Edeployment].
  destruct (ToString_primitive _ Hlogs) as [? Elogs].
  destruct (formatBuildTime_primitive _ Htime) as [? Etime].
  unfold createBuildEmbed. cbv zeta.
  settle.
  { destruct (isFailure info && ToBoolean (errorMessage info));
      [| destruct (isSuccess info)]; cbn [template bind];
      rewrite ?EerrorMessage, ?Estatus; cbn [bind]; eauto. }
  settle.
  { cbn [template bind]. rewrite Eproject. cbn [bind]. eauto. }
  settle.
  { destruct (ToBoolean (id info)); cbn [template bind ToString];
      rewrite ?Eid; cbn [bind]; eauto. }
  settle.
  { destruct (ToBoolean (branch info)); [| eauto].
    cbn [template bind]. rewrite Ebranch. cbn [bind]. eauto. }
  settle.
  { unfold Spec.is_text_or_falsy in Hhash.
    destruct (ToBoolean (commitHash info)); [| eauto].
    destruct (commitHash info); try discriminate Hhash.
    cbn [substring_0 bind].
    destruct (ToBoolean (commitUrl info)); cbn [template bind];
      rewrite ?Eurl; cbn [bind]; eauto. }
  settle.
  { destruct (negb (strict_eq (buildTime info) JNull)); [| eauto].
    rewrite Etime. cbn [bind]. eauto. }
  settle.
  { destruct (ToBoolean (commitMessage info)) eqn:Hm; [| eauto].
    destruct (commitMessage info) as [ | | b | n | m | items | props];
      try discriminate Hm; try discriminate Hmessage.
    - cbn. eauto.
    - cbn. eauto.
    - rewrite gt_200_length. cbn [bind substring_0].
      destruct (200 <? String.length m)%nat; cbn [bind]; eauto. }
  settle.
  { destruct (ToBoolean (deploymentUrl info)); [| eauto].
    cbn [template bind]. rewrite Edeployment. cbn [bind]. eauto. }
  settle.
  { destruct (ToBoolean (buildLogsUrl info)); [| eauto].
    cbn [template bind]. rewrite Elogs. cbn [bind]. eauto. }
  settle.
  { destruct (isFailure info); cbn [andb]; [| eauto].
    destruct (ToBoolean (error info)) eqn:Herror; [| eauto].
    destruct (typeof (error info) =? "string") eqn:Htext.
    - destruct (error info); try discriminate Htext. cbn. eauto.
    - destruct (JSON_stringify_defined _ Herror) as [text ->]. cbn. eauto. }
  eauto.
Qed.

(** The fields named [Commit Message] of a rendered document: exactly one,
    a block field, holding the message or its first 197 characters and the
    ellipsis. *)
Lemma commit_message_field (info : DeploymentInfo) (s : string) (embed : Embed) :
  commitMessage info = JStr s -> s <> "" ->
  createBuildEmbed info = Normal embed ->
  filter Spec.is_commit_message (fields embed) =
    [ {| name := "Commit Message";
         value := JStr (if (String.length s <=? 200)%nat then s
                        else substring 0 197 s ++ "...");
         inline := false |} ].
Proof.
  intros Hmsg Hne Hembed.
  unfold createBuildEmbed in Hembed. rewrite Hmsg in Hembed.
  cbv zeta in Hembed. repeat peel Hembed.
  injection Hembed as <-. cbn [fields].
  match goal with
  | E3 : _ = Normal ?f1, E4 : _ = Normal ?f2, E5 : _ = Normal ?f3, E6 : _ = Normal ?f5,
    E7 : _ = Normal ?f6, E8 : _ = Normal ?f7, E9 : _ = Normal ?f8
    |- filter _ ?f8 = _ =>
      assert (H1 : filter Spec.is_commit_message f1 = []) by unchanged E3;
      assert (H2 : filter Spec.is_commit_message f2 = filter Spec.is_commit_message f1) by unchanged E4;
      assert (H3 : filter Spec.is_commit_message f3 = filter Spec.is_commit_message f2) by unchanged E5;
      assert (H6 : filter Spec.is_commit_message f6 = filter Spec.is_commit_message f5) by unchanged E7;
      assert (H7 : filter Spec.is_commit_message f7 = filter Spec.is_commit_message f6) by unchanged E8;
      assert (H8 : filter Spec.is_commit_message f8 = filter Spec.is_commit_message f7) by unchanged E9;
      rewrite H8, H7, H6; clear H8 H7 H6 E7 E8 E9;
      rename E6 into Hmessage
  end.
  assert (Htruthy : ToBoolean (JStr s) = true)
    by (destruct s; [now elim Hne | reflexivity]).
  rewrite Htruthy, gt_200_length in Hmessage. cbn [bind substring_0] in Hmessage.
  rewrite (Nat.ltb_antisym (String.length s) 200) in Hmessage.
  assert (Hauthor : forall l f,
            filter Spec.is_commit_message
              (if ToBoolean (commitAuthor info)
               then push l {| name := "Author"; value := f; inline := true |} else l)
            = filter Spec.is_commit_message l).
  { intros l f. destruct (ToBoolean (commitAuthor info)); [| reflexivity].
    rewrite filter_push. apply app_nil_r. }
  destruct (String.length s <=? 200)%nat; cbn [negb bind] in Hmessage;
    injection Hmessage as <-; rewrite filter_push, Hauthor, H3, H2, H1; reflexivity.
Qed.

(** C8: in the rendered document, a non-empty commit message of at most
    200 characters is the value of the Commit Message field, unchanged; a
    longer one is cut to its first 197 characters followed by three dots,
    200 characters in all; the field is a block field (not inline), and
    there is one such field.  The renderer does return a document for
    every record of the data model. *)
Theorem createBuildEmbed_commit_message (info : DeploymentInfo) (s : string) :
  commitMessage info = JStr s -> s <> "" ->
  (Spec.renderable info = true -> exists embed, createBuildEmbed info = Normal embed)
  /\ (forall embed,
        createBuildEmbed info = Normal embed ->
        filter Spec.is_commit_message (fields embed) =
          [ {| name := "Commit Message";
               value := JStr (if (String.length s <=? 200)%nat then s
                              else substring 0 197 s ++ "...");
               inline := false |} ])
  /\ ((200 < String.length s)%nat ->
      String.length (substring 0 197 s ++ "...") = 200%nat).
Proof.
  intros Hmsg Hne.
  split; [apply createBuildEmbed_returns |].
  split; [intros embed; now apply commit_message_field |].
  intros Hlong. rewrite length_append, length_substring_0.
  change (String.length "...") with 3%nat. lia.
Qed.

Lemma createBuildEmbed_commit_message_witness :
  exists embed,
    createBuildEmbed (Spec.resolved Examples.t0 Examples.long_message_event) = Normal embed
    /\ filter Spec.is_commit_message (fields embed) =
       [ {| name := "Commit Message";
            value := JStr (substring 0 197 Examples.long_message ++ "...");
            inline := false |} ]
    /\ String.length (substring 0 197 Examples.long_message ++ "...") = 200%nat.
Proof.
  pose (claim := createBuildEmbed_commit_message
                   (Spec.resolved Examples.t0 Examples.long_message_event)
                   Examples.long_message eq_refl).
  assert (Hne : Examples.long_message <> "") by discriminate.
  destruct (proj1 (claim Hne) eq_refl) as [embed Hembed].
  exists embed. split; [exact Hembed |]. split.
  - exact (proj1 (proj2 (claim Hne)) embed Hembed).
  - apply (proj2 (proj2 (claim Hne))). vm_compute. lia.
Defined.
End Renderer.

(* ================================================================== *)
(** * The comparison of the shared secret *)
(* ================================================================== *)

Section SecretComparison.

Import Worker.

Lemma int32_small (z : Z) : (- 2 ^ 31 <= z < 2 ^ 31)%Z -> int32 z = z.
Proof. intros H. unfold int32. rewrite Z.mod_small; lia. Qed.

Lemma charCodeAt_range (s : string) (i : nat) : (0 <= charCodeAt s i < 256)%Z.
Proof.
  unfold charCodeAt. destruct (String.get i s) as [c |]; [| lia].
  pose proof (nat_ascii_bounded c). lia.
Qed.

Lemma byte_bound (x : Z) : (0 <= x < 256)%Z -> (Z.log2 x < 8)%Z.
Proof.
  intros [H0 H1]. destruct (Z.eq_dec x 0) as [-> | Hx]; [reflexivity |].
  apply (proj1 (Z.log2_lt_pow2 x 8 ltac:(lia))). change (2 ^ 8)%Z with 256%Z. exact H1.
Qed.

Lemma byte_of_log2 (x : Z) : (0 <= x)%Z -> (Z.log2 x < 8)%Z -> (0 <= x < 256)%Z.
Proof.
  intros H0 H1. split; [assumption |].
  destruct (Z.eq_dec x 0) as [-> | Hx]; [lia |].
  change 256%Z with (2 ^ 8)%Z. apply (proj2 (Z.log2_lt_pow2 x 8 ltac:(lia))). exact H1.
Qed.

Lemma lxor_byte (x y : Z) :
  (0 <= x < 256)%Z -> (0 <= y < 256)%Z -> (0 <= Z.lxor x y < 256)%Z.
Proof.
  intros Hx Hy. apply byte_of_log2.
  - apply Z.lxor_nonneg. lia.
  - pose proof (Z.log2_lxor x y ltac:(lia) ltac:(lia)).
    pose proof (byte_bound x Hx). pose proof (byte_bound y Hy). lia.
Qed.

Lemma lor_byte (x y : Z) :
  (0 <= x < 256)%Z -> (0 <= y < 256)%Z -> (0 <= Z.lor x y < 256)%Z.
Proof.
  intros Hx Hy. apply byte_of_log2.
  - apply Z.lor_nonneg. lia.
  - rewrite Z.log2_lor by lia.
    pose proof (byte_bound x Hx). pose proof (byte_bound y Hy). lia.
Qed.

Lemma bit_xor_byte (x y : Z) :
  (0 <= x < 256)%Z -> (0 <= y < 256)%Z -> bit_xor x y = Z.lxor x y.
Proof.
  intros Hx Hy. unfold bit_xor. rewrite (int32_small x), (int32_small y) by lia.
  apply int32_small. pose proof (lxor_byte x y Hx Hy). lia.
Qed.

Lemma bit_or_byte (x y : Z) :
  (0 <= x < 256)%Z -> (0 <= y < 256)%Z -> bit_or x y = Z.lor x y.
Proof.
  intros Hx Hy. unfold bit_or. rewrite (int32_small x), (int32_small y) by lia.
  apply int32_small. pose proof (lor_byte x y Hx Hy). lia.
Qed.

(** The loop visits every index it was asked to, whatever it reads there,
    and its accumulator ends at zero iff it started at zero and the two
    strings agree at every index visited. *)
Lemma secureCompare_loop_spec (a b : string) (remaining : nat) :
  forall (i : nat) (result : Z) (scanned : list nat),
    (0 <= result < 256)%Z ->
    snd (secureCompare_loop a b remaining i result scanned) = (scanned ++ seq i remaining)%list
    /\ (fst (secureCompare_loop a b remaining i result scanned) = 0%Z
        <-> result = 0%Z
            /\ forall j, (i <= j < i + remaining)%nat -> charCodeAt a j = charCodeAt b j).
Proof.
  induction remaining as [| n IH]; intros i result scanned Hr.
  - simpl. split; [now rewrite app_nil_r |].
    split; [intros ->; split; [reflexivity | intros j Hj; lia] | now intros [-> _]].
  - cbn [secureCompare_loop].
    pose proof (charCodeAt_range a i) as Ha. pose proof (charCodeAt_range b i) as Hb.
    rewrite (bit_xor_byte _ _ Ha Hb).
    pose proof (lxor_byte _ _ Ha Hb) as Hx.
    rewrite (bit_or_byte _ _ Hr Hx).
    destruct (IH (S i) (Z.lor result (Z.lxor (charCodeAt a i) (charCodeAt b i)))
                (scanned ++ [i])%list (lor_byte _ _ Hr Hx)) as [Hscan Hres].
    split.
    + rewrite Hscan, <- app_assoc. reflexivity.
    + rewrite Hres, Z.lor_eq_0_iff, Z.lxor_eq_0_iff. split.
      * intros [[-> Hi] Hrest]. split; [reflexivity |].
        intros j Hj. destruct (Nat.eq_dec j i) as [-> | Hne]; [exact Hi |].
        apply Hrest. lia.
      * intros [-> Hall]. split; [split; [reflexivity | apply Hall; lia] |].
        intros j Hj. apply Hall. lia.
Qed.

Lemma nat_of_ascii_inj (c d : ascii) : nat_of_ascii c = nat_of_ascii d -> c = d.
Proof.
  intros H. rewrite <- (ascii_nat_embedding c), <- (ascii_nat_embedding d). now rewrite H.
Qed.

Lemma same_codes_same_string (a b : string) :
  String.length a = String.length b ->
  (forall j, (j < String.length a)%nat -> charCodeAt a j = charCodeAt b j) ->
  a = b.
Proof.
  revert b. induction a as [| c a IH]; intros [| d b] Hlen Hall; simpl in Hlen;
    try discriminate; [reflexivity |].
  f_equal.
  - specialize (Hall 0%nat ltac:(simpl; lia)). unfold charCodeAt in Hall. simpl in Hall.
    apply nat_of_ascii_inj. lia.
  - apply IH; [lia |]. intros j Hj.
    specialize (Hall (S j) ltac:(simpl; lia)). exact Hall.
Qed.

Lemma secureCompare_run_equal_length (a b : string) :
  String.length a = String.length b ->
  secureCompare_run (JStr a) (JStr b) =
  ((fst (secureCompare_loop a b (String.length a) 0 0 []) =? 0)%Z,
   snd (secureCompare_loop a b (String.length a) 0 0 [])).
Proof.
  intros Hlen. unfold secureCompare_run. cbn [typeof String.eqb Ascii.eqb Bool.eqb negb orb].
  rewrite Hlen, Nat.eqb_refl. cbn [negb]. rewrite <- Hlen.
  now destruct (secureCompare_loop a b (String.length a) 0 0 []).
Qed.

Lemma secureCompare_iff (a b : string) :
  secureCompare (JStr a) (JStr b) = true <-> a = b.
Proof.
  unfold secureCompare.
  destruct (Nat.eq_dec (String.length a) (String.length b)) as [Hlen | Hlen].
  - rewrite (secureCompare_run_equal_length a b Hlen). cbn [fst].
    rewrite Z.eqb_eq.
    destruct (secureCompare_loop_spec a b (String.length a) 0 0 [] ltac:(lia)) as [_ H].
    rewrite H. split.
    + intros [_ Hall]. apply same_codes_same_string; [exact Hlen |].
      intros j Hj. apply Hall. lia.
    + intros ->. split; [reflexivity | reflexivity].
  - unfold secureCompare_run. cbn [typeof String.eqb Ascii.eqb Bool.eqb negb orb].
    apply Nat.eqb_neq in Hlen. rewrite Hlen. cbn [negb fst].
    split; [discriminate |]. intros ->. rewrite Nat.eqb_refl in Hlen. discriminate.
Qed.
End SecretComparison.

(* ================================================================== *)
(** * The webhook handler *)
(* ================================================================== *)

Section Handler.

Import Cloudflare Discord Worker.


Lemma handleWebhook_return (request : Request) (env : Env) (w : World)
    (calls : list FetchCall) (r : Response) :
  handleWebhook_try request env w = (calls, Normal r) ->
  handleWebhook request env w = (calls, Normal r).
Proof. intros H. unfold handleWebhook, try_catch. now rewrite H. Qed.

(** The secret check of either copy answers 401 before anything else is
    read from the request. *)
Lemma secret_mismatch_401 (request : Request) (env : Env) (w : World) :
  Spec.configured env ->
  ToBoolean (WEBHOOK_SECRET env) = true ->
  secureCompare (headers_get request "X-Webhook-Secret") (WEBHOOK_SECRET env) = false ->
  handleWebhook request env w = ([], Normal Spec.unauthorized).
Proof.
  intros [Htoken Hchannel] Hsecret Hcmp.
  apply handleWebhook_return. unfold handleWebhook_try.
  rewrite Htoken, Hchannel, Hsecret, Hcmp. reflexivity.
Qed.

Lemma secret_mismatch_401_copy (request : Request) (env : Env) (w : World) :
  Spec.configured env ->
  ToBoolean (WEBHOOK_SECRET env) = true ->
  strict_eq (headers_get request "X-Webhook-Secret") (WEBHOOK_SECRET env) = false ->
  WorkerCopy.handleWebhook request env w = ([], Normal Spec.unauthorized).
Proof.
  intros [Htoken Hchannel] Hsecret Hcmp.
  unfold WorkerCopy.handleWebhook, try_catch, WorkerCopy.handleWebhook_try,
    WorkerCopy.secret_differs, WorkerCopy.secret_differs_run.
  cbn [fst]. rewrite Htoken, Hchannel, Hsecret, Hcmp. reflexivity.
Qed.

(** On a header value (a string, or [null] when there is none) and a
    secret, the [!==] of the second copy of the handler decides as
    [secureCompare] does. *)
Lemma strict_eq_is_secureCompare (request : Request) (secret : string) :
  strict_eq (headers_get request "X-Webhook-Secret") (JStr secret)
  = secureCompare (headers_get request "X-Webhook-Secret") (JStr secret).
Proof.
  unfold headers_get. destruct (header request "X-Webhook-Secret") as [provided |];
    [| reflexivity].
  cbn [strict_eq].
  destruct (secureCompare (JStr provided) (JStr secret)) eqn:E.
  - apply secureCompare_iff in E. subst. apply String.eqb_refl.
  - apply String.eqb_neq. intros ->.
    assert (H : secureCompare (JStr secret) (JStr secret) = true)
      by now apply secureCompare_iff.
    congruence.
Qed.

(** The second copy of the handler answers an error thrown in its [try]
    block with the generic text and the message of the error. *)
Lemma handleWebhook_copy_catch (request : Request) (env : Env) (w : World)
    (calls : list FetchCall) (e : Error) :
  WorkerCopy.handleWebhook_try request env w = (calls, Throw e) ->
  WorkerCopy.handleWebhook request env w =
  (calls, Normal (jsonResponse (JObj [("error", JStr "Internal server error");
                                      ("message", JStr (JS.message e))]) 500)).
Proof.
  intros H. unfold WorkerCopy.handleWebhook, try_catch. rewrite H. unfold ret.
  now rewrite app_nil_r.
Qed.

(** A reply outside 200..299 makes [sendMessage] throw, after its one
    call. *)
Lemma sendMessage_rejects_non_2xx (bot : DiscordBot) (channelId messageData : Value)
    (w : World) (url authorization : string) (reply : Reply) :
  template [L (apiBase bot); L "/channels/"; E channelId; L "/messages"] = Normal url ->
  template [L "Bot "; E (token bot)] = Normal authorization ->
  remote w {| Runtime.url := url;
              method := "POST";
              headers := [("Authorization", authorization);
                          ("Content-Type", "application/json");
                          ("User-Agent", "COCS-Bot/1.0")];
              body := JSON_stringify messageData |} = Normal reply ->
  ok reply = false ->
  exists call,
    sendMessage bot channelId messageData w =
    ([call],
     Throw (new_Error ("Discord API error: " ++ decimal (Runtime.status reply) ++ " "
                       ++ statusText reply ++ " - " ++ text reply))).
Proof.
  intros Hurl Hauth Hreply Hok.
  eexists. unfold sendMessage, getHeaders, await, lift, Runtime.fetch, throw.
  rewrite Hurl, Hauth. cbn [bind app]. rewrite Hreply, Hok. reflexivity.
Qed.

(** C4: in [src/index.js], with a secret configured, the header is
    compared by [secureCompare]: two strings of different length are
    rejected before any character is read; on two strings of equal length
    the loop reads every index [0 .. length - 1], in that order, whatever
    the strings hold (so the indices read do not depend on where the strings
    differ), and the result is [true] iff the strings are identical.  A
    header that differs from the secret is answered 401, with no outbound
    call, in both copies of the handler.  The other copy does not compare
    that way: it tests [providedSecret !== env.WEBHOOK_SECRET], decides the
    same, and scans nothing itself, so that on two strings of equal length
    its record of indices is empty where the one of [secureCompare] holds
    every index. *)
Theorem secureCompare_scans_every_position :
  (forall a b, String.length a <> String.length b ->
     secureCompare_run (JStr a) (JStr b) = (false, []))
  /\ (forall a b, String.length a = String.length b ->
        snd (secureCompare_run (JStr a) (JStr b)) = seq 0 (String.length a))
  /\ (forall a b a' b',
        String.length a = String.length b ->
        String.length a' = String.length b' ->
        String.length a = String.length a' ->
        snd (secureCompare_run (JStr a) (JStr b))
        = snd (secureCompare_run (JStr a') (JStr b')))
  /\ (forall a b, secureCompare (JStr a) (JStr b) = true <-> a = b)
  /\ (forall request secret,
        strict_eq (headers_get request "X-Webhook-Secret") (JStr secret)
        = secureCompare (headers_get request "X-Webhook-Secret") (JStr secret))
  /\ (forall request env w secret provided,
        Spec.configured env ->
        WEBHOOK_SECRET env = JStr secret -> secret <> "" ->
        header request "X-Webhook-Secret" = Some provided ->
        provided <> secret ->
        handleWebhook request env w = ([], Normal Spec.unauthorized)
        /\ WorkerCopy.handleWebhook request env w = ([], Normal Spec.unauthorized))
  /\ (forall a b,
        WorkerCopy.secret_differs a b = negb (strict_eq a b)
        /\ snd (WorkerCopy.secret_differs_run a b) = [])
  /\ (forall a b, String.length a = String.length b -> a <> "" ->
        snd (WorkerCopy.secret_differs_run (JStr a) (JStr b))
        <> snd (secureCompare_run (JStr a) (JStr b)))
  /\ (secureCompare_run (JStr "X3cret") (JStr "s3cret") = (false, [0; 1; 2; 3; 4; 5]%nat)
      /\ WorkerCopy.secret_differs_run (JStr "X3cret") (JStr "s3cret") = (true, [])).
Proof.
  assert (Hscan : forall a b, String.length a = String.length b ->
            snd (secureCompare_run (JStr a) (JStr b)) = seq 0 (String.length a)).
  { intros a b Hlen. rewrite (secureCompare_run_equal_length a b Hlen). cbn [snd].
    now destruct (secureCompare_loop_spec a b (String.length a) 0 0 [] ltac:(lia)) as [-> _]. }
  split.
  { intros a b Hlen. unfold secureCompare_run.
    cbn [typeof String.eqb Ascii.eqb Bool.eqb negb orb].
    apply Nat.eqb_neq in Hlen. now rewrite Hlen. }
  split; [exact Hscan |].
  split; [intros a b a' b' H1 H2 H3; now rewrite (Hscan a b H1), (Hscan a' b' H2), H3 |].
  split; [exact secureCompare_iff |].
  split; [exact strict_eq_is_secureCompare |].
  split.
  { intros request env w secret provided Hconf Hsecret Hne Hheader Hdiff.
    assert (Htruthy : ToBoolean (WEBHOOK_SECRET env) = true).
    { rewrite Hsecret. destruct secret; [now elim Hne | reflexivity]. }
    split.
    - apply secret_mismatch_401; try assumption.
      unfold headers_get. rewrite Hheader, Hsecret.
      destruct (secureCompare (JStr provided) (JStr secret)) eqn:E; [| reflexivity].
      apply secureCompare_iff in E. now elim Hdiff.
    - apply secret_mismatch_401_copy; try assumption.
      unfold headers_get. rewrite Hheader, Hsecret. cbn [strict_eq].
      now apply String.eqb_neq. }
  split; [intros a b; split; reflexivity |].
  split.
  { intros a b Hlen Hne. rewrite (Hscan a b Hlen). cbn [WorkerCopy.secret_differs_run snd].
    destruct a; [now elim Hne | discriminate]. }
  split; reflexivity.
Qed.

Lemma secureCompare_scans_every_position_witness :
  snd (secureCompare_run (JStr "s3creT") (JStr "s3cret")) = seq 0 6
  /\ snd (secureCompare_run (JStr "X3cret") (JStr "s3cret")) = seq 0 6
  /\ snd (WorkerCopy.secret_differs_run (JStr "X3cret") (JStr "s3cret")) = []
  /\ handleWebhook (Examples.post (Some "s3creT") Examples.readme_event)
       Examples.env Examples.discord_200 = ([], Normal Spec.unauthorized).
Proof.
  split.
  - exact (proj1 (proj2 secureCompare_scans_every_position) "s3creT" "s3cret" eq_refl).
  - split.
    + exact (proj1 (proj2 secureCompare_scans_every_position) "X3cret" "s3cret" eq_refl).
    + split.
      * exact (proj2 (proj1 (proj2 (proj2 (proj2 (proj2 (proj2 (proj2
                 secureCompare_scans_every_position))))))
                 (JStr "X3cret") (JStr "s3cret"))).
      * refine (proj1 (proj1 (proj2 (proj2 (proj2 (proj2 (proj2
                 secureCompare_scans_every_position)))))
                 (Examples.post (Some "s3creT") Examples.readme_event)
                 Examples.env Examples.discord_200 "s3cret" "s3creT"
                 (conj eq_refl eq_refl) eq_refl _ eq_refl _)); discriminate.
Defined.











(** C6 on the second copy of the handler: Discord answers 403, the thrown
    error reaches the [catch] block, and the 500 body carries the message
    of the error next to the generic text.  [src/index.js] answers the same
    request with the generic body alone. *)
Theorem handleWebhook_copy_exposes_error_message :
  snd (WorkerCopy.handleWebhook (Examples.post (Some "s3cret") Examples.readme_event)
         Examples.env Examples.discord_403)
  = Normal (jsonResponse
              (JObj [("error", JStr "Internal server error");
                     ("message", JStr "Discord API error: 403 Forbidden - Missing Access")])
              500)
  /\ List.length (fst (WorkerCopy.handleWebhook
                         (Examples.post (Some "s3cret") Examples.readme_event)
                         Examples.env Examples.discord_403)) = 1%nat
  /\ snd (handleWebhook (Examples.post (Some "s3cret") Examples.readme_event)
            Examples.env Examples.discord_403)
     = Normal Spec.internal_error.
Proof. repeat split. Qed.

End Handler.
(* ================================================================== *)
(** * More on the normalizer and its helpers *)
(* ================================================================== *)

Section NormalizerEdges.

Import Cloudflare.

Lemma first_truthy_default (candidates : list Value) (last : Value) :
  Spec.first_truthy candidates last = last
  \/ ToBoolean (Spec.first_truthy candidates last) = true.
Proof.
  induction candidates as [| v rest IH]; simpl; [now left |].
  destruct (ToBoolean v) eqn:E; [now right | exact IH].
Qed.

Lemma first_truthy_truthy (candidates : list Value) (last : Value) :
  ToBoolean last = true -> ToBoolean (Spec.first_truthy candidates last) = true.
Proof.
  intros H. destruct (first_truthy_default candidates last) as [-> | E]; assumption.
Qed.

(** A normalized event is the record of resolved attributes. *)
Lemma parseDeploymentEvent_Normal (now : string) (payload : Value) (info : DeploymentInfo) :
  parseDeploymentEvent now payload = Normal info -> info = Spec.resolved now payload.
Proof.
  intros Hparse.
  assert (Hp : is_nullish payload = false).
  { destruct payload; try reflexivity; discriminate Hparse. }
  rewrite (parseDeploymentEvent_resolved now payload Hp) in Hparse.
  now injection Hparse as <-.
Qed.

(** X1: [parseDeploymentEvent] throws a TypeError exactly on [null] and
    [undefined]; every other input, a number, a string or an array too, is
    normalized, and [raw] keeps the input as it came. *)
Theorem parseDeploymentEvent_throws_exactly_on_nullish (now : string) (payload : Value) :
  (is_nullish payload = true ->
   exists e, parseDeploymentEvent now payload = Throw e /\ JS.name e = "TypeError")
  /\ (is_nullish payload = false ->
      exists info, parseDeploymentEvent now payload = Normal info /\ raw info = payload).
Proof.
  split.
  - intros H. destruct payload; try discriminate H; eexists; split; reflexivity.
  - intros H. exists (Spec.resolved now payload).
    split; [now apply parseDeploymentEvent_resolved | reflexivity].
Qed.

Lemma parseDeploymentEvent_throws_exactly_on_nullish_witness :
  (exists e, parseDeploymentEvent Examples.t0 JNull = Throw e /\ JS.name e = "TypeError")
  /\ (exists info, parseDeploymentEvent Examples.t0 (JArr [num 1]) = Normal info
                   /\ raw info = JArr [num 1]).
Proof.
  split.
  - exact (proj1 (parseDeploymentEvent_throws_exactly_on_nullish Examples.t0 JNull) eq_refl).
  - exact (proj2 (parseDeploymentEvent_throws_exactly_on_nullish Examples.t0 (JArr [num 1]))
             eq_refl).
Defined.

(** X2: what a normalized event always holds.  The attributes with a
    non-empty default (status, project name, environment, branch, stages)
    are never falsy; build time, error, error message and latest stage are
    [null] or truthy, so a build time of [0] never reaches the renderer; the
    commit and URL attributes are the empty string or truthy; the two
    classifications are never both set. *)
Theorem parseDeploymentEvent_invariants (now : string) (payload : Value)
    (info : DeploymentInfo) :
  parseDeploymentEvent now payload = Normal info ->
  (ToBoolean (status info) = true /\ ToBoolean (projectName info) = true
   /\ ToBoolean (environment info) = true /\ ToBoolean (branch info) = true
   /\ ToBoolean (stages info) = true)
  /\ (now <> "" -> ToBoolean (createdAt info) = true)
  /\ (Spec.null_or_truthy (buildTime info) /\ Spec.null_or_truthy (error info)
      /\ Spec.null_or_truthy (errorMessage info) /\ Spec.null_or_truthy (latestStage info))
  /\ (Spec.empty_or_truthy (commitHash info) /\ Spec.empty_or_truthy (commitMessage info)
      /\ Spec.empty_or_truthy (commitAuthor info) /\ Spec.empty_or_truthy (deploymentUrl info)
      /\ Spec.empty_or_truthy (buildLogsUrl info) /\ Spec.empty_or_truthy (commitUrl info))
  /\ buildTime info <> num 0
  /\ (isSuccess info && isFailure info = false).
Proof.
  intros Hparse.
  assert (Hp : is_nullish payload = false).
  { destruct payload; try reflexivity; discriminate Hparse. }
  rewrite (parseDeploymentEvent_resolved now payload Hp) in Hparse.
  injection Hparse as <-. unfold Spec.resolved, Spec.null_or_truthy, Spec.empty_or_truthy.
  cbn [status projectName environment branch stages createdAt buildTime error errorMessage
       latestStage commitHash commitMessage commitAuthor deploymentUrl buildLogsUrl commitUrl
       isSuccess isFailure].
  split; [repeat split; now apply first_truthy_truthy |].
  split.
  { intros Hnow. apply first_truthy_truthy. destruct now; [now elim Hnow | reflexivity]. }
  split; [repeat split; apply first_truthy_default |].
  split; [repeat split; apply first_truthy_default |].
  split.
  - match goal with
    | |- Spec.first_truthy ?l ?d <> _ =>
        destruct (first_truthy_default l d) as [-> | E]; [discriminate |];
        intros H; rewrite H in E; discriminate E
    end.
  - match goal with
    | |- strict_eq_str ?v _ && _ = false => destruct v; try reflexivity
    end.
    cbn [strict_eq_str].
    destruct (s =? "success") eqn:E; [| reflexivity].
    apply String.eqb_eq in E. subst. reflexivity.
Qed.

Lemma parseDeploymentEvent_invariants_witness :
  buildTime (Spec.resolved Examples.t0 (JObj [("id", JStr "d"); ("build_time", num 0)]))
  <> num 0
  /\ ToBoolean (status (Spec.resolved Examples.t0 (JObj [("id", JStr "d"); ("build_time", num 0)])))
     = true.
Proof.
  pose (H := parseDeploymentEvent_invariants Examples.t0
               (JObj [("id", JStr "d"); ("build_time", num 0)])
               (Spec.resolved Examples.t0 (JObj [("id", JStr "d"); ("build_time", num 0)]))
               eq_refl).
  split.
  - exact (proj1 (proj2 (proj2 (proj2 (proj2 H))))).
  - exact (proj1 (proj1 H)).
Defined.

(** X3: nesting changes nothing.  When the payload nests a truthy event
    under [deployment], every attribute is read from the nested event: the
    flat keys beside it are ignored (a flat [project_name] is consulted only
    as the fallback of the nested one), and the result is the one of the
    nested event given flat, but for [raw]. *)
Theorem parseDeploymentEvent_nested_wins (now : string) (event : Value)
    (flat : list (string * Value)) :
  ToBoolean event = true ->
  ToBoolean (get event "deployment") = false ->
  ToBoolean (own flat "project_name") = false ->
  exists info,
    parseDeploymentEvent now event = Normal info
    /\ parseDeploymentEvent now (JObj (("deployment", event) :: flat))
       = Normal (Spec.with_raw info (JObj (("deployment", event) :: flat))).
Proof.
  intros Hevent Hflat Hproject.
  exists (Spec.resolved now event). split.
  - apply parseDeploymentEvent_resolved. now apply truthy_not_nullish.
  - rewrite parseDeploymentEvent_resolved by reflexivity.
    unfold Spec.resolved, Spec.with_raw.
    cbn [get own String.eqb Ascii.eqb Bool.eqb Spec.first_truthy
         id projectName environment status isSuccess isFailure branch commitHash
         commitMessage commitAuthor deploymentUrl buildLogsUrl commitUrl buildTime
         createdAt error errorMessage stages latestStage raw].
    rewrite Hevent, Hflat, Hproject.
    f_equal. f_equal.
    destruct (ToBoolean (get event "project_name")) eqn:E; rewrite ?E; reflexivity.
Qed.

Lemma parseDeploymentEvent_nested_wins_witness :
  exists info,
    parseDeploymentEvent Examples.t0
      (JObj [("id", JStr "test"); ("status", JStr "success"); ("branch", JStr "main")])
    = Normal info
    /\ parseDeploymentEvent Examples.t0
         (JObj [("deployment",
                 JObj [("id", JStr "test"); ("status", JStr "success"); ("branch", JStr "main")]);
                ("status", JStr "failure"); ("branch", JStr "dev")])
       = Normal (Spec.with_raw info
           (JObj [("deployment",
                   JObj [("id", JStr "test"); ("status", JStr "success"); ("branch", JStr "main")]);
                  ("status", JStr "failure"); ("branch", JStr "dev")])).
Proof.
  exact (parseDeploymentEvent_nested_wins Examples.t0
           (JObj [("id", JStr "test"); ("status", JStr "success"); ("branch", JStr "main")])
           [("status", JStr "failure"); ("branch", JStr "dev")]
           eq_refl eq_refl eq_refl).
Defined.

(** X4: the validator never throws, and what it accepts is a plain object:
    every array, string, number and boolean is rejected, whatever it
    holds. *)
Theorem isValidPayload_accepts_objects_only (payload : Value) :
  (exists verdict, isValidPayload payload = Normal verdict)
  /\ (isValidPayload payload = Normal true -> exists props, payload = JObj props)
  /\ (forall items, isValidPayload (JArr items) = Normal false).
Proof.
  split; [rewrite isValidPayload_eq; eauto |].
  split.
  - rewrite isValidPayload_eq. intros [= H].
    destruct payload as [ | | b | n | s | items | props]; try discriminate H; eauto.
  - intros items. rewrite isValidPayload_eq. reflexivity.
Qed.

Lemma isValidPayload_accepts_objects_only_witness :
  exists props, Examples.readme_event = JObj props.
Proof.
  exact (proj1 (proj2 (isValidPayload_accepts_objects_only Examples.readme_event)) eq_refl).
Defined.

End NormalizerEdges.

(* ================================================================== *)
(** * The helpers of cloudflare.js *)
(* ================================================================== *)

Section Helpers.

Import Cloudflare.

Lemma append_assoc (a b c : string) : (a ++ b) ++ c = a ++ (b ++ c).
Proof. induction a as [| x a IH]; simpl; [reflexivity | now rewrite IH]. Qed.

Lemma substring_0_all (n : nat) (s : string) :
  (String.length s <= n)%nat -> substring 0 n s = s.
Proof.
  revert s. induction n as [| n IH]; intros [| c s] H; simpl in *; try reflexivity; try lia.
  rewrite IH by lia. reflexivity.
Qed.

Lemma substring_0_min (n : nat) (s : string) :
  substring 0 (Nat.min n (String.length s)) s = substring 0 n s.
Proof.
  revert s. induction n as [| n IH]; intros [| c s]; simpl; try reflexivity.
  now rewrite IH.
Qed.

Lemma substring_0_prefix (n : nat) (s : string) : prefix (substring 0 n s) s = true.
Proof. apply prefix_correct. rewrite length_substring_0. apply substring_0_min. Qed.

Lemma substring_0_append (a b : string) : substring 0 (String.length a) (a ++ b) = a.
Proof. induction a as [| x a IH]; simpl; [now destruct b | now rewrite IH]. Qed.

Lemma prefix_append (a b : string) : prefix a (a ++ b) = true.
Proof. apply prefix_correct. apply substring_0_append. Qed.

(** The last character of a text that ends in [c] is [c]. *)
Lemma get_last (a : string) (c : ascii) :
  String.get (String.length a) (a ++ String c "") = Some c.
Proof.
  pose proof (append_correct2 a (String c "") 0) as H. simpl in H.
  now rewrite <- H.
Qed.

(** X5: [getShortCommitHash] returns the placeholder for every falsy hash,
    and for a string its first seven characters: a prefix of the hash, the
    whole hash when that has at most seven characters, so that shortening
    twice is shortening once.  No result is longer than seven characters.
    A truthy hash that is not a string makes it throw a TypeError. *)
Theorem getShortCommitHash_spec :
  (forall v, ToBoolean v = false -> getShortCommitHash v = Normal "unknown")
  /\ (forall s, s <> "" ->
        exists short,
          getShortCommitHash (JStr s) = Normal short
          /\ String.length short = Nat.min 7 (String.length s)
          /\ prefix short s = true
          /\ ((String.length s <= 7)%nat -> short = s)
          /\ getShortCommitHash (JStr short) = Normal short)
  /\ (forall v short, getShortCommitHash v = Normal short -> (String.length short <= 7)%nat)
  /\ (forall v, ToBoolean v = true -> typeof v <> "string" ->
        exists e, getShortCommitHash v = Throw e /\ JS.name e = "TypeError")
  /\ getShortCommitHash (JStr "abcdef1234") = Normal "abcdef1".
Proof.
  split; [intros v Hv; unfold getShortCommitHash; now rewrite Hv |].
  split.
  { intros s Hs. exists (substring 0 7 s).
    assert (Ht : ToBoolean (JStr s) = true) by (destruct s; [now elim Hs | reflexivity]).
    unfold getShortCommitHash. rewrite Ht. cbn [negb substring_0].
    split; [reflexivity |]. split; [apply length_substring_0 |].
    split; [apply substring_0_prefix |].
    split; [intros Hlen; now apply substring_0_all |].
    assert (Hshort : substring 0 7 s <> "").
    { destruct s; [now elim Hs | discriminate]. }
    destruct (substring 0 7 s) eqn:E; [now elim Hshort |].
    cbn [ToBoolean String.eqb negb]. rewrite <- E.
    f_equal. apply substring_0_all. rewrite length_substring_0. lia. }
  split.
  { intros v short. unfold getShortCommitHash.
    destruct (ToBoolean v); cbn [negb].
    - destruct v; try discriminate. cbn [substring_0]. intros [= <-].
      rewrite length_substring_0. lia.
    - intros [= <-]. simpl. lia. }
  split; [| reflexivity].
  intros v Hv Htype. unfold getShortCommitHash. rewrite Hv. cbn [negb].
  destruct v as [ | | b | n | s | items | props]; try discriminate Hv;
    try (eexists; split; reflexivity).
  now elim Htype.
Qed.

Lemma getShortCommitHash_spec_witness :
  (exists short,
     getShortCommitHash (JStr "abc") = Normal short
     /\ String.length short = Nat.min 7 (String.length "abc")
     /\ prefix short "abc" = true
     /\ ((String.length "abc" <= 7)%nat -> short = "abc")
     /\ getShortCommitHash (JStr short) = Normal short)
  /\ (exists e, getShortCommitHash (num 1234567) = Throw e /\ JS.name e = "TypeError").
Proof.
  destruct getShortCommitHash_spec as [_ [Htext [_ [Hthrow _]]]].
  split.
  - apply (Htext "abc"). discriminate.
  - apply (Hthrow (num 1234567)); [reflexivity | discriminate].
Defined.

Lemma template_starts (chunk : string) (rest : list Part) (text : string) :
  template (L chunk :: rest) = Normal text -> prefix chunk text = true.
Proof.
  cbn [template]. destruct (template rest) as [tail | e]; cbn [bind]; [| discriminate].
  intros [= <-]. apply prefix_append.
Qed.

(** X6: [getCommitUrl] returns the empty string exactly for a falsy hash.
    For a truthy hash every URL it returns starts with the GitHub origin and
    is therefore not empty, and for three strings it is owner, repository
    and hash joined by the fixed template, ending in the hash. *)
Theorem getCommitUrl_spec (repoOwner repoName commitHash : Value) :
  (ToBoolean commitHash = false -> getCommitUrl repoOwner repoName commitHash = Normal "")
  /\ (forall url,
        ToBoolean commitHash = true ->
        getCommitUrl repoOwner repoName commitHash = Normal url ->
        prefix "https://github.com/" url = true /\ url <> "")
  /\ (forall url,
        getCommitUrl repoOwner repoName commitHash = Normal url ->
        (url = "" <-> ToBoolean commitHash = false))
  /\ (forall owner repo sha,
        sha <> "" ->
        getCommitUrl (JStr owner) (JStr repo) (JStr sha)
        = Normal ("https://github.com/" ++ owner ++ "/" ++ repo ++ "/commit/" ++ sha)).
Proof.
  assert (Hstarts : forall url,
            ToBoolean commitHash = true ->
            getCommitUrl repoOwner repoName commitHash = Normal url ->
            prefix "https://github.com/" url = true /\ url <> "").
  { intros url Hh. unfold getCommitUrl. rewrite Hh. cbn [negb]. intros Hurl.
    apply template_starts in Hurl. split; [exact Hurl |].
    intros ->. discriminate Hurl. }
  split; [intros Hh; unfold getCommitUrl; now rewrite Hh |].
  split; [exact Hstarts |].
  split.
  { intros url Hurl. destruct (ToBoolean commitHash) eqn:Hh.
    - destruct (Hstarts url eq_refl Hurl) as [_ Hne]. split; [contradiction | discriminate].
    - unfold getCommitUrl in Hurl. rewrite Hh in Hurl. injection Hurl as <-.
      split; reflexivity. }
  intros owner repo sha Hsha. unfold getCommitUrl.
  assert (Ht : ToBoolean (JStr sha) = true) by (destruct sha; [now elim Hsha | reflexivity]).
  rewrite Ht. cbn [negb template ToString bind]. now rewrite append_empty_r.
Qed.

Lemma getCommitUrl_spec_witness :
  getCommitUrl (JStr "fringemonkey") (JStr "cocs-bot") (JStr "abcdef1234")
  = Normal "https://github.com/fringemonkey/cocs-bot/commit/abcdef1234"
  /\ getCommitUrl (JStr "fringemonkey") (JStr "cocs-bot") (JStr "") = Normal "".
Proof.
  split.
  - apply (proj2 (proj2 (proj2 (getCommitUrl_spec JNull JNull JNull)))). discriminate.
  - exact (proj1 (getCommitUrl_spec (JStr "fringemonkey") (JStr "cocs-bot") (JStr "")) eq_refl).
Defined.

Lemma not_na (a : string) (c : ascii) : c <> "A"%char -> a ++ String c "" <> "N/A".
Proof.
  intros Hc H. pose proof (get_last a c) as Hlast. rewrite H in Hlast.
  assert (Hlen : String.length a = 2%nat).
  { apply (f_equal String.length) in H. rewrite length_append in H. simpl in H. lia. }
  rewrite Hlen in Hlast. injection Hlast as <-. now elim Hc.
Qed.

(** Whatever the formatter returns for a truthy input ends in [s] or [m]. *)
Lemma formatBuildTime_truthy_not_na (seconds : Value) (text : string) :
  ToBoolean seconds = true -> formatBuildTime seconds = Normal text -> text <> "N/A".
Proof.
  unfold formatBuildTime. intros Ht. rewrite Ht. cbn [negb].
  destruct (ToNumber seconds) as [n | e]; cbn [bind]; [| discriminate].
  intros Htext ->.
  set (minutes := Number_toString (Math_floor (Number_div n 60))) in Htext.
  set (rest := Number_toString (Math_round (Number_rem n 60))) in Htext.
  destruct (Number_lt n (Fin 60)).
  - injection Htext as Htext. revert Htext. apply (not_na _ "s"%char). discriminate.
  - destruct (Number_eqb _ _).
    + injection Htext as Htext. revert Htext. apply (not_na _ "m"%char). discriminate.
    + assert (E : minutes ++ "m " ++ rest ++ "s" = (minutes ++ "m " ++ rest) ++ "s")
        by (now rewrite !append_assoc).
      change (Normal (minutes ++ "m " ++ rest ++ "s") = Normal "N/A") in Htext.
      rewrite E in Htext. injection Htext as Htext. revert Htext.
      apply (not_na _ "s"%char). discriminate.
Qed.

(** X7: the formatter answers ["N/A"] for the falsy inputs only: whenever
    it returns for a truthy input (a number, or a value it converts to one),
    the text ends in [s] or [m] and is not ["N/A"]. *)
Theorem formatBuildTime_not_available_iff_falsy (seconds : Value) (text : string) :
  formatBuildTime seconds = Normal text ->
  (text = "N/A" <-> ToBoolean seconds = false).
Proof.
  intros Htext. destruct (ToBoolean seconds) eqn:Ht.
  - split; [| discriminate]. intros E. exfalso.
    exact (formatBuildTime_truthy_not_na seconds text Ht Htext E).
  - unfold formatBuildTime in Htext. rewrite Ht in Htext. cbn [negb] in Htext.
    injection Htext as <-. split; reflexivity.
Qed.

Lemma formatBuildTime_not_available_iff_falsy_witness :
  ("1m 30s" = "N/A" <-> ToBoolean (JStr "90") = false)
  /\ ("N/A" = "N/A" <-> ToBoolean (JStr "") = false).
Proof.
  split.
  - exact (formatBuildTime_not_available_iff_falsy (JStr "90") "1m 30s" eq_refl).
  - exact (formatBuildTime_not_available_iff_falsy (JStr "") "N/A" eq_refl).
Defined.

Lemma whole_minutes (q : Q) :
  60 * inject_Z (Qfloor (q / 60)) <= q /\ q < 60 * inject_Z (Qfloor (q / 60)) + 60.
Proof.
  pose proof (Qfloor_le (q / 60)) as Hlo.
  pose proof (Qlt_floor (q / 60)) as Hhi.
  rewrite inject_Z_plus in Hhi. change (inject_Z 1) with 1 in Hhi.
  assert (H : q == 60 * (q / 60)) by field.
  split; lra.
Qed.

(** X8: for a Number from 60 up to [2 ^ 53] the minutes are at least 1
    and the seconds printed lie between 0 and 60, both included: the
    remainder is rounded after the minutes are taken, so 119.7 prints as
    ["1m 60s"], as 59.6 prints as ["60s"].  A negative Number down to
    [-(2 ^ 53 - 1)] is printed as its nearest integer, in seconds; beyond,
    the exponent notation of large Numbers shows. *)
Theorem formatBuildTime_ranges :
  (forall q, is_binary64 q = true -> 60 <= q -> q < inject_Z (2 ^ 53) ->
     exists m s,
       formatBuildTime (JNum (Fin q))
       = Normal (if (s =? 0)%Z then Spec.integer_text m ++ "m"
                 else Spec.integer_text m ++ "m " ++ Spec.integer_text s ++ "s")
       /\ (1 <= m)%Z /\ (0 <= s <= 60)%Z
       /\ inject_Z (60 * m) <= q /\ q < inject_Z (60 * m) + 60)
  /\ (forall q, is_binary64 q = true -> - inject_Z (2 ^ 53 - 1) <= q -> q < 0 ->
        formatBuildTime (JNum (Fin q)) = Normal (Spec.integer_text (Spec.nearest q) ++ "s")
        /\ (Spec.nearest q <= 0)%Z)
  /\ formatBuildTime (JNum (round64 119.7)) = Normal "1m 60s"
  /\ formatBuildTime (JNum (round64 59.6)) = Normal "60s"
  /\ formatBuildTime (JNum (Fin (-90))) = Normal "-90s"
  /\ formatBuildTime (JNum (Fin (- inject_Z (10 ^ 21)))) = Normal "-1e+21s".
Proof.
  split.
  { intros q Hdouble Hq Hmax.
    exists (Qfloor (q / 60)), (Spec.nearest (Spec.seconds_mod_60 q)).
    destruct (whole_minutes q) as [Hlo Hhi].
    split; [exact (formatBuildTime_minutes q Hdouble Hq Hmax) |].
    split.
    - assert (H : 1 <= q / 60) by (assert (q == 60 * (q / 60)) by field; lra).
      exact (Qfloor_resp_le 1 (q / 60) H).
    - split; [exact (seconds_range q) |].
      rewrite inject_Z_mult. change (inject_Z 60) with 60. split; lra. }
  split.
  { intros q _ Hmin Hq.
    assert (Hn : (- (2 ^ 53 - 1) <= Spec.nearest q <= 0)%Z).
    { unfold Spec.nearest. split.
      - assert (H : inject_Z (- (2 ^ 53 - 1)) <= q + (1 # 2)).
        { rewrite inject_Z_opp. lra. }
        apply Qfloor_resp_le in H. now rewrite Qfloor_Z in H.
      - assert (H : q + (1 # 2) <= 1 # 2) by lra.
        exact (Qfloor_resp_le _ (1 # 2) H). }
    split; [| lia].
    unfold formatBuildTime.
    assert (Ht : ToBoolean (JNum (Fin q)) = true).
    { simpl. destruct (Qeq_bool q 0) eqn:E; [| reflexivity].
      apply Qeq_bool_iff in E. lra. }
    rewrite Ht. cbn [negb ToNumber bind]. rewrite below_60 by lra.
    cbn [Math_round Number_toString]. fold (Spec.nearest q).
    unfold Spec.integer_text. rewrite Q_toString_integer by lia. reflexivity. }
  split; [vm_compute; reflexivity |].
  split; [vm_compute; reflexivity |].
  split; vm_compute; reflexivity.
Qed.

Lemma formatBuildTime_ranges_witness :
  (exists m s,
     formatBuildTime (JNum (Fin 3599.5))
     = Normal (if (s =? 0)%Z then Spec.integer_text m ++ "m"
               else Spec.integer_text m ++ "m " ++ Spec.integer_text s ++ "s")
     /\ (1 <= m)%Z /\ (0 <= s <= 60)%Z
     /\ inject_Z (60 * m) <= 3599.5 /\ 3599.5 < inject_Z (60 * m) + 60)
  /\ formatBuildTime (JNum (Fin (-0.25))) = Normal "0s".
Proof.
  destruct formatBuildTime_ranges as [Hlong [Hneg _]].
  split.
  - apply (Hlong 3599.5); [reflexivity | discriminate | reflexivity].
  - apply (Hneg (-0.25)); [reflexivity | discriminate | reflexivity].
Defined.

End Helpers.

(* ================================================================== *)
(** * The layout of the notification document *)
(* ================================================================== *)

Section RendererLayout.

Import Cloudflare Discord.

Ltac peel H :=
  match type of H with
  | bind ?c _ = Normal _ =>
      let E := fresh "E" in
      destruct c eqn:E; cbn [bind] in H; [| discriminate H]
  end.

(** One conditional push whose text comes from one computation. *)
Lemma optional_push (c : bool) (comp : Completion string) (mk : string -> EmbedField)
    (prev cur : list EmbedField) :
  (if c then x <- comp ;; Normal (push prev (mk x)) else Normal prev) = Normal cur ->
  exists x, cur = (prev ++ Spec.optional c (mk x))%list /\ (c = true -> comp = Normal x).
Proof.
  destruct c; intros H.
  - destruct comp as [x | e]; cbn [bind] in H; [| discriminate H].
    injection H as <-. exists x. split; [reflexivity | intros _; reflexivity].
  - injection H as <-. exists "". split.
    + cbn [Spec.optional]. now rewrite app_nil_r.
    + discriminate.
Qed.

(** The fields of a rendered document, push by push: each is there exactly
    when its condition holds, with the text its template gave. *)
Lemma createBuildEmbed_fields (info : DeploymentInfo) (embed : Embed) :
  createBuildEmbed info = Normal embed ->
  exists branchText commitText timeText messageValue deploymentText logsText errorText,
    fields embed =
      (Spec.optional (ToBoolean (branch info))
         {| name := "Branch"; value := JStr branchText; inline := true |}
       ++ Spec.optional (ToBoolean (commitHash info))
            {| name := "Commit"; value := JStr commitText; inline := true |}
       ++ Spec.optional (negb (strict_eq (buildTime info) JNull))
            {| name := "Build Time"; value := JStr timeText; inline := true |}
       ++ Spec.optional (ToBoolean (commitAuthor info))
            {| name := "Author"; value := commitAuthor info; inline := true |}
       ++ Spec.optional (ToBoolean (commitMessage info))
            {| name := "Commit Message"; value := messageValue; inline := false |}
       ++ Spec.optional (ToBoolean (deploymentUrl info))
            {| name := "Deployment"; value := JStr deploymentText; inline := true |}
       ++ Spec.optional (ToBoolean (buildLogsUrl info))
            {| name := "Build Logs"; value := JStr logsText; inline := true |}
       ++ Spec.optional (isFailure info && ToBoolean (error info))
            {| name := "Error Details"; value := JStr ("```" ++ errorText ++ "```");
               inline := false |})%list
    /\ (ToBoolean (branch info) = true ->
        template [L "`"; E (branch info); L "`"] = Normal branchText)
    /\ (ToBoolean (commitHash info) = true ->
        exists shortHash,
          substring_0 "commitHash" (commitHash info) 7 = Normal shortHash
          /\ (if ToBoolean (commitUrl info)
              then template [L "[`"; L shortHash; L "`]("; E (commitUrl info); L ")"]
              else template [L "`"; L shortHash; L "`"]) = Normal commitText)
    /\ (strict_eq (buildTime info) JNull = false ->
        formatBuildTime (buildTime info) = Normal timeText)
    /\ (ToBoolean (deploymentUrl info) = true ->
        template [L "[View Deployment]("; E (deploymentUrl info); L ")"] = Normal deploymentText)
    /\ (ToBoolean (buildLogsUrl info) = true ->
        template [L "[View Logs]("; E (buildLogsUrl info); L ")"] = Normal logsText)
    /\ (isFailure info && ToBoolean (error info) = true ->
        (if typeof (error info) =? "string" then substring_0 "error" (error info) 1000
         else match JSON_stringify (error info) with
              | Some text => substring_0 "JSON.stringify(...)" (JStr text) 1000
              | None => substring_0 "JSON.stringify(...)" JUndefined 1000
              end) = Normal errorText).
Proof.
  intros Hembed. unfold createBuildEmbed in Hembed. cbv zeta in Hembed.
  repeat peel Hembed. injection Hembed as <-. cbn [fields].
  match goal with
  | E3 : _ = Normal ?f1, E4 : _ = Normal ?f2, E5 : _ = Normal ?f3, E6 : _ = Normal ?f5,
    E7 : _ = Normal ?f6, E8 : _ = Normal ?f7, E9 : _ = Normal ?f8
    |- context [?f8 = _] =>
      rename E3 into Hbranch; rename E4 into Hcommit; rename E5 into Htime;
      rename E6 into Hmessage; rename E7 into Hdeployment; rename E8 into Hlogs;
      rename E9 into Herror
  end.
  destruct (optional_push _ _ _ _ _ Hbranch) as (branchText & -> & HB).
  destruct (optional_push _ _ _ _ _ Htime) as (timeText & -> & HT).
  destruct (optional_push _ _ _ _ _ Hdeployment) as (deploymentText & -> & HD).
  destruct (optional_push _ _ _ _ _ Hlogs) as (logsText & -> & HL).
  destruct (optional_push _ _ _ _ _ Herror) as (errorText & -> & HE).
  clear Hbranch Htime Hdeployment Hlogs Herror.
  match type of Hcommit with
  | _ = Normal ?f2 =>
      assert (HC : exists commitText,
                 f2 = (([] ++ Spec.optional (ToBoolean (branch info))
                          {| name := "Branch"; value := JStr branchText; inline := true |})
                       ++ Spec.optional (ToBoolean (commitHash info))
                            {| name := "Commit"; value := JStr commitText; inline := true |})%list
                 /\ (ToBoolean (commitHash info) = true ->
                     exists shortHash,
                       substring_0 "commitHash" (commitHash info) 7 = Normal shortHash
                       /\ (if ToBoolean (commitUrl info)
                           then template [L "[`"; L shortHash; L "`]("; E (commitUrl info); L ")"]
                           else template [L "`"; L shortHash; L "`"]) = Normal commitText))
  end.
  { destruct (ToBoolean (commitHash info)).
    - peel Hcommit. peel Hcommit. injection Hcommit as <-.
      eexists. split; [reflexivity |]. intros _. eexists. split; [reflexivity | eassumption].
    - injection Hcommit as <-. exists "". split; [| discriminate].
      cbn [Spec.optional]. now rewrite app_nil_r. }
  destruct HC as (commitText & -> & HC). clear Hcommit.
  assert (A : forall prev : list EmbedField,
             (if ToBoolean (commitAuthor info)
              then push prev {| name := "Author"; value := commitAuthor info; inline := true |}
              else prev)
             = (prev ++ Spec.optional (ToBoolean (commitAuthor info))
                  {| name := "Author"; value := commitAuthor info; inline := true |})%list).
  { intros prev. destruct (ToBoolean (commitAuthor info)); cbn [Spec.optional].
    - reflexivity.
    - now rewrite app_nil_r. }
  rewrite !A in Hmessage. clear A.
  match type of Hmessage with
  | context [push ?prev _] =>
      match type of Hmessage with
      | _ = Normal ?f5 =>
          assert (HM : exists messageValue,
                     f5 = (prev ++ Spec.optional (ToBoolean (commitMessage info))
                             {| name := "Commit Message"; value := messageValue;
                                inline := false |})%list)
      end
  end.
  { destruct (ToBoolean (commitMessage info)).
    - peel Hmessage. peel Hmessage. injection Hmessage as <-.
      eexists. reflexivity.
    - injection Hmessage as <-. exists JUndefined.
      cbn [Spec.optional]. now rewrite app_nil_r. }
  destruct HM as (messageValue & ->). clear Hmessage.
  exists branchText, commitText, timeText, messageValue, deploymentText, logsText, errorText.
  split.
  { cbn [app]. rewrite <- !app_assoc. reflexivity. }
  split; [exact HB |]. split; [exact HC |].
  split. { intros H. apply HT. now rewrite H. }
  split; [exact HD |]. split; [exact HL | exact HE].
Qed.

End RendererLayout.

(* ================================================================== *)
(** * The fields of the notification document *)
(* ================================================================== *)

Section RendererFields.

Import Cloudflare Discord.

Lemma map_layout_optional (c : bool) (f : EmbedField) :
  map Spec.layout (Spec.optional c f) = if c then [(name f, inline f)] else [].
Proof. now destruct c. Qed.

Lemma length_optional (c : bool) (f : EmbedField) :
  (List.length (Spec.optional c f) <= 1)%nat.
Proof. destruct c; simpl; lia. Qed.

Lemma filter_optional (n : string) (c : bool) (f : EmbedField) :
  filter (Spec.named n) (Spec.optional c f) = Spec.optional (c && (name f =? n)) f.
Proof.
  destruct c; cbn [Spec.optional filter andb]; [| reflexivity].
  unfold Spec.named. now destruct (name f =? n).
Qed.

Lemma substring_0_Normal (expr : string) (v : Value) (n : nat) (text : string) :
  substring_0 expr v n = Normal text -> exists s, v = JStr s /\ text = substring 0 n s.
Proof.
  destruct v; simpl; intros H; try discriminate H.
  injection H as <-. eauto.
Qed.

(** X9: the fields of a rendered document are a selection of eight fixed
    fields in a fixed order (Branch, Commit, Build Time, Author, Commit
    Message, Deployment, Build Logs, Error Details), each chosen by its own
    condition; Commit Message and Error Details are the two that are not
    inline; no name occurs twice. *)
Theorem createBuildEmbed_layout (info : DeploymentInfo) (embed : Embed) :
  createBuildEmbed info = Normal embed ->
  map Spec.layout (fields embed) = Spec.field_plan info
  /\ (List.length (fields embed) <= 8)%nat
  /\ NoDup (map name (fields embed)).
Proof.
  intros H.
  destruct (createBuildEmbed_fields info embed H) as (b & c & t & m & d & l & e & -> & _).
  split; [| split].
  - rewrite !map_app, !map_layout_optional. reflexivity.
  - rewrite !length_app.
    repeat match goal with
           | |- context [List.length (Spec.optional ?c ?f)] =>
               let L := fresh "L" in
               pose proof (length_optional c f) as L;
               let n := fresh "n" in
               set (n := List.length (Spec.optional c f)) in *
           end.
    lia.
  - destruct (ToBoolean (branch info)), (ToBoolean (commitHash info)),
      (negb (strict_eq (buildTime info) JNull)), (ToBoolean (commitAuthor info)),
      (ToBoolean (commitMessage info)), (ToBoolean (deploymentUrl info)),
      (ToBoolean (buildLogsUrl info)), (isFailure info && ToBoolean (error info));
      cbn [Spec.optional app map name];
      repeat match goal with
             | |- NoDup [] => constructor
             | |- NoDup (_ :: _) => constructor; [cbn [In]; intuition discriminate |]
             end.
Qed.

Lemma createBuildEmbed_layout_witness :
  exists embed,
    createBuildEmbed (Spec.resolved Examples.t0 Examples.long_message_event) = Normal embed
    /\ map Spec.layout (fields embed)
       = [("Branch", true); ("Commit", true); ("Commit Message", false)].
Proof.
  destruct (createBuildEmbed (Spec.resolved Examples.t0 Examples.long_message_event))
    as [embed | e] eqn:E; [| discriminate E].
  exists embed. split; [reflexivity |].
  exact (proj1 (createBuildEmbed_layout _ embed E)).
Defined.

(** X10: the Error Details field is there exactly for a failure with a
    truthy [error]; its text is the first 1000 characters of the error (of
    its JSON text when it is not a string) between two code fences, so the
    quoted text never exceeds 1000 characters. *)
Theorem createBuildEmbed_error_details (info : DeploymentInfo) (embed : Embed) :
  createBuildEmbed info = Normal embed ->
  exists text,
    filter (Spec.named "Error Details") (fields embed)
    = Spec.optional (isFailure info && ToBoolean (error info))
        {| name := "Error Details"; value := JStr ("```" ++ text ++ "```"); inline := false |}
    /\ (String.length text <= 1000)%nat
    /\ (isFailure info && ToBoolean (error info) = true ->
        (forall s, error info = JStr s -> text = substring 0 1000 s)
        /\ ((typeof (error info) =? "string") = false ->
            exists json, JSON_stringify (error info) = Some json
                         /\ text = substring 0 1000 json)).
Proof.
  intros H.
  destruct (createBuildEmbed_fields info embed H)
    as (b & c & t & m & d & l & e & -> & _ & _ & _ & _ & _ & He).
  rewrite !filter_app, !filter_optional.
  cbn [name String.eqb Ascii.eqb Bool.eqb]. rewrite !andb_false_r, andb_true_r.
  cbn [Spec.optional app].
  destruct (isFailure info && ToBoolean (error info)) eqn:Hcond.
  - specialize (He eq_refl). exists e. split; [reflexivity |].
    assert (Hsub : exists s, e = substring 0 1000 s).
    { destruct (typeof (error info) =? "string").
      - destruct (substring_0_Normal _ _ _ _ He) as (s & _ & ->). eauto.
      - destruct (JSON_stringify (error info)) as [json |].
        + destruct (substring_0_Normal _ _ _ _ He) as (s & _ & ->). eauto.
        + discriminate He. }
    split.
    { destruct Hsub as [s ->]. rewrite length_substring_0. lia. }
    intros _. split.
    + intros s Hs. rewrite Hs in He. cbn in He. now injection He as <-.
    + intros Htype. rewrite Htype in He.
      destruct (JSON_stringify (error info)) as [json |]; [| discriminate He].
      exists json. split; [reflexivity |]. cbn in He. now injection He as <-.
  - exists "". split; [reflexivity |]. split; [simpl; lia | discriminate].
Qed.

Lemma createBuildEmbed_error_details_witness :
  exists embed text,
    createBuildEmbed
      (Spec.resolved Examples.t0
         (JObj [("status", JStr "failure"); ("error", JObj [("code", num 1)])]))
    = Normal embed
    /\ filter (Spec.named "Error Details") (fields embed)
       = [{| name := "Error Details"; value := JStr ("```" ++ text ++ "```");
             inline := false |}]
    /\ (String.length text <= 1000)%nat.
Proof.
  destruct (createBuildEmbed
              (Spec.resolved Examples.t0
                 (JObj [("status", JStr "failure"); ("error", JObj [("code", num 1)])])))
    as [embed | e] eqn:E; [| discriminate E].
  destruct (createBuildEmbed_error_details _ embed E) as (text & Hfilter & Hlen & _).
  exists embed, text. split; [reflexivity |]. split; [exact Hfilter | exact Hlen].
Defined.

(** X11: the Commit field is there exactly for a truthy commit hash, which
    must then be a string; it shows the first seven characters of the hash,
    the text [getShortCommitHash] returns, as inline code, and as a link
    when the record has a commit URL. *)
Theorem createBuildEmbed_commit_field (info : DeploymentInfo) (embed : Embed) :
  createBuildEmbed info = Normal embed ->
  (ToBoolean (commitHash info) = false -> filter (Spec.named "Commit") (fields embed) = [])
  /\ (ToBoolean (commitHash info) = true ->
      exists hash text,
        commitHash info = JStr hash
        /\ getShortCommitHash (commitHash info) = Normal (substring 0 7 hash)
        /\ filter (Spec.named "Commit") (fields embed)
           = [{| name := "Commit"; value := JStr text; inline := true |}]
        /\ (ToBoolean (commitUrl info) = false -> text = "`" ++ substring 0 7 hash ++ "`")
        /\ (forall url, commitUrl info = JStr url -> url <> "" ->
            text = "[`" ++ substring 0 7 hash ++ "`](" ++ url ++ ")")).
Proof.
  intros H.
  destruct (createBuildEmbed_fields info embed H)
    as (b & c & t & m & d & l & e & -> & _ & Hc & _).
  rewrite !filter_app, !filter_optional.
  cbn [name String.eqb Ascii.eqb Bool.eqb]. rewrite !andb_false_r, andb_true_r.
  cbn [Spec.optional app].
  split.
  - intros ->. reflexivity.
  - intros Hhash. destruct (Hc Hhash) as (short & Hshort & Htext).
    destruct (substring_0_Normal _ _ _ _ Hshort) as (hash & Hh & ->).
    exists hash, c. rewrite Hhash. split; [exact Hh |].
    split. { unfold getShortCommitHash. rewrite Hhash. exact Hshort. }
    split; [reflexivity |]. split.
    + intros Hurl. rewrite Hurl in Htext. cbn in Htext.
      now injection Htext as <-.
    + intros url Hurl Hne. rewrite Hurl in Htext.
      destruct url as [| ch url]; [now elim Hne |].
      cbn [ToBoolean] in Htext. cbn in Htext.
      injection Htext as <-. reflexivity.
Qed.

Lemma createBuildEmbed_commit_field_witness :
  exists embed,
    createBuildEmbed (Spec.resolved Examples.t0 Examples.long_message_event) = Normal embed
    /\ filter (Spec.named "Commit") (fields embed)
       = [{| name := "Commit"; value := JStr "`abcdef1`"; inline := true |}].
Proof.
  destruct (createBuildEmbed (Spec.resolved Examples.t0 Examples.long_message_event))
    as [embed | e] eqn:E; [| discriminate E].
  destruct (proj2 (createBuildEmbed_commit_field _ embed E) eq_refl)
    as (hash & text & Hhash & _ & Hfilter & Hplain & _).
  exists embed. split; [reflexivity |].
  injection Hhash as <-. rewrite Hfilter, (Hplain eq_refl). reflexivity.
Defined.

End RendererFields.

(* ================================================================== *)
(** * What the renderer throws *)
(* ================================================================== *)

Section RendererErrors.

Import Cloudflare Discord.

Lemma ToString_throws :
  forall (v : Value) (e : Error), ToString v = Throw e -> JS.name e = "TypeError".
Proof.
  fix IH 1. intros [ | | [|] | n | s | items | props] e; cbn [ToString]; try discriminate.
  - revert e. induction items as [| x rest IHrest]; intros e; [discriminate |].
    destruct (is_nullish x).
    + cbn [bind]. destruct rest as [| y rest']; [discriminate |].
      match goal with
      | |- bind ?c _ = _ -> _ => destruct c as [tail | e'] eqn:E; cbn [bind]
      end; [discriminate |].
      intros [= <-]. now apply IHrest.
    + destruct (ToString x) as [first | e'] eqn:Ex; cbn [bind].
      * destruct rest as [| y rest']; [discriminate |].
        match goal with
        | |- bind ?c _ = _ -> _ => destruct c as [tail | e''] eqn:E; cbn [bind]
        end; [discriminate |].
        intros [= <-]. now apply IHrest.
      * intros [= <-]. exact (IH x e' Ex).
  - destruct (has_own props "toString"); [| discriminate].
    intros [= <-]. reflexivity.
Qed.

Lemma template_throws (parts : list Part) (e : Error) :
  template parts = Throw e -> JS.name e = "TypeError".
Proof.
  revert e. induction parts as [| [chunk | v] rest IH]; intros e; cbn [template];
    [discriminate | |].
  - destruct (template rest) as [tail | e']; cbn [bind]; [discriminate |].
    intros [= <-]. now apply IH.
  - destruct (ToString v) as [s | e'] eqn:Ev; cbn [bind].
    + destruct (template rest) as [tail | e'']; cbn [bind]; [discriminate |].
      intros [= <-]. now apply IH.
    + intros [= <-]. exact (ToString_throws v e' Ev).
Qed.

Lemma ToNumber_throws (v : Value) (e : Error) :
  ToNumber v = Throw e -> JS.name e = "TypeError".
Proof.
  destruct v as [ | | [|] | n | s | items | props]; cbn [ToNumber]; try discriminate;
    match goal with
    | |- bind (ToString ?v) _ = _ -> _ =>
        destruct (ToString v) as [s | e'] eqn:Ev; cbn [bind]; [discriminate |];
        intros [= <-]; exact (ToString_throws v e' Ev)
    end.
Qed.

Lemma substring_0_throws (expr : string) (v : Value) (n : nat) (e : Error) :
  substring_0 expr v n = Throw e -> JS.name e = "TypeError".
Proof. destruct v; cbn [substring_0]; try discriminate; intros [= <-]; reflexivity. Qed.

Lemma gt_200_throws (x : Value) (e : Error) :
  gt_200 x = Throw e -> JS.name e = "TypeError".
Proof.
  unfold gt_200. destruct (ToNumber x) as [n | e'] eqn:E; cbn [bind]; [discriminate |].
  intros [= <-]. exact (ToNumber_throws x e' E).
Qed.

Lemma formatBuildTime_throws (seconds : Value) (e : Error) :
  Discord.formatBuildTime seconds = Throw e -> JS.name e = "TypeError".
Proof.
  unfold Discord.formatBuildTime. destruct (negb (ToBoolean seconds)); [discriminate |].
  destruct (ToNumber seconds) as [n | e'] eqn:E; cbn [bind].
  - destruct (Number_lt n (Fin 60)); [discriminate |].
    destruct (Number_eqb _ _); discriminate.
  - intros [= <-]. exact (ToNumber_throws seconds e' E).
Qed.

(** Whatever a step of the renderer throws is a TypeError. *)
Ltac thrown H :=
  lazymatch type of H with
  | Normal _ = Throw _ => discriminate H
  | Throw _ = Throw _ => injection H as <-; reflexivity
  | template _ = Throw _ => exact (template_throws _ _ H)
  | substring_0 _ _ _ = Throw _ => exact (substring_0_throws _ _ _ _ H)
  | gt_200 _ = Throw _ => exact (gt_200_throws _ _ H)
  | Discord.formatBuildTime _ = Throw _ => exact (formatBuildTime_throws _ _ H)
  | bind ?c _ = Throw _ =>
      let E := fresh "E" in
      destruct c eqn:E; cbn [bind] in H;
      [thrown H | injection H as <-; thrown E]
  | (if ?b then _ else _) = Throw _ => destruct b; thrown H
  | match ?x with _ => _ end = Throw _ => destruct x; thrown H
  end.

Lemma createBuildEmbed_throws (info : DeploymentInfo) (e : Error) :
  createBuildEmbed info = Throw e -> JS.name e = "TypeError".
Proof.
  intros H. unfold createBuildEmbed in H. cbv zeta in H. thrown H.
Qed.

(** Only a string has [substring]: a truthy commit hash of another type
    stops the renderer. *)
Lemma createBuildEmbed_needs_text_hash (info : DeploymentInfo) :
  ToBoolean (commitHash info) = true ->
  (typeof (commitHash info) =? "string") = false ->
  exists e, createBuildEmbed info = Throw e /\ JS.name e = "TypeError".
Proof.
  intros Hhash Htype.
  destruct (createBuildEmbed info) as [embed | e] eqn:H.
  - destruct (createBuildEmbed_fields info embed H)
      as (b & c & t & m & d & l & x & _ & _ & Hc & _).
    destruct (Hc Hhash) as (short & Hshort & _).
    destruct (commitHash info); try discriminate Hshort. discriminate Htype.
  - exists e. split; [reflexivity | exact (createBuildEmbed_throws info e H)].
Qed.

(** X12: the renderer throws nothing but TypeErrors, and only at records
    outside the data model; a truthy commit hash that is not a string (a
    number, say) is one case where it always throws, because only a string
    has [substring]. *)
Theorem createBuildEmbed_failure_modes (info : DeploymentInfo) :
  (forall e, createBuildEmbed info = Throw e ->
     JS.name e = "TypeError" /\ Spec.renderable info = false)
  /\ (ToBoolean (commitHash info) = true ->
      (typeof (commitHash info) =? "string") = false ->
      exists e, createBuildEmbed info = Throw e).
Proof.
  split.
  - intros e H. split; [exact (createBuildEmbed_throws info e H) |].
    destruct (Spec.renderable info) eqn:R; [| reflexivity].
    destruct (createBuildEmbed_returns info R) as [embed Hembed]. congruence.
  - intros Hhash Htype.
    destruct (createBuildEmbed_needs_text_hash info Hhash Htype) as (e & He & _). eauto.
Qed.

Lemma createBuildEmbed_failure_modes_witness :
  exists e,
    createBuildEmbed
      (Spec.resolved Examples.t0 (JObj [("status", JStr "success"); ("commit_hash", num 1234567)]))
    = Throw e
    /\ JS.name e = "TypeError".
Proof.
  destruct (proj2 (createBuildEmbed_failure_modes
                     (Spec.resolved Examples.t0
                        (JObj [("status", JStr "success"); ("commit_hash", num 1234567)])))
              eq_refl eq_refl) as [e He].
  exists e. split; [exact He |].
  exact (proj1 (proj1 (createBuildEmbed_failure_modes _) e He)).
Defined.

Ltac peel H :=
  match type of H with
  | bind ?c _ = Normal _ =>
      let E := fresh "E" in
      destruct c eqn:E; cbn [bind] in H; [| discriminate H]
  end.

(** The head of a rendered document. *)
Lemma createBuildEmbed_header (info : DeploymentInfo) (embed : Embed) :
  createBuildEmbed info = Normal embed ->
  color embed = (if isSuccess info then 65280
                 else if isFailure info then 16711680 else 16776960)%Z
  /\ timestamp embed = createdAt info
  /\ (if isFailure info && ToBoolean (errorMessage info)
      then template [L "**Error:** "; E (errorMessage info)]
      else if isSuccess info then Normal "Build completed successfully"
           else template [L "Build status: "; E (status info)]) = Normal (description embed).
Proof.
  intros H. unfold createBuildEmbed in H. cbv zeta in H.
  repeat peel H. injection H as <-. cbn [color timestamp description].
  repeat split.
Qed.

Lemma In_optional (c : bool) (f g : EmbedField) :
  In f (Spec.optional c g) -> c = true /\ f = g.
Proof. destruct c; simpl; [intros [-> | []]; split; reflexivity | intros []]. Qed.

(** X13: what the renderer shows of a normalized event, whatever commit URL
    the handler has stored in it.  Branch is always the first field (the
    normalizer defaults it); a Build Time field never reads [N/A], because
    the normalizer turns every falsy build time into [null], which omits the
    field; a success is green with the fixed sentence, a failure red, with
    the sentence [Build status: failure] when it has no error message. *)
Theorem render_of_parsed_event (now : string) (payload url : Value)
    (info : DeploymentInfo) (embed : Embed) :
  parseDeploymentEvent now payload = Normal info ->
  createBuildEmbed (Worker.set_commitUrl info url) = Normal embed ->
  (exists text rest,
     fields embed = {| name := "Branch"; value := JStr text; inline := true |} :: rest
     /\ template [L "`"; E (branch info); L "`"] = Normal text)
  /\ (forall f, In f (fields embed) -> name f = "Build Time" -> value f <> JStr "N/A")
  /\ (isSuccess info = true ->
      color embed = 65280%Z /\ description embed = "Build completed successfully")
  /\ (isFailure info = true ->
      color embed = 16711680%Z
      /\ (ToBoolean (errorMessage info) = false ->
          description embed = "Build status: failure")).
Proof.
  intros Hparse Hembed.
  apply parseDeploymentEvent_Normal in Hparse.
  assert (Hbranch : ToBoolean (branch info) = true).
  { subst info. apply first_truthy_truthy. reflexivity. }
  assert (Htime : buildTime info = JNull \/ ToBoolean (buildTime info) = true).
  { subst info. apply first_truthy_default. }
  assert (HclassS : isSuccess info = true -> status info = JStr "success").
  { subst info. cbn [isSuccess status Spec.resolved]. intros H.
    now apply classification_of_status in H. }
  assert (HclassF : isFailure info = true -> status info = JStr "failure").
  { subst info. cbn [isFailure status Spec.resolved]. intros H.
    now apply classification_of_status in H. }
  assert (Hexclusive : isSuccess info = true -> isFailure info = true -> False).
  { intros Hs Hf. specialize (HclassS Hs). specialize (HclassF Hf). congruence. }
  destruct (createBuildEmbed_fields _ embed Hembed)
    as (b & c & t & m & d & l & x & Hfields & Hb & _ & Ht & _).
  destruct (createBuildEmbed_header _ embed Hembed) as (Hcolor & _ & Hdescription).
  cbn [Worker.set_commitUrl branch buildTime commitHash commitAuthor commitMessage
       deploymentUrl buildLogsUrl isFailure isSuccess error errorMessage status]
    in Hfields, Hb, Ht, Hcolor, Hdescription.
  split; [| split; [| split]].
  - rewrite Hfields, Hbranch. cbn [Spec.optional app]. eexists. eexists.
    split; [reflexivity | now apply Hb].
  - intros f Hin Hname. rewrite Hfields in Hin.
    repeat (apply in_app_or in Hin; destruct Hin as [Hin | Hin]);
      apply In_optional in Hin; destruct Hin as [Hc ->]; try discriminate Hname.
    cbn [value]. intros [= ->].
    apply negb_true_iff in Hc. specialize (Ht Hc).
    destruct Htime as [E | E]; [rewrite E in Hc; discriminate Hc |].
    exact (formatBuildTime_truthy_not_na _ _ E Ht eq_refl).
  - intros Hs.
    assert (Hf : isFailure info = false).
    { destruct (isFailure info) eqn:Hf; [| reflexivity]. now elim Hexclusive. }
    rewrite Hs in Hcolor. split; [exact Hcolor |].
    rewrite Hs, Hf in Hdescription. cbn [andb] in Hdescription.
    now injection Hdescription as <-.
  - intros Hf.
    assert (Hs : isSuccess info = false).
    { destruct (isSuccess info) eqn:Hs; [| reflexivity]. now elim Hexclusive. }
    rewrite Hs, Hf in Hcolor. split; [exact Hcolor |].
    intros Hmessage. rewrite Hs, Hf, Hmessage, (HclassF Hf) in Hdescription.
    cbn [andb] in Hdescription. now injection Hdescription as <-.
Qed.

Lemma render_of_parsed_event_witness :
  exists embed text rest,
    createBuildEmbed
      (Worker.set_commitUrl
         (Spec.resolved Examples.t0 (JObj [("status", JStr "failure"); ("build_time", num 0)]))
         (JStr ""))
    = Normal embed
    /\ fields embed = {| name := "Branch"; value := JStr text; inline := true |} :: rest
    /\ color embed = 16711680%Z
    /\ description embed = "Build status: failure".
Proof.
  destruct (createBuildEmbed
              (Worker.set_commitUrl
                 (Spec.resolved Examples.t0
                    (JObj [("status", JStr "failure"); ("build_time", num 0)]))
                 (JStr "")))
    as [embed | e] eqn:E; [| discriminate E].
  destruct (render_of_parsed_event Examples.t0
              (JObj [("status", JStr "failure"); ("build_time", num 0)]) (JStr "")
              _ embed eq_refl E) as ((text & rest & Hfields & _) & _ & _ & Hfailure).
  exists embed, text, rest. split; [reflexivity |]. split; [exact Hfields |].
  split; [exact (proj1 (Hfailure eq_refl)) | exact (proj2 (Hfailure eq_refl) eq_refl)].
Defined.

End RendererErrors.

(* ================================================================== *)
(** * The REST client *)
(* ================================================================== *)

Section Client.

Import Cloudflare Discord.


(** [sendMessage] when its URL and its header can be built: one call, and
    the reply decides. *)
Lemma sendMessage_run (bot : DiscordBot) (channelId messageData : Value) (w : World)
    (url authorization : string) :
  template [L (apiBase bot); L "/channels/"; E channelId; L "/messages"] = Normal url ->
  template [L "Bot "; E (token bot)] = Normal authorization ->
  sendMessage bot channelId messageData w =
  ([{| url := url;
       method := "POST";
       headers := [("Authorization", authorization);
                   ("Content-Type", "application/json");
                   ("User-Agent", "COCS-Bot/1.0")];
       body := JSON_stringify messageData |}],
   match remote w {| url := url;
                     method := "POST";
                     headers := [("Authorization", authorization);
                                 ("Content-Type", "application/json");
                                 ("User-Agent", "COCS-Bot/1.0")];
                     body := JSON_stringify messageData |} with
   | Throw e => Throw e
   | Normal reply =>
       if ok reply then json reply
       else Throw (new_Error ("Discord API error: " ++ decimal (Runtime.status reply) ++ " "
                              ++ statusText reply ++ " - " ++ text reply))
   end).
Proof.
  intros Hurl Hauth.
  unfold sendMessage, getHeaders, await, lift, Runtime.fetch, throw.
  rewrite Hurl, Hauth. cbn [bind app].
  match goal with
  | |- context [remote w ?c] => destruct (remote w c) as [reply | e]
  end; [| reflexivity].
  destruct (ok reply); reflexivity.
Qed.


(** X14: [sendMessage] makes at most one call.  It makes none exactly when
    the URL or the authorization header cannot be built, that is when the
    channel or the token cannot be converted to text, and it then throws
    that TypeError (the channel's, when both fail); otherwise it makes
    exactly one call, a POST of the message's JSON text to
    [/channels/<channel>/messages] of the Discord API with the bot's
    authorization, and the method returns the parsed body of a reply in
    200..299 only: any other reply is thrown as an error that quotes its
    status and text, and a failed call or an unreadable body is thrown as
    it is. *)
Theorem sendMessage_outcomes (botToken channelId messageData : Value) (w : World) :
  match ToString channelId, template [L "Bot "; E botToken] with
  | Throw e, _ | Normal _, Throw e =>
      sendMessage (new_DiscordBot botToken) channelId messageData w = ([], Throw e)
      /\ JS.name e = "TypeError"
  | Normal channel, Normal authorization =>
      let call := Spec.message_call authorization channel messageData in
      sendMessage (new_DiscordBot botToken) channelId messageData w
      = ([call],
         match remote w call with
         | Throw e => Throw e
         | Normal reply =>
             if ok reply then json reply
             else Throw (new_Error ("Discord API error: "
                                    ++ decimal (Runtime.status reply) ++ " "
                                    ++ statusText reply ++ " - " ++ text reply))
         end)
      /\ method call = "POST"
      /\ body call = JSON_stringify messageData
      /\ prefix "https://discord.com/api/v10/channels/" (url call) = true
      /\ headers call = [("Authorization", authorization);
                         ("Content-Type", "application/json");
                         ("User-Agent", "COCS-Bot/1.0")]
  end
  /\ (fst (sendMessage (new_DiscordBot botToken) channelId messageData w) = []
      <-> (forall channel authorization,
             ToString channelId = Normal channel ->
             template [L "Bot "; E botToken] = Normal authorization -> False))
  /\ (length (fst (sendMessage (new_DiscordBot botToken) channelId messageData w)) <= 1)%nat.
Proof.
  assert (Hurl : template [L (apiBase (new_DiscordBot botToken)); L "/channels/";
                           E channelId; L "/messages"]
                 = bind (ToString channelId) (fun channel =>
                     Normal ("https://discord.com/api/v10/channels/"
                             ++ channel ++ "/messages"))).
  { cbn [template apiBase new_DiscordBot].
    destruct (ToString channelId) as [channel | e]; cbn [bind]; [| reflexivity].
    rewrite append_empty_r. reflexivity. }
  destruct (ToString channelId) as [channel | e] eqn:Hchannel.
  - cbn [bind] in Hurl.
    destruct (template [L "Bot "; E botToken]) as [authorization | e] eqn:Hauth.
    + pose proof (sendMessage_run (new_DiscordBot botToken) channelId messageData w
                    _ authorization Hurl Hauth) as Hrun.
      fold (Spec.message_call authorization channel messageData) in Hrun.
      split; [| split].
      * cbv zeta. split; [exact Hrun |].
        split; [reflexivity |]. split; [reflexivity |].
        split; [| reflexivity].
        unfold Spec.message_call. cbn [Runtime.url]. apply prefix_append.
      * rewrite Hrun. cbn [fst]. split; [discriminate |].
        intros Hnot. elim (Hnot channel authorization eq_refl eq_refl).
      * rewrite Hrun. cbn [fst length]. lia.
    + assert (Hrun : sendMessage (new_DiscordBot botToken) channelId messageData w
                     = ([], Throw e)).
      { unfold sendMessage, getHeaders, await, lift, Runtime.fetch, throw.
        rewrite Hurl. cbn [token new_DiscordBot]. rewrite Hauth. reflexivity. }
      split; [| split].
      * split; [exact Hrun | exact (template_throws _ _ Hauth)].
      * rewrite Hrun. cbn [fst]. split; [discriminate | reflexivity].
      * rewrite Hrun. cbn [fst length]. lia.
  - cbn [bind] in Hurl.
    assert (Hrun : sendMessage (new_DiscordBot botToken) channelId messageData w
                   = ([], Throw e)).
    { unfold sendMessage, getHeaders, await, lift, Runtime.fetch, throw.
      rewrite Hurl. reflexivity. }
    split; [| split].
    + split; [exact Hrun | exact (ToString_throws _ _ Hchannel)].
    + rewrite Hrun. cbn [fst]. split; [discriminate | reflexivity].
    + rewrite Hrun. cbn [fst length]. lia.
Qed.

(** X15: the two reads of the client, [getBotUser] and [getChannel].  When
    the channel (for [getChannel]) or the token cannot be converted to text
    they make no call and throw that TypeError; otherwise each makes exactly
    one GET without a body, to [/users/@me] and to the channel's URL, with
    the bot's authorization, returns the parsed body of a reply in 200..299
    only and throws an error naming the status of any other reply. *)
Theorem client_reads (botToken channelId : Value) (w : World) :
  Spec.read_outcome w botToken "https://discord.com/api/v10/users/@me"
    "Failed to get bot user: "
    (fst (getBotUser (new_DiscordBot botToken) w))
    (snd (getBotUser (new_DiscordBot botToken) w))
  /\ match ToString channelId with
     | Normal channel =>
         Spec.read_outcome w botToken
           ("https://discord.com/api/v10/channels/" ++ channel)
           "Failed to get channel: "
           (fst (getChannel (new_DiscordBot botToken) channelId w))
           (snd (getChannel (new_DiscordBot botToken) channelId w))
     | Throw e =>
         getChannel (new_DiscordBot botToken) channelId w = ([], Throw e)
         /\ JS.name e = "TypeError"
     end.
Proof.
  split.
  - unfold getBotUser, getHeaders, await, lift, Runtime.fetch, throw, Spec.read_outcome,
      Spec.read_call.
    cbn [token apiBase new_DiscordBot].
    remember (template [L "Bot "; E botToken]) as auth eqn:Hauth. symmetry in Hauth.
    cbn [template bind app DISCORD_API_BASE append].
    destruct auth as [authorization | e]; cbn [bind app fst snd].
    2:{ split; [reflexivity |]. split; [reflexivity | exact (template_throws _ _ Hauth)]. }
    match goal with
    | |- context [remote w ?c] => destruct (remote w c) as [reply | e]
    end; cbn [fst snd app]; [| split; reflexivity].
    destruct (ok reply); cbn [negb fst snd app]; split; reflexivity.
  - unfold getChannel, getHeaders, await, lift, Runtime.fetch, throw, Spec.read_outcome,
      Spec.read_call.
    cbn [token apiBase new_DiscordBot].
    remember (template [L "Bot "; E botToken]) as auth eqn:Hauth. symmetry in Hauth.
    cbn [template bind app].
    destruct (ToString channelId) as [channel | e] eqn:Hchannel; cbn [bind app].
    2:{ split; [reflexivity | exact (ToString_throws _ _ Hchannel)]. }
    rewrite append_empty_r. cbn [DISCORD_API_BASE append].
    destruct auth as [authorization | e]; cbn [bind app fst snd].
    2:{ split; [reflexivity |]. split; [reflexivity | exact (template_throws _ _ Hauth)]. }
    match goal with
    | |- context [remote w ?c] => destruct (remote w c) as [reply | e]
    end; cbn [fst snd app]; [| split; reflexivity].
    destruct (ok reply); cbn [negb fst snd app]; split; reflexivity.
Qed.

End Client.

(* ================================================================== *)
(** * Every answer of the handler *)
(* ================================================================== *)

Section HandlerOutcomes.

Import Cloudflare Discord Worker.

Lemma await_unfold {A B : Type} (m : IO A) (k : A -> IO B) (w : World) :
  await m k w =
  match m w with
  | (calls, Normal a) => let '(calls', r) := k a w in ((calls ++ calls')%list, r)
  | (calls, Throw e) => (calls, Throw e)
  end.
Proof. reflexivity. Qed.













End HandlerOutcomes.

(* ================================================================== *)
(** * The two copies of the handler *)
(* ================================================================== *)

Section Copies.

Import Cloudflare Discord.






End Copies.

(* ================================================================== *)
(** * The router *)
(* ================================================================== *)

Section Router.

Import Cloudflare Discord.

Lemma handleWebhook_returns (request : Request) (env : Env) (w : World) :
  exists calls response, Worker.handleWebhook request env w = (calls, Normal response).
Proof.
  unfold Worker.handleWebhook, try_catch.
  destruct (Worker.handleWebhook_try request env w) as [calls [r | e]];
    [eauto | unfold ret; eexists; eexists; reflexivity].
Qed.

(** X20: the routes of [src/index.js].  Only a POST to [/webhook] or [/]
    reaches the handler, and the worker then answers what the handler
    answers.  Every other request is answered without a call and without a
    look at the request's headers or body, the bindings or the network:
    200 for a GET or HEAD of [/health] only, 204 for the preflight of the
    webhook paths only, 404 for every other path, and 405 for the rest. *)
Theorem fetch_routes (method pathname : string) :
  (method = "POST" -> pathname = "/webhook" \/ pathname = "/" ->
   forall request env w,
   exists calls response,
     Worker.handleWebhook request env w = (calls, Normal response)
     /\ Worker.fetch method pathname request env w = (calls, Normal (Worker.Json response)))
  /\ (~ (method = "POST" /\ (pathname = "/webhook" \/ pathname = "/")) ->
      exists answer,
        (forall request env w,
           Worker.fetch method pathname request env w = ([], Normal answer))
        /\ In (Worker.answer_status answer) [200; 204; 404; 405]%Z
        /\ (Worker.answer_status answer = 200%Z
            <-> pathname = "/health" /\ (method = "GET" \/ method = "HEAD"))
        /\ (Worker.answer_status answer = 204%Z
            <-> method = "OPTIONS" /\ (pathname = "/webhook" \/ pathname = "/"))
        /\ (Worker.answer_status answer = 404%Z
            <-> pathname <> "/health" /\ pathname <> "/webhook" /\ pathname <> "/")).
Proof.
  split.
  - intros -> Hpath request env w.
    destruct (handleWebhook_returns request env w) as (calls & response & Hrun).
    exists calls, response. split; [exact Hrun |].
    unfold Worker.fetch.
    destruct Hpath as [-> | ->]; cbn [String.eqb Ascii.eqb Bool.eqb orb negb];
      rewrite await_unfold, Hrun; unfold ret; now rewrite app_nil_r.
  - intros Hnot. unfold Worker.fetch.
    destruct (String.eqb_spec pathname "/health") as [-> | Hhealth].
    { destruct (String.eqb_spec method "GET") as [-> | Hget]; cbn [negb andb].
      - eexists. split; [reflexivity |]. cbn. repeat split; intros; try tauto; try lia;
          try discriminate; intuition discriminate.
      - destruct (String.eqb_spec method "HEAD") as [-> | Hhead]; cbn [negb].
        + eexists. split; [reflexivity |]. cbn. repeat split; intros; try tauto; try lia;
            try discriminate; intuition discriminate.
        + eexists. split; [reflexivity |]. cbn. repeat split; intros; try tauto; try lia;
            try discriminate; intuition (try discriminate; try congruence). }
    destruct (String.eqb_spec pathname "/webhook") as [Hw | Hw];
      destruct (String.eqb_spec pathname "/") as [Hr | Hr]; cbn [orb].
    4:{ eexists. split; [reflexivity |]. cbn. repeat split; intros; try tauto; try lia;
          try discriminate; intuition (try discriminate; try congruence). }
    all: destruct (String.eqb_spec method "OPTIONS") as [-> | Hoptions];
      [ eexists; split; [reflexivity |]; cbn; repeat split; intros; try tauto; try lia;
        try discriminate; intuition (try discriminate; try congruence) |];
      destruct (String.eqb_spec method "POST") as [-> | Hpost]; cbn [negb];
      [ elim Hnot; tauto |];
      eexists; split; [reflexivity |]; cbn; repeat split; intros; try tauto; try lia;
        try discriminate; intuition (try discriminate; try congruence).
Qed.

Lemma fetch_routes_witness :
  exists answer,
    (forall request env w, Worker.fetch "GET" "/health" request env w = ([], Normal answer))
    /\ Worker.answer_status answer = 200%Z.
Proof.
  assert (Hnot : ~ ("GET" = "POST" /\ ("/health" = "/webhook" \/ "/health" = "/")))
    by (intros [H _]; discriminate H).
  destruct (proj2 (fetch_routes "GET" "/health") Hnot) as (answer & Hall & _ & H200 & _).
  exists answer. split; [exact Hall |].
  apply H200. split; [reflexivity | left; reflexivity].
Defined.

Lemma handleWebhook_copy_returns (request : Request) (env : Env) (w : World) :
  exists calls response, WorkerCopy.handleWebhook request env w = (calls, Normal response).
Proof.
  unfold WorkerCopy.handleWebhook, try_catch.
  destruct (WorkerCopy.handleWebhook_try request env w) as [calls [r | e]];
    [eauto | unfold ret; eexists; eexists; reflexivity].
Qed.

(** X21: the routes of the second copy, which tests the method before the
    path.  It answers 204 to OPTIONS and 405 to every other method than
    POST on every path, so its health check answers 200 to a POST only:
    a GET of [/health], which [src/index.js] answers 200, gets 405 here,
    and a POST of [/health], which [src/index.js] answers 405, gets 200.
    A POST to [/webhook] or [/] reaches the copy's handler. *)
Theorem fetch_copy_routes (method pathname : string) (request : Request) (env : Env)
    (w : World) :
  (method <> "POST" ->
   exists answer,
     WorkerCopy.fetch method pathname request env w = ([], Normal answer)
     /\ Worker.answer_status answer = (if method =? "OPTIONS" then 204%Z else 405%Z))
  /\ (method = "POST" -> pathname = "/health" ->
      exists copy original,
        WorkerCopy.fetch method pathname request env w = ([], Normal copy)
        /\ Worker.answer_status copy = 200%Z
        /\ Worker.fetch method pathname request env w = ([], Normal original)
        /\ Worker.answer_status original = 405%Z)
  /\ (method = "GET" \/ method = "HEAD" -> pathname = "/health" ->
      exists copy original,
        WorkerCopy.fetch method pathname request env w = ([], Normal copy)
        /\ Worker.answer_status copy = 405%Z
        /\ Worker.fetch method pathname request env w = ([], Normal original)
        /\ Worker.answer_status original = 200%Z)
  /\ (method = "POST" -> pathname = "/webhook" \/ pathname = "/" ->
      exists calls response,
        WorkerCopy.handleWebhook request env w = (calls, Normal response)
        /\ WorkerCopy.fetch method pathname request env w
           = (calls, Normal (Worker.Json response))).
Proof.
  split; [| split; [| split]].
  - intros Hpost. unfold WorkerCopy.fetch.
    destruct (String.eqb_spec method "OPTIONS") as [-> | Hoptions].
    + eexists. split; reflexivity.
    + destruct (String.eqb_spec method "POST") as [-> | _]; [now elim Hpost |].
      cbn [negb]. eexists. split; reflexivity.
  - intros -> ->. eexists. eexists. repeat split.
  - intros [-> | ->] ->; eexists; eexists; repeat split.
  - intros -> Hpath.
    destruct (handleWebhook_copy_returns request env w) as (calls & response & Hrun).
    exists calls, response. split; [exact Hrun |].
    unfold WorkerCopy.fetch.
    destruct Hpath as [-> | ->]; cbn [String.eqb Ascii.eqb Bool.eqb orb negb];
      rewrite await_unfold, Hrun; unfold ret; now rewrite app_nil_r.
Qed.

Lemma fetch_copy_routes_witness :
  exists copy original,
    WorkerCopy.fetch "GET" "/health" (Examples.post None JNull) Examples.env
      Examples.discord_200 = ([], Normal copy)
    /\ Worker.answer_status copy = 405%Z
    /\ Worker.fetch "GET" "/health" (Examples.post None JNull) Examples.env
         Examples.discord_200 = ([], Normal original)
    /\ Worker.answer_status original = 200%Z.
Proof.
  exact (proj1 (proj2 (proj2 (fetch_copy_routes "GET" "/health" (Examples.post None JNull)
                                Examples.env Examples.discord_200)))
           (or_introl eq_refl) eq_refl).
Defined.

End Router.

(* ================================================================== *)
(** * What the secret comparison computes *)
(* ================================================================== *)

Section SecretValue.

Import Worker.

(** X22: [secureCompare] is true exactly when both arguments are the same
    string: a missing header ([null]) or a secret that is not a string is
    never accepted, not even against itself.  The comparison is symmetric,
    and on a string it decides as [===] does. *)
Theorem secureCompare_is_string_equality (a b : Value) :
  (secureCompare a b = true <-> exists s, a = JStr s /\ b = JStr s)
  /\ secureCompare a b = secureCompare b a
  /\ secureCompare JNull b = false
  /\ (forall s, secureCompare (JStr s) b = strict_eq (JStr s) b).
Proof.
  assert (Hiff : forall x y,
            secureCompare x y = true <-> exists s, x = JStr s /\ y = JStr s).
  { intros x y. split.
    - destruct x as [ | | ? | ? | s | ? | ?]; try discriminate;
        destruct y as [ | | ? | ? | t | ? | ?]; try discriminate.
      intros H. apply secureCompare_iff in H. subst. eauto.
    - intros (s & -> & ->). now apply secureCompare_iff. }
  split; [apply Hiff |]. split; [| split].
  - destruct (secureCompare a b) eqn:Hab; destruct (secureCompare b a) eqn:Hba;
      try reflexivity.
    + apply Hiff in Hab. destruct Hab as (s & -> & ->).
      assert (H : secureCompare (JStr s) (JStr s) = true) by now apply Hiff; eauto.
      congruence.
    + apply Hiff in Hba. destruct Hba as (s & -> & ->).
      assert (H : secureCompare (JStr s) (JStr s) = true) by now apply Hiff; eauto.
      congruence.
  - reflexivity.
  - intros s. destruct b as [ | | ? | ? | t | ? | ?]; try reflexivity.
    cbn [strict_eq].
    destruct (String.eqb_spec s t) as [-> | Hne].
    + now apply secureCompare_iff.
    + destruct (secureCompare (JStr s) (JStr t)) eqn:H; [| reflexivity].
      apply secureCompare_iff in H. now elim Hne.
Qed.

End SecretValue.
